(** * CTTraderbot: the paper-trading journal and the technical analyzer

    A shallow embedding of [trading_journal.py] ([TradingJournal],
    [VirtualTrader]) and of the indicator code of [analyzer.py]
    ([ForexAnalyzer]), with the properties of the specification stated
    and proved over it.

    Numeric model.  Python floats are modelled by exact rationals ([Q]):
    rounding error of the binary representation is not modelled, and
    numeric results are compared with [==].  Where the code can produce
    the IEEE special values (the division in [calculate_rsi]) they are
    modelled explicitly by the type [pyfloat].  The balance of the
    journal is where a claim turns on the rounding itself: for it
    [Journal64] repeats the ledger on binary64 floats ([PrimFloat]),
    with every operation rounded as Python rounds it.  The journal files are
    not modelled: the journal is its in-memory state, and what
    [__init__] finds on disk is an input.  [datetime.now()] is an input
    of each operation.

    The modules after [Analyzer] embed the rest of the two files and
    the code around them: the signal of [generate_signal], the cycle of
    [main.py], the RSI curve of [chart_generator.py], the ledger of
    [app.py] and the tree of [config.py].  [app.py] reloads its two
    files on every request, so there the files are the state; the
    price feed, the chart and the messages are not modelled. *)

From Stdlib Require Import String Ascii List Bool Arith ZArith QArith Qround.
From Stdlib Require Import Lia Lqa.
From Stdlib Require DecimalString DecimalNat Sorted Permutation Floats.
Import ListNotations.

Open Scope Q_scope.

(** ** Python numerics *)

Module Py.

(** Strict comparison on rationals as a boolean. *)
Definition Qltb (a b : Q) : bool := negb (Qle_bool b a).

(** The integer nearest to [y], ties going to the even one. *)
Definition round_half_even (y : Q) : Z :=
  let f := Qfloor y in
  match Qcompare (y - inject_Z f) (1 # 2) with
  | Lt => f
  | Gt => (f + 1)%Z
  | Eq => if Z.even f then f else (f + 1)%Z
  end.

(** [round(x, ndigits)] of Python 3 on a float. *)
Definition round (x : Q) (ndigits : nat) : Q :=
  let s := (10 ^ Z.of_nat ndigits)%Z in
  Qred (inject_Z (round_half_even (x * inject_Z s)) / inject_Z s).

(** [sum(xs)]: a left fold starting from 0. *)
Definition sum (xs : list Q) : Q := fold_left Qplus xs 0.

(** [sorted(xs)]: a stable ascending sort. *)
Fixpoint insert_sorted (x : Q) (l : list Q) : list Q :=
  match l with
  | [] => [x]
  | y :: r => if Qltb x y then x :: y :: r else y :: insert_sorted x r
  end.

Definition sorted (xs : list Q) : list Q :=
  fold_left (fun acc x => insert_sorted x acc) xs [].

(** [min(x :: r)] and [max(x :: r)]: the first extremal element. *)
Definition min_of (x : Q) (r : list Q) : Q :=
  fold_left (fun m y => if Qltb y m then y else m) r x.

Definition max_of (x : Q) (r : list Q) : Q :=
  fold_left (fun m y => if Qltb m y then y else m) r x.

(** Exceptions the modelled code can raise. *)
Inductive Exn := IndexError | ValueError.

Inductive Result (A : Type) : Type :=
| Ok (a : A)
| Raise (e : Exn).
Arguments Ok {A} a.
Arguments Raise {A} e.

Definition bind {A B} (m : Result A) (k : A -> Result B) : Result B :=
  match m with
  | Ok a => k a
  | Raise e => Raise e
  end.

(** [s.iloc[-k]] for [k >= 1]: the [k]-th element from the end. *)
Definition iloc_neg {A} (s : list A) (k : nat) : Result A :=
  if (1 <=? k)%nat && (k <=? length s)%nat then
    match nth_error s (length s - k) with
    | Some x => Ok x
    | None => Raise IndexError
    end
  else Raise IndexError.

(** Floats with the IEEE special values.  Zero carries no sign: a
    positive number divided by zero is [PosInf]. *)
Inductive pyfloat :=
| Fin (q : Q)
| PosInf
| NegInf
| NaN.

Definition fl_neg (x : pyfloat) : pyfloat :=
  match x with
  | Fin q => Fin (- q)
  | PosInf => NegInf
  | NegInf => PosInf
  | NaN => NaN
  end.

Definition fl_add (x y : pyfloat) : pyfloat :=
  match x, y with
  | NaN, _ | _, NaN => NaN
  | Fin a, Fin b => Fin (a + b)
  | PosInf, NegInf | NegInf, PosInf => NaN
  | PosInf, _ | _, PosInf => PosInf
  | NegInf, _ | _, NegInf => NegInf
  end.

Definition fl_sub (x y : pyfloat) : pyfloat := fl_add x (fl_neg y).

Definition fl_div (x y : pyfloat) : pyfloat :=
  match x, y with
  | NaN, _ | _, NaN => NaN
  | Fin a, Fin b =>
      if Qeq_bool b 0 then
        if Qeq_bool a 0 then NaN else if Qltb 0 a then PosInf else NegInf
      else Fin (a / b)
  | Fin _, _ => Fin 0
  | _, Fin b =>
      match x with
      | NegInf => if Qltb b 0 then PosInf else NegInf
      | _ => if Qltb b 0 then NegInf else PosInf
      end
  | _, _ => NaN
  end.

(** [x < y]: false as soon as one side is [NaN]. *)
Definition fl_lt (x y : pyfloat) : bool :=
  match x, y with
  | NaN, _ | _, NaN => false
  | Fin a, Fin b => Qltb a b
  | _, NegInf => false
  | NegInf, _ => true
  | PosInf, _ => false
  | _, PosInf => true
  end.

Definition fl_gt (x y : pyfloat) : bool := fl_lt y x.

Definition is_nan (x : pyfloat) : bool :=
  match x with
  | NaN => true
  | _ => false
  end.

End Py.

Notation "x <- m ;; k" := (Py.bind m (fun x => k))
  (at level 61, m at next level, right associativity).

(** ** trading_journal.py *)

Module Journal.

(** The [signal_info] dict: stored with the trade, never inspected. *)
Definition SignalInfo : Type := list (string * string).

(** One entry of [self.trades['trades']]. *)
Record Trade := mkTrade {
  id : string;
  pair : string;
  direction : string;
  entry_price : Q;
  entry_time : string;
  lot_size : Q;
  signal_info : SignalInfo;
  status : string;
  exit_price : option Q;
  exit_time : option string;
  exit_reason : option string;
  pips : Q;
  pnl : Q;
  notes : string
}.

Record TradingJournal := mkJournal {
  trades : list Trade;
  balance : Q;
  trade_counter : nat
}.

(** [f"{n:04d}"]: the decimal digits of [n], zero-padded to width 4. *)
Fixpoint pad_zeros (k : nat) (d : Decimal.uint) : Decimal.uint :=
  match k with
  | O => d
  | S k' => Decimal.D0 (pad_zeros k' d)
  end.

Definition format_04d (n : nat) : string :=
  let d := Nat.to_uint n in
  DecimalString.NilEmpty.string_of_uint
    (pad_zeros (4 - Decimal.nb_digits d) d).

(** [f"TR{self.trade_counter:04d}"] *)
Definition trade_id_of (n : nat) : string := ("TR" ++ format_04d n)%string.

(** The dict [_load_trades] reads from journal.json: the list under
    its key 'trades' and the number of its other keys.  A file the
    journal wrote itself has none; [app.py] writes the same file with
    the key 'next_id' beside 'trades'. *)
Record StoredJournal := mkStored {
  stored_trades : list Trade;
  other_keys : nat
}.

(** [__init__]: [stored] and [stored_balance] are what [_load_trades]
    and [_load_balance] find on disk, if anything; without a file
    [self.trades] is [{'trades': []}].  The counter is
    [len(self.trades) + 1], the number of keys of that dict plus one,
    whatever the list holds. *)
Definition init (stored : option StoredJournal)
    (stored_balance : option Q) (balance : Q) : TradingJournal :=
  {| trades := match stored with Some s => stored_trades s | None => [] end;
     balance := match stored_balance with Some b => b | None => balance end;
     trade_counter :=
       match stored with Some s => 1 + other_keys s | None => 1 end + 1 |}.

Definition is_open (t : Trade) : bool := (status t =? "OPEN")%string.
Definition is_closed (t : Trade) : bool := (status t =? "CLOSED")%string.

(** The dict [trade = {...}] built by [open_trade]. *)
Definition new_trade (trade_id now pair direction : string) (entry_price : Q)
    (signal_info : SignalInfo) (lot_size : Q) : Trade :=
  {| id := trade_id;
     pair := pair;
     direction := direction;
     entry_price := entry_price;
     entry_time := now;
     lot_size := lot_size;
     signal_info := signal_info;
     status := "OPEN";
     exit_price := None;
     exit_time := None;
     exit_reason := None;
     pips := 0;
     pnl := 0;
     notes := "" |}.

Definition open_trade (j : TradingJournal) (now : string)
    (pair direction : string) (entry_price : Q) (signal_info : SignalInfo)
    (lot_size : Q) : string * TradingJournal :=
  let trade_id := trade_id_of (trade_counter j) in
  let trade :=
    new_trade trade_id now pair direction entry_price signal_info lot_size in
  (trade_id,
   {| trades := trades j ++ [trade];
      balance := balance j;
      trade_counter := trade_counter j + 1 |}).

(** The body of the [if] in [close_trade]: the trade after the update. *)
Definition close_fields (t : Trade) (now : string) (exit_price : Q)
    (reason : string) : Trade :=
  let pips' :=
    if (direction t =? "BUY")%string
    then Py.round ((exit_price - entry_price t) * 10000) 1
    else Py.round ((entry_price t - exit_price) * 10000) 1 in
  {| id := id t;
     pair := pair t;
     direction := direction t;
     entry_price := entry_price t;
     entry_time := entry_time t;
     lot_size := lot_size t;
     signal_info := signal_info t;
     status := "CLOSED";
     exit_price := Some exit_price;
     exit_time := Some now;
     exit_reason := Some reason;
     pips := pips';
     pnl := Py.round (pips' * lot_size t * 10) 2;
     notes := notes t |}.

(** The [for] loop of [close_trade]: the first trade with the given id
    that is OPEN is updated in place and returned. *)
Fixpoint close_first (ts : list Trade) (trade_id now : string)
    (exit_price : Q) (reason : string) : option (Trade * list Trade) :=
  match ts with
  | [] => None
  | t :: rest =>
      if (id t =? trade_id)%string && is_open t then
        let t' := close_fields t now exit_price reason in
        Some (t', t' :: rest)
      else
        match close_first rest trade_id now exit_price reason with
        | Some (t', rest') => Some (t', t :: rest')
        | None => None
        end
  end.

Definition close_trade (j : TradingJournal) (trade_id now : string)
    (exit_price : Q) (reason : string) : option Trade * TradingJournal :=
  match close_first (trades j) trade_id now exit_price reason with
  | Some (t', ts') =>
      (Some t',
       {| trades := ts';
          balance := balance j + pnl t';
          trade_counter := trade_counter j |})
  | None => (None, j)
  end.

Definition get_open_trades (j : TradingJournal) : list Trade :=
  filter is_open (trades j).

Definition get_closed_trades (j : TradingJournal) : list Trade :=
  filter is_closed (trades j).

Definition reset (j : TradingJournal) (new_balance : Q) : TradingJournal :=
  {| trades := [];
     balance := new_balance;
     trade_counter := trade_counter j |}.

(** [VirtualTrader.on_signal].  [pair_trades] is computed once, before
    any trade is closed; the fields the loops read from it ([id],
    [direction]) are not changed by [close_trade]. *)
Definition on_signal (j : TradingJournal) (now : string)
    (pair_ signal : string) (price : Q) (signal_data : SignalInfo)
    : option string * TradingJournal :=
  if (signal =? "HOLD")%string then (None, j)
  else
    let open_trades := get_open_trades j in
    let pair_trades :=
      filter (fun t => (pair t =? pair_)%string) open_trades in
    if (signal =? "BUY")%string then
      let j1 :=
        fold_left
          (fun j' t =>
             if (direction t =? "SELL")%string
             then snd (close_trade j' (id t) now price "REVERSED")
             else j')
          pair_trades j in
      if negb (existsb (fun t => (direction t =? "BUY")%string) pair_trades)
      then
        let (trade_id, j2) :=
          open_trade j1 now pair_ "BUY" price signal_data (1 # 100) in
        (Some trade_id, j2)
      else (None, j1)
    else if (signal =? "SELL")%string then
      let j1 :=
        fold_left
          (fun j' t =>
             if (direction t =? "BUY")%string
             then snd (close_trade j' (id t) now price "REVERSED")
             else j')
          pair_trades j in
      if negb (existsb (fun t => (direction t =? "SELL")%string) pair_trades)
      then
        let (trade_id, j2) :=
          open_trade j1 now pair_ "SELL" price signal_data (1 # 100) in
        (Some trade_id, j2)
      else (None, j1)
    else (None, j).

(** Sequences of journal operations. *)
Inductive Op :=
| OpOpen (now pair direction : string) (entry_price : Q)
    (signal_info : SignalInfo) (lot_size : Q)
| OpClose (trade_id now : string) (exit_price : Q) (reason : string)
| OpReset (new_balance : Q).

Definition step (j : TradingJournal) (op : Op) : TradingJournal :=
  match op with
  | OpOpen now p d e i l => snd (open_trade j now p d e i l)
  | OpClose tid now x r => snd (close_trade j tid now x r)
  | OpReset b => reset j b
  end.

Definition run (j : TradingJournal) (ops : list Op) : TradingJournal :=
  fold_left step ops j.

(** One call of [on_signal]. *)
Record SignalCall := mkCall {
  call_now : string;
  call_pair : string;
  call_signal : string;
  call_price : Q;
  call_data : SignalInfo
}.

Definition on_signals (j : TradingJournal) (calls : list SignalCall)
    : TradingJournal :=
  fold_left
    (fun j' c =>
       snd (on_signal j' (call_now c) (call_pair c) (call_signal c)
              (call_price c) (call_data c)))
    calls j.

(** The OPEN trades on a pair. *)
Definition open_on (p : string) (j : TradingJournal) : list Trade :=
  filter (fun t => (pair t =? p)%string) (get_open_trades j).

(** *** Predicates used in the statements *)

(** No OPEN trade already carries the id the next [open_trade] assigns. *)
Definition next_id_free (j : TradingJournal) : bool :=
  forallb
    (fun t => negb ((id t =? trade_id_of (trade_counter j))%string && is_open t))
    (trades j).

(** The shape the BUY and the SELL branch of [on_signal] share. *)
Definition reverse_and_open (j : TradingJournal)
    (now pair_ same opposite : string) (price : Q) (signal_data : SignalInfo)
    : option string * TradingJournal :=
  let pair_trades := open_on pair_ j in
  let j1 :=
    fold_left
      (fun j' t =>
         if (direction t =? opposite)%string
         then snd (close_trade j' (id t) now price "REVERSED")
         else j')
      pair_trades j in
  if negb (existsb (fun t => (direction t =? same)%string) pair_trades)
  then
    let (trade_id, j2) :=
      open_trade j1 now pair_ same price signal_data (1 # 100) in
    (Some trade_id, j2)
  else (None, j1).

(** What [on_signal] maintains about the OPEN trades: their ids were
    assigned by this journal's counter, an id names one trade, a
    direction is BUY or SELL, and a pair has at most one of them. *)
Record open_ok (j : TradingJournal) : Prop := {
  ok_ids : forall t, In t (get_open_trades j) ->
             exists k, (k < trade_counter j)%nat /\ id t = trade_id_of k;
  ok_unique : forall t1 t2,
                In t1 (get_open_trades j) -> In t2 (get_open_trades j) ->
                id t1 = id t2 -> t1 = t2;
  ok_direction : forall t, In t (get_open_trades j) ->
                   direction t = "BUY"%string \/ direction t = "SELL"%string;
  ok_one_per_pair : forall p, (length (open_on p j) <= 1)%nat
}.

(** A journal with one OPEN BUY trade on EURUSD. *)
Definition journal_with_open_buy : TradingJournal :=
  snd (open_trade (init None None 10000) "t0" "EURUSD" "BUY" (11 # 10) []
         (1 # 100)).

End Journal.

(** ** analyzer.py *)

Module Analyzer.

Import Py.

(** One row of the OHLCV data frame. *)
Record Bar := mkBar {
  open : Q;
  high : Q;
  low : Q;
  close : Q;
  volume : Q
}.

Definition DataFrame : Type := list Bar.

(** [data[col]] *)
Definition column (col : Bar -> Q) (data : DataFrame) : list Q := map col data.

(** *** Trend *)

Inductive Trend :=
| STRONG_UPTREND
| WEAK_UPTREND
| STRONG_DOWNTREND
| WEAK_DOWNTREND
| RANGE_BOUND.

(** [ewm(span=period, adjust=False).mean()] after the first value:
    [y_t = (1 - alpha) * y_(t-1) + alpha * x_t]. *)
Fixpoint ewm_from (alpha prev : Q) (xs : list Q) : list Q :=
  match xs with
  | [] => []
  | x :: r =>
      let y := (1 - alpha) * prev + alpha * x in
      y :: ewm_from alpha y r
  end.

(** [close.ewm(span=period, adjust=False).mean()]; pandas raises
    [ValueError] for a span below 1. *)
Definition calculate_ema (close : list Q) (period : nat) : Result (list Q) :=
  if (1 <=? period)%nat then
    let alpha := 2 / (inject_Z (Z.of_nat period) + 1) in
    Ok (match close with
        | [] => []
        | x :: r => x :: ewm_from alpha x r
        end)
  else Raise ValueError.

Definition get_trend (data : DataFrame) (ema_fast ema_slow ema_trend : nat)
    : Result Trend :=
  let close := column close data in
  ema_20 <- calculate_ema close ema_fast ;;
  ema_50 <- calculate_ema close ema_slow ;;
  ema_200 <-
    (if (200 <=? length close)%nat then calculate_ema close ema_trend
     else Ok ema_50) ;;
  current_price <- iloc_neg close 1 ;;
  e200 <- iloc_neg ema_200 1 ;;
  e50 <- iloc_neg ema_50 1 ;;
  Ok (if Qltb e200 current_price && Qltb e200 e50 then STRONG_UPTREND
      else if Qltb e200 current_price then WEAK_UPTREND
      else if Qltb current_price e200 && Qltb e50 e200 then STRONG_DOWNTREND
      else if Qltb current_price e200 then WEAK_DOWNTREND
      else RANGE_BOUND).

(** The series [get_trend] names [ema_200]. *)
Definition trend_ema (close : list Q) (ema_slow ema_trend : nat)
    : Result (list Q) :=
  if (200 <=? length close)%nat then calculate_ema close ema_trend
  else calculate_ema close ema_slow.

(** [series.iloc[-1]] of a series that was computed without error. *)
Definition last_of (series : Result (list Q)) : Result Q :=
  s <- series ;; iloc_neg s 1.

(** *** Support and resistance: [cluster_levels] *)

(** [[l for l in levels if min_p + i*step <= l < min_p + (i+1)*step]] *)
Definition bin_levels (levels : list Q) (min_p step : Q) (i : nat) : list Q :=
  filter
    (fun l =>
       Qle_bool (min_p + inject_Z (Z.of_nat i) * step) l
       && Qltb l (min_p + (inject_Z (Z.of_nat i) + 1) * step))
    levels.

(** [min(levels)] raises [ValueError] on the empty list.  The levels
    are numpy floats, so dividing by [num_clusters = 0] raises nothing;
    the quotient is then never used. *)
Definition cluster_levels (levels : list Q) (num_clusters : nat)
    : Result (list Q) :=
  if (length levels <? num_clusters)%nat then Ok (sorted levels)
  else
    match levels with
    | [] => Raise ValueError
    | x :: r =>
        let min_p := min_of x r in
        let max_p := max_of x r in
        let step := (max_p - min_p) / inject_Z (Z.of_nat num_clusters) in
        let clustered :=
          flat_map
            (fun i =>
               let b := bin_levels levels min_p step i in
               match b with
               | [] => []
               | _ :: _ => [sum b / inject_Z (Z.of_nat (length b))]
               end)
            (seq 0 num_clusters) in
        Ok (sorted clustered)
    end.

(** [all(prices[i] <= prices[i+j] for j in range(-window, window+1)
    if j != 0)], with [cmp] the comparison. *)
Definition is_local_extremum (cmp : Q -> Q -> bool) (prices : list Q)
    (window i : nat) : bool :=
  forallb
    (fun k => (k =? i)%nat || cmp (nth i prices 0) (nth k prices 0))
    (seq (i - window) (2 * window + 1)).

Record SRLevels := mkSRLevels {
  support : list Q;
  resistance : list Q;
  nearest_support : option Q;
  nearest_resistance : option Q
}.

(** [min(levels) if levels else None] *)
Definition min_or_none (levels : list Q) : option Q :=
  match levels with
  | [] => None
  | x :: r => Some (min_of x r)
  end.

Definition find_support_resistance (close : list Q) (num_levels : nat)
    : Result SRLevels :=
  let prices := close in
  let window := 10%nat in
  let interior := seq window (length prices - window - window) in
  let local_mins :=
    map (fun i => nth i prices 0)
      (filter (is_local_extremum Qle_bool prices window) interior) in
  let local_maxs :=
    map (fun i => nth i prices 0)
      (filter (is_local_extremum (fun a b => Qle_bool b a) prices window)
         interior) in
  supports <- cluster_levels local_mins (num_levels / 2) ;;
  resistances <- cluster_levels local_maxs (num_levels / 2) ;;
  let supports := firstn 3 supports in
  let resistances := firstn 3 resistances in
  Ok {| support := supports;
        resistance := resistances;
        nearest_support := min_or_none supports;
        nearest_resistance := min_or_none resistances |}.

(** *** Candlestick patterns *)

Inductive Pattern :=
| DOJI
| BULLISH_HAMMER
| INVERTED_HAMMER
| SHOOTING_STAR
| BULLISH_ENGULFING
| BEARISH_ENGULFING
| MORNING_STAR
| EVENING_STAR
| THREE_WHITE_SOLDIERS
| NONE.

Definition Qabs_ (x : Q) : Q := if Qltb x 0 then - x else x.
Definition Qmax_ (a b : Q) : Q := if Qltb a b then b else a.
Definition Qmin_ (a b : Q) : Q := if Qltb b a then b else a.

(** The conditions of the [if] statements, on the values they read. *)
Definition doji_cond (o h l c : Q) : bool :=
  let body := Qabs_ (c - o) in
  let upper_shadow := h - Qmax_ o c in
  let lower_shadow := Qmin_ o c - l in
  Qltb (body * 3) upper_shadow && Qltb (body * 3) lower_shadow.

Definition bullish_hammer_cond (o h l c : Q) : bool :=
  let body := Qabs_ (c - o) in
  let upper_shadow := h - Qmax_ o c in
  let lower_shadow := Qmin_ o c - l in
  Qltb (body * 2) lower_shadow && Qltb upper_shadow (body * (1 # 2))
  && Qltb o c.

Definition inverted_hammer_cond (o h l c : Q) : bool :=
  let body := Qabs_ (c - o) in
  let upper_shadow := h - Qmax_ o c in
  let lower_shadow := Qmin_ o c - l in
  Qltb (body * 2) upper_shadow && Qltb lower_shadow (body * (1 # 2))
  && Qltb o c.

Definition shooting_star_cond (o h l c : Q) : bool :=
  let body := Qabs_ (c - o) in
  let upper_shadow := h - Qmax_ o c in
  let lower_shadow := Qmin_ o c - l in
  Qltb (body * 2) upper_shadow && Qltb lower_shadow (body * (1 # 2))
  && Qltb c o.

Definition bullish_engulfing_cond (o c po pc : Q) : bool :=
  Qltb o c && Qltb pc po && Qltb po c && Qltb o pc.

Definition bearish_engulfing_cond (o c po pc : Q) : bool :=
  Qltb c o && Qltb po pc && Qltb c po && Qltb pc o.

Definition morning_star_cond (o c o1 c1 o2 c2 : Q) : bool :=
  Qltb c1 o1 && Qltb (Qabs_ (c2 - o2)) (Qabs_ (c1 - o1) * (3 # 10))
  && Qltb o c && Qltb ((o1 + c1) / 2) c.

Definition evening_star_cond (o c o1 c1 o2 c2 : Q) : bool :=
  Qltb o1 c1 && Qltb (Qabs_ (c2 - o2)) (Qabs_ (c1 - o1) * (3 # 10))
  && Qltb c o && Qltb c ((o1 + c1) / 2).

(** [all(f(i) for i in range(n))] from [i]: the elements are evaluated
    in order, the first false one ends the scan, and an element that
    raises ends it with the exception. *)
Fixpoint all_range (f : nat -> Result bool) (i n : nat) : Result bool :=
  match n with
  | O => Ok true
  | S n' =>
      b <- f i ;;
      if b then all_range f (S i) n' else Ok false
  end.

(** [patterns.append(p)] under an [if]. *)
Definition append_if (b : bool) (p : Pattern) (patterns : list Pattern)
    : list Pattern :=
  if b then patterns ++ [p] else patterns.

Definition get_candle_patterns (data : DataFrame) : Result Pattern :=
  o <- iloc_neg (column open data) 1 ;;
  h <- iloc_neg (column high data) 1 ;;
  l <- iloc_neg (column low data) 1 ;;
  c <- iloc_neg (column close data) 1 ;;
  let body := Qabs_ (c - o) in
  let body_size := if Qltb (1 # 10000) body then body else 1 # 10000 in
  po <- iloc_neg (column open data) 2 ;;
  pc <- iloc_neg (column close data) 2 ;;
  let pbody := Qabs_ (pc - po) in
  let patterns := [] in
  let patterns := append_if (doji_cond o h l c) DOJI patterns in
  let patterns :=
    append_if (bullish_hammer_cond o h l c) BULLISH_HAMMER patterns in
  let patterns :=
    append_if (inverted_hammer_cond o h l c) INVERTED_HAMMER patterns in
  let patterns :=
    append_if (shooting_star_cond o h l c) SHOOTING_STAR patterns in
  let patterns :=
    append_if (bullish_engulfing_cond o c po pc) BULLISH_ENGULFING patterns in
  let patterns :=
    append_if (bearish_engulfing_cond o c po pc) BEARISH_ENGULFING patterns in
  patterns <-
    (if (3 <=? length data)%nat then
       c1 <- iloc_neg (column close data) 3 ;;
       o1 <- iloc_neg (column open data) 3 ;;
       c2 <- iloc_neg (column close data) 2 ;;
       o2 <- iloc_neg (column open data) 2 ;;
       Ok (append_if (morning_star_cond o c o1 c1 o2 c2) MORNING_STAR patterns)
     else Ok patterns) ;;
  patterns <-
    (if (3 <=? length data)%nat then
       c1 <- iloc_neg (column close data) 3 ;;
       o1 <- iloc_neg (column open data) 3 ;;
       c2 <- iloc_neg (column close data) 2 ;;
       o2 <- iloc_neg (column open data) 2 ;;
       Ok (append_if (evening_star_cond o c o1 c1 o2 c2) EVENING_STAR patterns)
     else Ok patterns) ;;
  patterns <-
    (if (3 <=? length data)%nat then
       bullish <-
         all_range
           (fun i =>
              ci <- iloc_neg (column close data) (3 - i) ;;
              oi <- iloc_neg (column open data) (3 - i) ;;
              Ok (Qltb oi ci))
           0 3 ;;
       if bullish then
         rising <-
           all_range
             (fun i =>
                ci <- iloc_neg (column close data) (3 - i) ;;
                cp <- iloc_neg (column close data) (4 - i) ;;
                Ok (Qltb cp ci))
             0 3 ;;
         Ok (append_if rising THREE_WHITE_SOLDIERS patterns)
       else Ok patterns
     else Ok patterns) ;;
  Ok (match patterns with
      | p :: _ => p
      | [] => NONE
      end).

(** The priority order of the specification. *)
Definition priority : list Pattern :=
  [DOJI; BULLISH_HAMMER; INVERTED_HAMMER; SHOOTING_STAR; BULLISH_ENGULFING;
   BEARISH_ENGULFING; MORNING_STAR; EVENING_STAR; THREE_WHITE_SOLDIERS].


(** The first pattern of [order] on which [holds] is true. *)
Fixpoint first_match (holds : Pattern -> bool) (order : list Pattern)
    : Pattern :=
  match order with
  | [] => NONE
  | p :: r => if holds p then p else first_match holds r
  end.

(** The [k]-th bar from the end, [k >= 1] (a bar of zeros when the
    series is shorter). *)
Definition bar_from_end (data : DataFrame) (k : nat) : Bar :=
  nth (k - 1) (List.rev data) (mkBar 0 0 0 0 0).

(** The condition under which the code appends each pattern. *)
Definition pattern_holds (data : DataFrame) (p : Pattern) : bool :=
  let b1 := bar_from_end data 1 in
  let b2 := bar_from_end data 2 in
  let b3 := bar_from_end data 3 in
  let b4 := bar_from_end data 4 in
  match p with
  | DOJI => doji_cond (open b1) (high b1) (low b1) (close b1)
  | BULLISH_HAMMER =>
      bullish_hammer_cond (open b1) (high b1) (low b1) (close b1)
  | INVERTED_HAMMER =>
      inverted_hammer_cond (open b1) (high b1) (low b1) (close b1)
  | SHOOTING_STAR =>
      shooting_star_cond (open b1) (high b1) (low b1) (close b1)
  | BULLISH_ENGULFING =>
      bullish_engulfing_cond (open b1) (close b1) (open b2) (close b2)
  | BEARISH_ENGULFING =>
      bearish_engulfing_cond (open b1) (close b1) (open b2) (close b2)
  | MORNING_STAR =>
      (3 <=? length data)%nat
      && morning_star_cond (open b1) (close b1) (open b3) (close b3)
           (open b2) (close b2)
  | EVENING_STAR =>
      (3 <=? length data)%nat
      && evening_star_cond (open b1) (close b1) (open b3) (close b3)
           (open b2) (close b2)
  | THREE_WHITE_SOLDIERS =>
      (3 <=? length data)%nat
      && (Qltb (open b3) (close b3) && Qltb (open b2) (close b2)
          && Qltb (open b1) (close b1))
      && (Qltb (close b4) (close b3) && Qltb (close b3) (close b2)
          && Qltb (close b2) (close b1))
  | NONE => false
  end.

(** *** Momentum: [calculate_rsi] *)

(** [close.diff()]: the first difference is missing. *)
Fixpoint diff_from (prev : Q) (xs : list Q) : list pyfloat :=
  match xs with
  | [] => []
  | x :: r => Fin (x - prev) :: diff_from x r
  end.

Definition diff (s : list Q) : list pyfloat :=
  match s with
  | [] => []
  | x :: r => NaN :: diff_from x r
  end.

(** [s.where(cond, other)]: keeps the values on which [cond] holds. *)
Definition where_ (s : list pyfloat) (cond : pyfloat -> bool)
    (other : pyfloat) : list pyfloat :=
  map (fun d => if cond d then d else other) s.

(** The values a rolling window ending at index [i] covers. *)
Definition window_at (s : list pyfloat) (i window : nat) : list pyfloat :=
  let start := (S i - window)%nat in
  firstn (S i - start) (skipn start s).

(** The mean of one window; [NaN] when it holds fewer than [window]
    observations ([min_periods] defaults to the window size and a [NaN]
    is no observation). *)
Definition window_mean (w : list pyfloat) (window : nat) : pyfloat :=
  if (length w <? window)%nat || existsb is_nan w then NaN
  else fl_div (fold_left fl_add w (Fin 0)) (Fin (inject_Z (Z.of_nat window))).

(** [s.rolling(window=window).mean()] *)
Definition rolling_mean (s : list pyfloat) (window : nat) : list pyfloat :=
  map (fun i => window_mean (window_at s i window) window) (seq 0 (length s)).

Definition rsi_gain (close : list Q) (period : nat) : list pyfloat :=
  let delta := diff close in
  rolling_mean (where_ delta (fun d => fl_gt d (Fin 0)) (Fin 0)) period.

Definition rsi_loss (close : list Q) (period : nat) : list pyfloat :=
  let delta := diff close in
  rolling_mean
    (map fl_neg (where_ delta (fun d => fl_lt d (Fin 0)) (Fin 0))) period.

Definition calculate_rsi (close : list Q) (period : nat) : pyfloat :=
  let gain := rsi_gain close period in
  let loss := rsi_loss close period in
  let rs := map (fun gl => fl_div (fst gl) (snd gl)) (combine gain loss) in
  let rsi :=
    map (fun r => fl_sub (Fin 100) (fl_div (Fin 100) (fl_add (Fin 1) r))) rs in
  match rsi with
  | [] => Fin 50
  | _ :: _ => last rsi NaN
  end.

(** *** Predicates and data used in the statements *)

(** A finite, non-negative float. *)
Definition nonneg_fin (x : pyfloat) : Prop := exists q, x = Fin q /\ 0 <= q.

(** A bearish bar of small body followed by a bar that engulfs it and
    has long shadows: DOJI and BULLISH_ENGULFING both hold. *)
Definition doji_and_engulfing : DataFrame :=
  [mkBar (10005 # 10000) (10010 # 10000) (10000 # 10000) (10004 # 10000) 0;
   mkBar (10003 # 10000) (10020 # 10000) (9990 # 10000) (10006 # 10000) 0].


(** [n] prices from [a] towards [b], [b] excluded. *)
Definition ramp (a b : Q) (n : nat) : list Q :=
  map (fun k => Qred (a + (b - a) * inject_Z (Z.of_nat k) / inject_Z (Z.of_nat n)))
    (seq 0 n).

(** A close series with peaks 1, 2 and 3, eleven bars apart from the
    troughs between them. *)
Definition three_peaks : list Q :=
  ramp 0 1 11 ++ ramp 1 (1 # 2) 11 ++ ramp (1 # 2) 2 11
  ++ ramp 2 (7 # 10) 11 ++ ramp (7 # 10) 3 11 ++ ramp 3 0 12.

(** The three bars of a three-bar frame are all bullish: the one case
    in which the soldiers check, behind [len(data) >= 3], goes on to
    read a fourth bar from the end. *)
Definition three_bullish_bars (data : DataFrame) : bool :=
  (length data =? 3)%nat && forallb (fun b => Qltb (open b) (close b)) data.


(** Three bullish bars, the last with a small body between long
    shadows: DOJI holds on the last bar. *)
Definition doji_after_two_bullish : DataFrame :=
  [mkBar 1 2 1 2 0; mkBar 2 3 2 3 0; mkBar 3 (35 # 10) (25 # 10) (301 # 100) 0].

End Analyzer.


(** ** More Python: dicts, substrings, float product *)

Module PyMore.

Import Py.

(** [d.get(k)] on a dict with string keys, kept as the list of its
    items. *)
Fixpoint lookup {A} (k : string) (d : list (string * A)) : option A :=
  match d with
  | [] => None
  | (k', v) :: r => if (k' =? k)%string then Some v else lookup k r
  end.

(** [d[k] = v] on a dict kept as the list of its items: the value is
    replaced in place, a new key goes to the end. *)
Fixpoint set_item {A} (k : string) (v : A) (d : list (string * A))
    : list (string * A) :=
  match d with
  | [] => [(k, v)]
  | (k', v') :: r =>
      if (k' =? k)%string then (k, v) :: r else (k', v') :: set_item k v r
  end.

(** [needle in hay] on strings. *)
Fixpoint contains (needle hay : string) : bool :=
  match hay with
  | EmptyString => (needle =? EmptyString)%string
  | String _ rest => String.prefix needle hay || contains needle rest
  end.

(** [x in xs] on a list of strings. *)
Definition in_list (x : string) (xs : list string) : bool :=
  existsb (String.eqb x) xs.

Definition fl_mul (x y : pyfloat) : pyfloat :=
  match x, y with
  | NaN, _ | _, NaN => NaN
  | Fin a, Fin b => Fin (a * b)
  | Fin a, PosInf | PosInf, Fin a =>
      if Qeq_bool a 0 then NaN else if Qltb 0 a then PosInf else NegInf
  | Fin a, NegInf | NegInf, Fin a =>
      if Qeq_bool a 0 then NaN else if Qltb 0 a then NegInf else PosInf
  | PosInf, PosInf | NegInf, NegInf => PosInf
  | PosInf, NegInf | NegInf, PosInf => NegInf
  end.

(** What a call does when the exception it may raise is not one of
    [Exn]: it returns, or raises the exception named. *)
Inductive Outcome (A : Type) :=
| Returns (a : A)
| Raises (exception : string).

Arguments Returns {A} a.
Arguments Raises {A} exception.

End PyMore.

(** ** trading_journal.py: market close, lookup, statistics *)

Module JournalOps.

Import Journal PyMore.

(** The [for] loop of [close_all_at_market] from position [i], with [n]
    positions left.  The loop walks the list object that [close_trade]
    updates in place, so each trade is read from the current journal. *)
Fixpoint close_all_loop (n i : nat) (j : TradingJournal) (now : string)
    (current_prices : list (string * Q)) (closed : list string)
    : list string * TradingJournal :=
  match n with
  | O => (closed, j)
  | S n' =>
      match nth_error (trades j) i with
      | None => (closed, j)
      | Some trade =>
          match (if is_open trade then lookup (pair trade) current_prices
                 else None) with
          | Some current_price =>
              let (result, j') :=
                close_trade j (id trade) now current_price "MARKET_CLOSE" in
              close_all_loop n' (S i) j' now current_prices
                (match result with
                 | Some _ => closed ++ [id trade]
                 | None => closed
                 end)
          | None => close_all_loop n' (S i) j now current_prices closed
          end
      end
  end.

Definition close_all_at_market (j : TradingJournal) (now : string)
    (current_prices : list (string * Q)) : list string * TradingJournal :=
  close_all_loop (length (trades j)) 0 j now current_prices [].

Definition get_trade (j : TradingJournal) (trade_id : string) : option Trade :=
  find (fun t => (id t =? trade_id)%string) (trades j).

(** [max(closed, key=lambda x: x['pnl'])] and [min]: the first
    extremal trade. *)
Definition max_by_pnl (x : Trade) (r : list Trade) : Trade :=
  fold_left (fun best y => if Py.Qltb (pnl best) (pnl y) then y else best) r x.

Definition min_by_pnl (x : Trade) (r : list Trade) : Trade :=
  fold_left (fun best y => if Py.Qltb (pnl y) (pnl best) then y else best) r x.

(** The dict [get_stats] returns; the keys [best_trade] and
    [worst_trade] are absent when no trade is closed. *)
Record Stats := mkStats {
  total_trades : nat;
  wins : nat;
  losses : nat;
  win_rate : Q;
  total_pnl : Q;
  open_trades : nat;
  stats_balance : Q;
  best_trade : option Trade;
  worst_trade : option Trade
}.

Definition get_stats (j : TradingJournal) : Stats :=
  let closed := get_closed_trades j in
  let open_trades := get_open_trades j in
  match closed with
  | [] =>
      {| total_trades := 0;
         wins := 0;
         losses := 0;
         win_rate := 0;
         total_pnl := 0;
         open_trades := length open_trades;
         stats_balance := balance j;
         best_trade := None;
         worst_trade := None |}
  | c :: cs =>
      let wins := filter (fun t => Py.Qltb 0 (pnl t)) closed in
      let losses := filter (fun t => Py.Qltb (pnl t) 0) closed in
      let total_pnl := Py.sum (map pnl closed) in
      let win_rate :=
        inject_Z (Z.of_nat (length wins)) / inject_Z (Z.of_nat (length closed))
        * 100 in
      {| total_trades := length closed;
         wins := length wins;
         losses := length losses;
         win_rate := Py.round win_rate 1;
         total_pnl := Py.round total_pnl 2;
         open_trades := length open_trades;
         stats_balance := Py.round (balance j) 2;
         best_trade := Some (max_by_pnl c cs);
         worst_trade := Some (min_by_pnl c cs) |}
  end.

(** The ids the [open_trade] calls of a run return, in order. *)
Fixpoint issued_ids (j : TradingJournal) (ops : list Op) : list string :=
  match ops with
  | [] => []
  | op :: rest =>
      match op with
      | OpOpen now p d e i l =>
          fst (open_trade j now p d e i l) :: issued_ids (step j op) rest
      | _ => issued_ids (step j op) rest
      end
  end.

(** The history is kept from [j] to [j']: no trade is removed, and a
    trade that is not OPEN stays where and as it is. *)
Definition history_kept (j j' : TradingJournal) : Prop :=
  (length (trades j) <= length (trades j'))%nat /\
  forall i t,
    nth_error (trades j) i = Some t -> is_open t = false ->
    nth_error (trades j') i = Some t.

(** What [close_all_at_market] is shown to do to one trade: an OPEN
    trade whose pair has a price is closed at that price. *)
Definition market_closed (now : string) (current_prices : list (string * Q))
    (t : Trade) : Trade :=
  if is_open t then
    match lookup (pair t) current_prices with
    | Some price => close_fields t now price "MARKET_CLOSE"
    | None => t
    end
  else t.

(** The trade is OPEN and its pair has a price. *)
Definition open_and_priced (current_prices : list (string * Q)) (t : Trade)
    : bool :=
  is_open t
  && match lookup (pair t) current_prices with
     | Some _ => true
     | None => false
     end.

(** A journal with an OPEN BUY on EURUSD and an OPEN SELL on GBPUSD. *)
Definition journal_with_two_open : TradingJournal :=
  snd (open_trade journal_with_open_buy "t1" "GBPUSD" "SELL" (13 # 10) []
         (1 # 100)).

End JournalOps.


(** ** analyzer.py: price position and signal *)

Module Scoring.

Import Py PyMore Analyzer.

(** The strings [get_trend] and [get_candle_patterns] return. *)
Definition trend_name (t : Trend) : string :=
  match t with
  | STRONG_UPTREND => "STRONG_UPTREND"
  | WEAK_UPTREND => "WEAK_UPTREND"
  | STRONG_DOWNTREND => "STRONG_DOWNTREND"
  | WEAK_DOWNTREND => "WEAK_DOWNTREND"
  | RANGE_BOUND => "RANGE_BOUND"
  end.

Definition pattern_name (p : Pattern) : string :=
  match p with
  | DOJI => "DOJI"
  | BULLISH_HAMMER => "BULLISH_HAMMER"
  | INVERTED_HAMMER => "INVERTED_HAMMER"
  | SHOOTING_STAR => "SHOOTING_STAR"
  | BULLISH_ENGULFING => "BULLISH_ENGULFING"
  | BEARISH_ENGULFING => "BEARISH_ENGULFING"
  | MORNING_STAR => "MORNING_STAR"
  | EVENING_STAR => "EVENING_STAR"
  | THREE_WHITE_SOLDIERS => "THREE_WHITE_SOLDIERS"
  | NONE => "NONE"
  end.

(** The prices are numpy floats: a zero [price] divides to an infinity
    or NaN, nothing is raised. *)
Definition get_price_position (price : Q) (sr_levels : SRLevels) : string :=
  match nearest_support sr_levels, nearest_resistance sr_levels with
  | Some nearest_sup, Some nearest_res =>
      let sup_dist :=
        fl_mul (fl_div (Fin (price - nearest_sup)) (Fin price)) (Fin 100) in
      let res_dist :=
        fl_mul (fl_div (Fin (nearest_res - price)) (Fin price)) (Fin 100) in
      if fl_lt sup_dist (Fin (1 # 2)) then "AT_SUPPORT"
      else if fl_lt res_dist (Fin (1 # 2)) then "AT_RESISTANCE"
      else if fl_lt sup_dist (Fin 2) then "NEAR_SUPPORT"
      else if fl_lt res_dist (Fin 2) then "NEAR_RESISTANCE"
      else "NEUTRAL"
  | _, _ => "NEUTRAL"
  end.

Definition default_strategies : list (string * bool) :=
  [("trend", true); ("support_resistance", true); ("candles", true);
   ("rsi", true)]%string.

Definition bullish_patterns : list string :=
  ["BULLISH_HAMMER"; "BULLISH_ENGULFING"; "MORNING_STAR";
   "THREE_WHITE_SOLDIERS"; "INVERTED_HAMMER"]%string.

Definition bearish_patterns : list string :=
  ["SHOOTING_STAR"; "BEARISH_ENGULFING"; "EVENING_STAR"]%string.

(** [strategies.get(key, False)] *)
Definition enabled (strategies : list (string * bool)) (key : string) : bool :=
  match lookup key strategies with
  | Some b => b
  | None => false
  end.

(** The four blocks of [generate_signal]; each takes and returns
    [score] and [reasons]. *)
Definition score_trend (strategies : list (string * bool)) (trend : string)
    (sr : Q * list string) : Q * list string :=
  let (score, reasons) := sr in
  if enabled strategies "trend" then
    if contains "UPTREND" trend then (score + 1, reasons ++ ["Uptrend"%string])
    else if contains "DOWNTREND" trend
         then (score - 1, reasons ++ ["Downtrend"%string])
    else (score, reasons)
  else (score, reasons).

Definition score_position (strategies : list (string * bool))
    (price_position : string) (sr : Q * list string) : Q * list string :=
  let (score, reasons) := sr in
  if enabled strategies "support_resistance" then
    if (price_position =? "AT_SUPPORT")%string
    then (score + 1, reasons ++ ["At support"%string])
    else if (price_position =? "NEAR_SUPPORT")%string
         then (score + (1 # 2), reasons ++ ["Near support"%string])
    else if (price_position =? "AT_RESISTANCE")%string
         then (score - 1, reasons ++ ["At resistance"%string])
    else (score, reasons)
  else (score, reasons).

Definition score_candle (strategies : list (string * bool))
    (candle_pattern : string) (sr : Q * list string) : Q * list string :=
  let (score, reasons) := sr in
  if enabled strategies "candles" then
    if in_list candle_pattern bullish_patterns
    then (score + 1, reasons ++ [candle_pattern])
    else if in_list candle_pattern bearish_patterns
         then (score - 1, reasons ++ [candle_pattern])
    else (score, reasons)
  else (score, reasons).

Definition score_rsi (strategies : list (string * bool)) (rsi : pyfloat)
    (sr : Q * list string) : Q * list string :=
  let (score, reasons) := sr in
  if enabled strategies "rsi" then
    if fl_lt rsi (Fin 35)
    then (score + (1 # 2), reasons ++ ["RSI oversold"%string])
    else if fl_gt rsi (Fin 65)
         then (score - (1 # 2), reasons ++ ["RSI overbought"%string])
    else (score, reasons)
  else (score, reasons).

Definition generate_signal (trend price_position candle_pattern : string)
    (rsi : pyfloat) (strategies : option (list (string * bool)))
    : string * Q * list string :=
  let strategies :=
    match strategies with
    | None => default_strategies
    | Some s => s
    end in
  let sr := (0, []) in
  let sr := score_trend strategies trend sr in
  let sr := score_position strategies price_position sr in
  let sr := score_candle strategies candle_pattern sr in
  let sr := score_rsi strategies rsi sr in
  let (score, reasons) := sr in
  if Qle_bool 2 score then ("BUY"%string, score, reasons)
  else if Qle_bool score (- (2)) then ("SELL"%string, score, reasons)
  else ("HOLD"%string, score, reasons).

(** *** Predicates used in the statements *)

(** One block moves the score by at most [w], and by nothing unless it
    adds its one reason. *)
Definition block_ok (w : Q) (before after : Q * list string) : Prop :=
  (snd after = snd before /\ fst after = fst before) \/
  (exists reason, snd after = snd before ++ [reason]) /\
  fst before - w <= fst after /\ fst after <= fst before + w.

(** The score and the reasons after the four blocks. *)
Definition scored (trend position pattern : string) (rsi : pyfloat)
    (strategies : list (string * bool)) : Q * list string :=
  score_rsi strategies rsi
    (score_candle strategies pattern
       (score_position strategies position
          (score_trend strategies trend (0, [])))).

End Scoring.

(** ** main.py: one pair, from the price frame to the notification *)

Module Bot.

Import Py PyMore Journal Analyzer Scoring.

(** [round(x, ndigits)] on a numpy float: NaN and the infinities round
    to themselves. *)
Definition fl_round (x : pyfloat) (ndigits : nat) : pyfloat :=
  match x with
  | Fin q => Fin (round q ndigits)
  | _ => x
  end.

(** The dict [signal_data] that [analyze_pair] returns, one field per
    key; [timestamp] is the clock and is left out. *)
Record SignalData := mkSignalData {
  sd_pair : string;
  sd_price : Q;
  sd_trend : string;
  sd_position : string;
  sd_support : list Q;
  sd_resistance : list Q;
  sd_candle_pattern : string;
  sd_rsi : pyfloat;
  sd_signal : string;
  sd_score : Q;
  sd_reasons : list string
}.

(** [analyze_pair]; [data] is what [get_price_data] returned. *)
Definition analyze_pair (pair_ : string) (data : option DataFrame)
    : Result (option SignalData) :=
  match data with
  | None => Ok None
  | Some data =>
      current_price <- iloc_neg (column close data) 1 ;;
      trend <- get_trend data 20 50 200 ;;
      sr_levels <- find_support_resistance (column close data) 5 ;;
      let position := get_price_position current_price sr_levels in
      candle <- get_candle_patterns data ;;
      let rsi := calculate_rsi (column close data) 14 in
      let '(signal, score, reasons) :=
        generate_signal (trend_name trend) position (pattern_name candle)
          rsi None in
      Ok (Some {| sd_pair := pair_;
                  sd_price := current_price;
                  sd_trend := trend_name trend;
                  sd_position := position;
                  sd_support := firstn 3 (support sr_levels);
                  sd_resistance := firstn 3 (resistance sr_levels);
                  sd_candle_pattern := pattern_name candle;
                  sd_rsi := fl_round rsi 1;
                  sd_signal := signal;
                  sd_score := score;
                  sd_reasons := reasons |})
  end.

Definition should_notify (last_signals : list (string * string))
    (pair_ signal : string) : bool :=
  let last_signal := lookup pair_ last_signals in
  if in_list signal ["BUY"; "SELL"]%string then true
  else if (signal =? "HOLD")%string
          && match last_signal with
             | Some s => in_list s ["BUY"; "SELL"]%string
             | None => false
             end
       then true
  else false.

(** The state [process_pair] works on: [self.last_signals] and the
    journal of [self.trader]. *)
Record BotState := mkBot {
  last_signals : list (string * string);
  journal : TradingJournal
}.

(** The entries of the result dict that are strings; the journal stores
    the dict with the trade and never reads it. *)
Definition signal_info_of (result : SignalData) : SignalInfo :=
  [("pair", sd_pair result); ("trend", sd_trend result);
   ("position", sd_position result);
   ("candle_pattern", sd_candle_pattern result);
   ("signal", sd_signal result)]%string.

(** What one call of [process_pair] did: the analysis it returns, whether
    [send_signal] was called and the id of the trade opened. *)
Record Processed := mkProcessed {
  result_of : option SignalData;
  notified : bool;
  opened : option string
}.

(** [process_pair] on the analysis [result] of [pair_]; the chart and
    the message are effects outside the state. *)
Definition process_result (virtual_trading : bool) (now : string)
    (st : BotState) (pair_ : string) (result : option SignalData)
    : Processed * BotState :=
  match result with
  | None => (mkProcessed None false None, st)
  | Some result =>
      let signal := sd_signal result in
      let send := should_notify (last_signals st) pair_ signal in
      let (trade_id, j) :=
        if virtual_trading
        then on_signal (journal st) now pair_ signal (sd_price result)
               (signal_info_of result)
        else (None, journal st) in
      (mkProcessed (Some result) send trade_id,
       {| last_signals := set_item pair_ signal (last_signals st);
          journal := j |})
  end.

Definition process_pair (virtual_trading : bool) (now : string)
    (st : BotState) (pair_ : string) (data : option DataFrame)
    : Result (Processed * BotState) :=
  result <- analyze_pair pair_ data ;;
  Ok (process_result virtual_trading now st pair_ result).

(** The loop of [run_analysis_cycle]: a pair whose processing raises is
    logged and skipped, the state staying as it was. *)
Definition run_analysis_cycle (virtual_trading : bool) (now : string)
    (st : BotState) (frames : list (string * option DataFrame))
    : list SignalData * BotState :=
  fold_left
    (fun (acc : list SignalData * BotState) pf =>
       let (results, st) := acc in
       match process_pair virtual_trading now st (fst pf) (snd pf) with
       | Ok (p, st') =>
           match result_of p with
           | Some r => (results ++ [r], st')
           | None => (results, st')
           end
       | Raise _ => (results, st)
       end)
    frames ([], st).

(** *** Predicates used in the statements *)

Definition rising (close : list Q) : Prop := Sorted.StronglySorted Qlt close.
Definition falling (close : list Q) : Prop :=
  Sorted.StronglySorted (fun a b => b < a) close.

(** [n] bars with no shadows, closing at [first], [first + step], ... *)
Definition staircase (first step : Q) (n : nat) : DataFrame :=
  map (fun k =>
         let p := Qred (first + inject_Z (Z.of_nat k) * step) in
         mkBar p p p p 0)
    (seq 0 n).

End Bot.

(** ** chart_generator.py: the RSI curve *)

Module Chart.

Import Py Analyzer.

(** The loop that fills [rsi_values] in [create_analysis_chart]: the
    RSI of every prefix [data['close'].iloc[:i+1]]. *)
Definition rsi_values (close : list Q) : list pyfloat :=
  map (fun i => calculate_rsi (firstn (i + 1) close) 14)
    (seq 0 (length close)).

End Chart.

(** ** app.py: the ledger of the web app *)

Module App.

Import Py PyMore.

(** One entry of [journal['trades']] as [open_trade] builds it. *)
Record Trade := mkTrade {
  id : string;
  pair : string;
  direction : string;
  entry_price : Q;
  entry_time : string;
  status : string;
  exit_price : option Q;
  exit_time : option string;
  pips : Q;
  pnl : Q
}.

(** The dict kept in journal.json; [next_id] is [None] when the file
    has no such key. *)
Record JournalData := mkJournalData {
  trades : list Trade;
  next_id : option nat
}.

(** The two files, [None] standing for a file that does not exist. *)
Record Disk := mkDisk {
  journal_file : option JournalData;
  balance_file : option Q
}.

Definition load_journal (d : Disk) : JournalData :=
  match journal_file d with
  | Some data => data
  | None => {| trades := []; next_id := Some 1%nat |}
  end.

Definition save_journal (d : Disk) (data : JournalData) : Disk :=
  {| journal_file := Some data; balance_file := balance_file d |}.

Definition load_balance (d : Disk) : Q :=
  match balance_file d with
  | Some b => b
  | None => 10000
  end.

Definition save_balance (d : Disk) (balance : Q) : Disk :=
  {| journal_file := journal_file d; balance_file := Some balance |}.

(** [journal['next_id']] raises [KeyError] on a file without the key;
    nothing is written then. *)
Definition open_trade (d : Disk) (now pair direction : string)
    (entry_price : Q) : Outcome (Trade * Disk) :=
  let journal := load_journal d in
  match next_id journal with
  | None => Raises "KeyError"
  | Some n =>
      let trade :=
        {| id := Journal.trade_id_of n;
           pair := pair;
           direction := direction;
           entry_price := entry_price;
           entry_time := now;
           status := "OPEN";
           exit_price := None;
           exit_time := None;
           pips := 0;
           pnl := 0 |} in
      Returns
        (trade,
         save_journal d
           {| trades := trades journal ++ [trade];
              next_id := Some (n + 1)%nat |})
  end.

Definition is_open (t : Trade) : bool := (status t =? "OPEN")%string.
Definition is_closed (t : Trade) : bool := (status t =? "CLOSED")%string.

(** The body of the [if] in [close_trade]: the trade after the update. *)
Definition close_fields (t : Trade) (now : string) (exit_price : Q) : Trade :=
  let pips' :=
    if (direction t =? "BUY")%string
    then Py.round ((exit_price - entry_price t) * 10000) 1
    else Py.round ((entry_price t - exit_price) * 10000) 1 in
  {| id := id t;
     pair := pair t;
     direction := direction t;
     entry_price := entry_price t;
     entry_time := entry_time t;
     status := "CLOSED";
     exit_price := Some exit_price;
     exit_time := Some now;
     pips := pips';
     pnl := Py.round (pips' * (1 # 10)) 2 |}.

(** The [for] loop of [close_trade]. *)
Fixpoint close_first (ts : list Trade) (trade_id now : string)
    (exit_price : Q) : option (Trade * list Trade) :=
  match ts with
  | [] => None
  | t :: rest =>
      if (id t =? trade_id)%string && is_open t then
        let t' := close_fields t now exit_price in
        Some (t', t' :: rest)
      else
        match close_first rest trade_id now exit_price with
        | Some (t', rest') => Some (t', t :: rest')
        | None => None
        end
  end.

Definition close_trade (d : Disk) (trade_id now : string) (exit_price : Q)
    : option Trade * Disk :=
  let journal := load_journal d in
  match close_first (trades journal) trade_id now exit_price with
  | Some (t', ts') =>
      let balance := load_balance d in
      let balance := balance + pnl t' in
      let d := save_balance d balance in
      (Some t',
       save_journal d {| trades := ts'; next_id := next_id journal |})
  | None => (None, d)
  end.

(** What [api_reset] writes. *)
Definition api_reset (d : Disk) : Disk :=
  save_balance (save_journal d {| trades := []; next_id := Some 1%nat |}) 10000.

(** The requests that change the files. *)
Inductive Op :=
| OpOpen (now pair direction : string) (entry_price : Q)
| OpClose (trade_id now : string) (exit_price : Q)
| OpReset.

Definition step (d : Disk) (op : Op) : Disk :=
  match op with
  | OpOpen now pair direction entry_price =>
      match open_trade d now pair direction entry_price with
      | Returns (_, d') => d'
      | Raises _ => d
      end
  | OpClose trade_id now exit_price =>
      snd (close_trade d trade_id now exit_price)
  | OpReset => api_reset d
  end.

Definition run (d : Disk) (ops : list Op) : Disk := fold_left step ops d.

(** A directory in which neither file exists yet. *)
Definition no_files : Disk := mkDisk None None.

End App.

(** ** config.py: the configuration tree *)

Module Config.

Import Py PyMore.

(** The values a configuration holds: the JSON scalars, the list of
    pairs, and dicts of values. *)
Local Unset Elimination Schemes.

Inductive Value :=
| VNone
| VBool (b : bool)
| VInt (n : Z)
| VStr (s : string)
| VStrs (items : list string)
| VDict (items : list (string * Value)).

Local Set Elimination Schemes.

(** [key.split('.')]: at least one piece, the pieces between the dots. *)
Fixpoint split_dot (key : string) : list string :=
  match key with
  | EmptyString => [EmptyString]
  | String c rest =>
      if Ascii.eqb c "."%char then EmptyString :: split_dot rest
      else
        match split_dot rest with
        | piece :: pieces => String c piece :: pieces
        | [] => [String c EmptyString]
        end
  end.

(** The loop of [get] over the pieces of the key. *)
Fixpoint get_path (value : Value) (keys : list string) (default : Value)
    : Value :=
  match keys with
  | [] => value
  | k :: rest =>
      match value with
      | VDict items =>
          match lookup k items with
          | Some v => get_path v rest default
          | None => default
          end
      | _ => default
      end
  end.

Definition get (_config : list (string * Value)) (key : string)
    (default : Value) : Value :=
  get_path (VDict _config) (split_dot key) default.

(** [set] below the dict [config]: the loop over [keys[:-1]], which
    makes the dicts that are missing, then the assignment to
    [keys[-1]].  On a value that is no dict both [k not in config] and
    the assignment raise [TypeError]; this happens before anything was
    changed, as a dict made on the way holds no value yet. *)
Fixpoint set_path (config : Value) (keys : list string) (value : Value)
    : Outcome Value :=
  match config with
  | VDict items =>
      match keys with
      | [] => Raises "IndexError"
      | [k] => Returns (VDict (set_item k value items))
      | k :: rest =>
          let child :=
            match lookup k items with
            | Some c => c
            | None => VDict []
            end in
          match set_path child rest value with
          | Returns child' => Returns (VDict (set_item k child' items))
          | Raises e => Raises e
          end
      end
  | _ => Raises "TypeError"
  end.

Definition set (_config : list (string * Value)) (key : string)
    (value : Value) : Outcome (list (string * Value)) :=
  match set_path (VDict _config) (split_dot key) value with
  | Returns (VDict items) => Returns items
  | Returns _ => Raises "TypeError"
  | Raises e => Raises e
  end.

(** [default.update(file_config)] in [_load_config]. *)
Definition update (default file_config : list (string * Value))
    : list (string * Value) :=
  fold_left (fun d kv => set_item (fst kv) (snd kv) d) file_config default.

End Config.

(** ** Python floats as binary64 *)

Module Py64.

Import Floats.

(** A Python float is an IEEE 754 binary64 value: [PrimFloat.float],
    with the kernel's correctly rounded [+], [-], [*] and [/]. *)

Definition of_Z (n : Z) : spec_float :=
  match n with
  | Z0 => S754_zero false
  | Zpos p => S754_finite false p 0
  | Zneg p => S754_finite true p 0
  end.

(** The double nearest to the rational [q], ties to even: what Python
    reads for a decimal literal, and what [strtod] returns. *)
Definition float_of_Q (q : Q) : float :=
  SF2Prim (SFdiv prec emax (of_Z (Qnum q)) (of_Z (Zpos (Qden q)))).

(** The exact value of a finite double. *)
Definition exact_value (x : float) : option Q :=
  match Prim2SF x with
  | S754_zero _ => Some 0
  | S754_finite s m e =>
      let v :=
        if (0 <=? e)%Z then inject_Z (Zpos m * 2 ^ e)
        else inject_Z (Zpos m) / inject_Z (2 ^ (- e)) in
      Some (if s then - v else v)
  | S754_infinity _ | S754_nan => None
  end.

(** [round(x, ndigits)] on a float: CPython rounds the exact value of
    [x] half to even at [ndigits] decimals and returns the double
    nearest to that decimal; an infinity or NaN is returned as it is. *)
Definition round (x : float) (ndigits : nat) : float :=
  match exact_value x with
  | Some q => float_of_Q (Py.round q ndigits)
  | None => x
  end.

(** [sum(xs)] on floats, as CPython computes it up to version 3.11: a
    left fold of [+] from the integer 0. *)
Definition sum (xs : list float) : float := fold_left PrimFloat.add xs 0%float.

(** [sum(xs)] on floats from CPython 3.12 on: the same fold, with the
    rounding errors collected in a compensation term (Neumaier) that is
    added at the end when it is finite and not zero. *)
Definition sum_compensated (xs : list float) : float :=
  let step (st : float * float) (x : float) :=
    let (f_result, c) := st in
    let t := (f_result + x)%float in
    (t,
     if (abs x <=? abs f_result)%float then (c + ((f_result - t) + x))%float
     else (c + ((x - t) + f_result))%float) in
  let (f_result, c) := fold_left step xs (0%float, 0%float) in
  if is_zero c || negb (is_finite c) then f_result else (f_result + c)%float.

End Py64.

(** ** trading_journal.py on binary64 floats: the balance *)

Module Journal64.

Import Floats Py64.

(** One entry of [self.trades['trades']], prices and amounts as the
    floats they are. *)
Record Trade := mkTrade {
  id : string;
  pair : string;
  direction : string;
  entry_price : float;
  entry_time : string;
  lot_size : float;
  signal_info : Journal.SignalInfo;
  status : string;
  exit_price : option float;
  exit_time : option string;
  exit_reason : option string;
  pips : float;
  pnl : float;
  notes : string
}.

Record TradingJournal := mkJournal {
  trades : list Trade;
  balance : float;
  trade_counter : nat
}.

(** [__init__] when neither file exists. *)
Definition fresh (balance : float) : TradingJournal :=
  {| trades := []; balance := balance; trade_counter := 1 + 1 |}.

Definition is_open (t : Trade) : bool := (status t =? "OPEN")%string.
Definition is_closed (t : Trade) : bool := (status t =? "CLOSED")%string.

Definition open_trade (j : TradingJournal) (now : string)
    (pair direction : string) (entry_price : float)
    (signal_info : Journal.SignalInfo) (lot_size : float)
    : string * TradingJournal :=
  let trade_id := Journal.trade_id_of (trade_counter j) in
  let trade :=
    {| id := trade_id;
       pair := pair;
       direction := direction;
       entry_price := entry_price;
       entry_time := now;
       lot_size := lot_size;
       signal_info := signal_info;
       status := "OPEN";
       exit_price := None;
       exit_time := None;
       exit_reason := None;
       pips := 0;
       pnl := 0;
       notes := EmptyString |} in
  (trade_id,
   {| trades := trades j ++ [trade];
      balance := balance j;
      trade_counter := trade_counter j + 1 |}).

(** The body of the [if] in [close_trade]: each [-] and [*] is one
    rounded binary64 operation, in the order Python evaluates them. *)
Definition close_fields (t : Trade) (now : string) (exit_price : float)
    (reason : string) : Trade :=
  let pips' :=
    if (direction t =? "BUY")%string
    then round ((exit_price - entry_price t) * 10000) 1
    else round ((entry_price t - exit_price) * 10000) 1 in
  {| id := id t;
     pair := pair t;
     direction := direction t;
     entry_price := entry_price t;
     entry_time := entry_time t;
     lot_size := lot_size t;
     signal_info := signal_info t;
     status := "CLOSED";
     exit_price := Some exit_price;
     exit_time := Some now;
     exit_reason := Some reason;
     pips := pips';
     pnl := round (pips' * lot_size t * 10) 2;
     notes := notes t |}.

Fixpoint close_first (ts : list Trade) (trade_id now : string)
    (exit_price : float) (reason : string) : option (Trade * list Trade) :=
  match ts with
  | [] => None
  | t :: rest =>
      if (id t =? trade_id)%string && is_open t then
        let t' := close_fields t now exit_price reason in
        Some (t', t' :: rest)
      else
        match close_first rest trade_id now exit_price reason with
        | Some (t', rest') => Some (t', t :: rest')
        | None => None
        end
  end.

(** [self.balance += trade['pnl']] is one rounded addition. *)
Definition close_trade (j : TradingJournal) (trade_id now : string)
    (exit_price : float) (reason : string) : option Trade * TradingJournal :=
  match close_first (trades j) trade_id now exit_price reason with
  | Some (t', ts') =>
      (Some t',
       {| trades := ts';
          balance := balance j + pnl t';
          trade_counter := trade_counter j |})
  | None => (None, j)
  end.

Definition get_closed_trades (j : TradingJournal) : list Trade :=
  filter is_closed (trades j).

Definition reset (j : TradingJournal) (new_balance : float) : TradingJournal :=
  {| trades := [];
     balance := new_balance;
     trade_counter := trade_counter j |}.

Inductive Op :=
| OpOpen (now pair direction : string) (entry_price : float)
    (signal_info : Journal.SignalInfo) (lot_size : float)
| OpClose (trade_id now : string) (exit_price : float) (reason : string)
| OpReset (new_balance : float).

Definition step (j : TradingJournal) (op : Op) : TradingJournal :=
  match op with
  | OpOpen now p d e i l => snd (open_trade j now p d e i l)
  | OpClose tid now x r => snd (close_trade j tid now x r)
  | OpReset b => reset j b
  end.

Definition run (j : TradingJournal) (ops : list Op) : TradingJournal :=
  fold_left step ops j.

(** The initial balance, or that of the most recent reset. *)
Definition base_balance (b0 : float) (ops : list Op) : float :=
  fold_left (fun b op => match op with OpReset b' => b' | _ => b end) ops b0.

(** *** Used in the statements *)

(** The journal together with the [pnl] values its closes have added
    to the balance since the last reset, oldest first. *)
Definition track (st : TradingJournal * list float) (op : Op)
    : TradingJournal * list float :=
  let (j, added) := st in
  (step j op,
   match op with
   | OpOpen _ _ _ _ _ _ => added
   | OpClose tid now x r =>
       match fst (close_trade j tid now x r) with
       | Some t => added ++ [pnl t]
       | None => added
       end
   | OpReset _ => []
   end).

Definition realised (j : TradingJournal) (ops : list Op) : list float :=
  snd (fold_left track ops (j, [])).

(** Two EURUSD BUY trades of 0.01 lot entered at 1.1 and closed one and
    two pips higher. *)
Definition one_and_two_pips : list Op :=
  [OpOpen "t0" "EURUSD" "BUY" (float_of_Q (11 # 10)) [] (float_of_Q (1 # 100));
   OpOpen "t1" "EURUSD" "BUY" (float_of_Q (11 # 10)) [] (float_of_Q (1 # 100));
   OpClose "TR0002" "t2" (float_of_Q (11001 # 10000)) "TP";
   OpClose "TR0003" "t3" (float_of_Q (11002 # 10000)) "TP"].

End Journal64.

(** * Properties of the Python numerics *)

Module PyFacts.

Lemma Qltb_lt (a b : Q) : Py.Qltb a b = true <-> a < b.
Proof.
  unfold Py.Qltb. rewrite negb_true_iff.
  destruct (Qle_bool b a) eqn:E.
  - apply Qle_bool_iff in E. split; [discriminate | intro H; exfalso; lra].
  - split; [intros _ | reflexivity].
    destruct (Qlt_le_dec a b) as [H | H]; [exact H |].
    apply Qle_bool_iff in H. congruence.
Qed.

Lemma Qltb_ge (a b : Q) : Py.Qltb a b = false <-> b <= a.
Proof.
  unfold Py.Qltb. rewrite negb_false_iff. apply Qle_bool_iff.
Qed.

End PyFacts.

(** * Properties of the journal *)

Module JournalFacts.

Import Journal PyFacts.

Lemma is_open_not_closed (t : Trade) : is_open t = true -> is_closed t = false.
Proof.
  unfold is_open, is_closed. intro H. apply String.eqb_eq in H.
  rewrite H. reflexivity.
Qed.

Lemma close_trade_none j tid now x r :
  fst (close_trade j tid now x r) = None -> snd (close_trade j tid now x r) = j.
Proof.
  unfold close_trade.
  destruct (close_first (trades j) tid now x r) as [[t' ts'] |]; simpl.
  - discriminate.
  - reflexivity.
Qed.

(** *** Trade identifiers *)

Lemma of_uint_pad_zeros (k : nat) (d : Decimal.uint) :
  Nat.of_uint (pad_zeros k d) = Nat.of_uint d.
Proof.
  induction k as [| k IH]; simpl.
  - reflexivity.
  - exact IH.
Qed.

Lemma format_04d_inj (n m : nat) : format_04d n = format_04d m -> n = m.
Proof.
  unfold format_04d. intro H.
  apply (f_equal DecimalString.NilEmpty.uint_of_string) in H.
  rewrite !DecimalString.NilEmpty.usu in H. injection H as H.
  apply (f_equal Nat.of_uint) in H.
  rewrite !of_uint_pad_zeros, !DecimalNat.Unsigned.of_to in H. exact H.
Qed.

Lemma trade_id_of_inj (n m : nat) : trade_id_of n = trade_id_of m -> n = m.
Proof.
  unfold trade_id_of. simpl. intro H. injection H as H.
  apply format_04d_inj, H.
Qed.

(** *** What [close_trade] does to the list *)

Lemma close_first_split ts tid now x r t' ts' :
  close_first ts tid now x r = Some (t', ts') ->
  exists l1 u l2,
    ts = l1 ++ u :: l2 /\ ts' = l1 ++ t' :: l2 /\
    t' = close_fields u now x r /\ id u = tid /\ is_open u = true.
Proof.
  revert ts'. induction ts as [| v ts IH]; intros ts' H; simpl in H.
  - discriminate.
  - destruct ((id v =? tid)%string && is_open v) eqn:E.
    + injection H as <- <-. apply andb_prop in E as [Hid Ho].
      apply String.eqb_eq in Hid.
      exists [], v, ts. repeat split; auto.
    + destruct (close_first ts tid now x r) as [[c rest'] |]; [| discriminate].
      injection H as <- <-.
      destruct (IH rest' eq_refl) as (l1 & u & l2 & -> & -> & Hc & Hid & Ho).
      exists (v :: l1), u, l2. repeat split; auto.
Qed.

Lemma close_first_found ts tid now x r u :
  In u ts -> id u = tid -> is_open u = true ->
  exists t' ts', close_first ts tid now x r = Some (t', ts').
Proof.
  intros Hin Hid Ho. induction ts as [| v ts IH]; simpl.
  - destruct Hin.
  - destruct ((id v =? tid)%string && is_open v) eqn:E.
    + eauto.
    + destruct Hin as [-> | Hin].
      * rewrite Ho, Hid, String.eqb_refl in E. discriminate.
      * destruct (IH Hin) as (t' & ts' & ->). eauto.
Qed.

Lemma close_first_none ts tid now x r :
  (forall t, In t ts -> (id t =? tid)%string && is_open t = false) ->
  close_first ts tid now x r = None.
Proof.
  induction ts as [| v ts IH]; intro H; simpl.
  - reflexivity.
  - rewrite (H v (or_introl eq_refl)), IH; [reflexivity |].
    intros t Ht. apply H. right. exact Ht.
Qed.

Lemma close_first_app_last ts u tid now x r :
  (forall t, In t ts -> (id t =? tid)%string && is_open t = false) ->
  id u = tid -> is_open u = true ->
  close_first (ts ++ [u]) tid now x r
  = Some (close_fields u now x r, ts ++ [close_fields u now x r]).
Proof.
  intros H Hid Ho. induction ts as [| v ts IH]; simpl.
  - rewrite Hid, String.eqb_refl, Ho. reflexivity.
  - rewrite (H v (or_introl eq_refl)), IH; [reflexivity |].
    intros t Ht. apply H. right. exact Ht.
Qed.

Lemma close_first_ids ts tid now x r t' ts' :
  close_first ts tid now x r = Some (t', ts') -> map id ts' = map id ts.
Proof.
  intro H. apply close_first_split in H
    as (l1 & u & l2 & -> & -> & -> & _ & _).
  rewrite !map_app. reflexivity.
Qed.

Lemma close_trade_ids j tid now x r :
  map id (trades (snd (close_trade j tid now x r))) = map id (trades j).
Proof.
  unfold close_trade.
  destruct (close_first (trades j) tid now x r) as [[t' ts'] |] eqn:E; simpl.
  - apply (close_first_ids _ _ _ _ _ _ _ E).
  - reflexivity.
Qed.

Lemma is_open_close_fields u now x r : is_open (close_fields u now x r) = false.
Proof. reflexivity. Qed.

Lemma close_trade_last ts u b n tid now x r :
  (forall t, In t ts -> (id t =? tid)%string && is_open t = false) ->
  id u = tid -> is_open u = true ->
  close_trade {| trades := ts ++ [u]; balance := b; trade_counter := n |}
    tid now x r
  = (Some (close_fields u now x r),
     {| trades := ts ++ [close_fields u now x r];
        balance := b + pnl (close_fields u now x r);
        trade_counter := n |}).
Proof.
  intros H Hid Ho. unfold close_trade. cbn [trades balance trade_counter].
  rewrite (close_first_app_last _ _ _ now x r H Hid Ho). reflexivity.
Qed.

(** Every journal reached from a fresh one has its next id free. *)
Lemma ids_below_counter (b0 : Q) (ops : list Op) :
  Forall (fun i => exists k, (k < trade_counter (run (init None None b0) ops))%nat
                             /\ i = trade_id_of k)
    (map id (trades (run (init None None b0) ops))).
Proof.
  unfold run. rewrite <- (rev_involutive ops).
  induction (List.rev ops) as [| op rops IH]; simpl.
  - constructor.
  - rewrite fold_left_app. simpl.
    set (j := fold_left step (List.rev rops) (init None None b0)) in *.
    destruct op as [now p d e i l | tid now x r | b]; simpl.
    + rewrite map_app. apply Forall_app. split.
      * apply Forall_impl with (2 := IH).
        intros i' (k & Hk & ->). exists k. split; [lia | reflexivity].
      * constructor; [| constructor].
        exists (trade_counter j). split; [lia | reflexivity].
    + rewrite close_trade_ids.
      replace (trade_counter (snd (close_trade j tid now x r)))
        with (trade_counter j); [exact IH |].
      unfold close_trade.
      destruct (close_first (trades j) tid now x r) as [[t' ts'] |];
        reflexivity.
    + constructor.
Qed.

Lemma next_id_free_reachable (b0 : Q) (ops : list Op) :
  next_id_free (run (init None None b0) ops) = true.
Proof.
  pose proof (ids_below_counter b0 ops) as H.
  unfold next_id_free. apply forallb_forall. intros t Ht.
  rewrite Forall_forall in H.
  destruct (H (id t) (in_map id _ _ Ht)) as (k & Hk & Hid).
  apply negb_true_iff, andb_false_intro1, String.eqb_neq.
  rewrite Hid. intro Heq. apply trade_id_of_inj in Heq. lia.
Qed.

(** C2. Ledger round trip: opening a BUY trade on EURUSD at 1.1000
    with lot size 0.01 and closing it at 1.1050 yields [pips = 50] and
    [pnl = 5] and raises the balance by exactly 5; a second close on the
    same id finds no trade (the code returns [None]) and leaves the
    journal, balance and every trade record, unchanged.  The journal is
    any one in which no OPEN trade already carries the id about to be
    assigned. *)
Theorem round_trip (j : TradingJournal) (now1 now2 reason : string)
    (info : SignalInfo) :
  next_id_free j = true ->
  let opened := open_trade j now1 "EURUSD" "BUY" (11000 # 10000) info (1 # 100) in
  let closed := close_trade (snd opened) (fst opened) now2 (11050 # 10000) reason in
  (exists t,
     fst closed = Some t /\ id t = fst opened /\ status t = "CLOSED"%string /\
     pips t = 50 /\ pnl t = 5) /\
  balance (snd closed) = balance j + 5 /\
  forall (now3 reason' : string) (x : Q),
    close_trade (snd closed) (fst opened) now3 x reason' = (None, snd closed).
Proof.
  intros Hfree opened closed.
  assert (Hskip : forall t, In t (trades j) ->
            (id t =? trade_id_of (trade_counter j))%string && is_open t = false).
  { unfold next_id_free in Hfree. rewrite forallb_forall in Hfree.
    intros t Ht. apply negb_true_iff. apply Hfree, Ht. }
  unfold closed, opened, open_trade. cbn [fst snd].
  rewrite close_trade_last by (exact Hskip || reflexivity).
  cbn [fst snd trades balance]. split; [| split].
  - eexists. split; [reflexivity |]. repeat split; reflexivity.
  - reflexivity.
  - intros now3 reason' x. unfold close_trade. cbn [trades].
    rewrite close_first_none; [reflexivity |].
    intros t Ht. apply in_app_or in Ht as [Ht | [<- | []]].
    + apply Hskip, Ht.
    + rewrite is_open_close_fields. apply andb_false_r.
Qed.

Lemma round_trip_witness :
  let j := init None None 10000 in
  let opened := open_trade j "t0" "EURUSD" "BUY" (11000 # 10000) [] (1 # 100) in
  let closed := close_trade (snd opened) (fst opened) "t1" (11050 # 10000) "TP" in
  (exists t,
     fst closed = Some t /\ id t = fst opened /\ status t = "CLOSED"%string /\
     pips t = 50 /\ pnl t = 5) /\
  balance (snd closed) = balance j + 5 /\
  forall (now3 reason' : string) (x : Q),
    close_trade (snd closed) (fst opened) now3 x reason' = (None, snd closed).
Proof.
  apply (round_trip (init None None 10000) "t0" "t1" "TP" []). reflexivity.
Defined.

(** C2 as stated fails: the second close raises nothing.  On the trade
    of the round trip it returns [None], the result [close_trade] has
    for every id that names no OPEN trade, and the caller goes on. *)
Lemma second_close_returns_none :
  let j := init None None 10000 in
  let opened := open_trade j "t0" "EURUSD" "BUY" (11000 # 10000) [] (1 # 100) in
  let closed := close_trade (snd opened) (fst opened) "t1" (11050 # 10000) "TP" in
  let again := close_trade (snd closed) (fst opened) "t2" (11050 # 10000) "TP" in
  fst opened = "TR0002"%string /\
  map status (trades (snd closed)) = ["CLOSED"%string] /\
  fst again = None /\ snd again = snd closed.
Proof. repeat split; reflexivity. Qed.

Lemma on_signal_buy j now p price info :
  on_signal j now p "BUY" price info
  = reverse_and_open j now p "BUY" "SELL" price info.
Proof. reflexivity. Qed.

Lemma on_signal_sell j now p price info :
  on_signal j now p "SELL" price info
  = reverse_and_open j now p "SELL" "BUY" price info.
Proof. reflexivity. Qed.

Lemma on_signal_hold j now p price info :
  on_signal j now p "HOLD" price info = (None, j).
Proof. reflexivity. Qed.

Lemma on_signal_other j now p sig price info :
  sig <> "HOLD"%string -> sig <> "BUY"%string -> sig <> "SELL"%string ->
  on_signal j now p sig price info = (None, j).
Proof.
  intros H1 H2 H3. unfold on_signal.
  apply String.eqb_neq in H1, H2, H3. rewrite H1, H2, H3. reflexivity.
Qed.

Lemma fold_close_ids (f : Trade -> bool) now price (l : list Trade) :
  forall j,
    map id (trades
      (fold_left
         (fun j' t =>
            if f t then snd (close_trade j' (id t) now price "REVERSED") else j')
         l j))
    = map id (trades j).
Proof.
  induction l as [| t l IH]; intro j; simpl.
  - reflexivity.
  - rewrite IH. destruct (f t); [apply close_trade_ids | reflexivity].
Qed.

(** C3, as the code has it.  [open_trade] never refuses: it appends a
    new OPEN trade with the id it returns, whatever the journal holds.
    The duplicate is refused one layer up: [on_signal] with BUY or SELL
    on a pair that has an OPEN trade in that direction returns no id and
    adds no trade. *)
Theorem duplicate_open_refused_by_policy_only :
  (forall j now p d e info l,
     exists t,
       trades (snd (open_trade j now p d e info l)) = trades j ++ [t] /\
       id t = fst (open_trade j now p d e info l) /\
       pair t = p /\ direction t = d /\ is_open t = true) /\
  (forall j now p sig price info,
     sig = "BUY"%string \/ sig = "SELL"%string ->
     (exists t, In t (get_open_trades j) /\ pair t = p /\ direction t = sig) ->
     fst (on_signal j now p sig price info) = None /\
     map id (trades (snd (on_signal j now p sig price info)))
     = map id (trades j)).
Proof.
  split.
  - intros. eexists. simpl. repeat split; reflexivity.
  - intros j now p sig price info Hsig (t & Hin & Hp & Hd).
    assert (Hex : existsb (fun u => (direction u =? sig)%string) (open_on p j)
                  = true).
    { apply existsb_exists. exists t. split.
      - unfold open_on. apply filter_In. split; [exact Hin |].
        apply String.eqb_eq, Hp.
      - apply String.eqb_eq, Hd. }
    destruct Hsig as [-> | ->].
    + rewrite on_signal_buy. unfold reverse_and_open. rewrite Hex. simpl.
      split; [reflexivity | apply fold_close_ids].
    + rewrite on_signal_sell. unfold reverse_and_open. rewrite Hex. simpl.
      split; [reflexivity | apply fold_close_ids].
Qed.

Lemma duplicate_open_refused_by_policy_only_witness :
  fst (on_signal journal_with_open_buy "t1" "EURUSD" "BUY" (12 # 10) []) = None /\
  map id (trades (snd (on_signal journal_with_open_buy "t1" "EURUSD" "BUY" (12 # 10) [])))
  = map id (trades journal_with_open_buy).
Proof.
  apply (proj2 duplicate_open_refused_by_policy_only).
  - left. reflexivity.
  - eexists. split; [left; reflexivity | split; reflexivity].
Defined.

(** C3 as stated fails: on a journal with an OPEN BUY trade on EURUSD,
    [open_trade] for EURUSD BUY returns a new id and the journal then
    holds two OPEN BUY trades on EURUSD. *)
Lemma open_trade_accepts_duplicate :
  let j := journal_with_open_buy in
  let r := open_trade j "t1" "EURUSD" "BUY" (12 # 10) [] (1 # 100) in
  (exists t, In t (get_open_trades j) /\
             pair t = "EURUSD"%string /\ direction t = "BUY"%string) /\
  fst r = "TR0003"%string /\
  length (trades (snd r)) = S (length (trades j)) /\
  map (fun t => (id t, pair t, direction t)) (get_open_trades (snd r))
  = [("TR0002", "EURUSD", "BUY"); ("TR0003", "EURUSD", "BUY")]%string.
Proof.
  cbv zeta. split; [| repeat split].
  eexists. split; [left; reflexivity | split; reflexivity].
Qed.

(** *** The OPEN trades after [open_trade] and [close_trade] *)

Lemma open_trade_open_list j now p d e info l :
  get_open_trades (snd (open_trade j now p d e info l))
  = get_open_trades j
    ++ [new_trade (trade_id_of (trade_counter j)) now p d e info l].
Proof.
  unfold get_open_trades, open_trade. simpl. rewrite filter_app. reflexivity.
Qed.

Lemma close_trade_open_split j tid now x r t' :
  fst (close_trade j tid now x r) = Some t' ->
  exists A u B,
    get_open_trades j = A ++ u :: B /\
    get_open_trades (snd (close_trade j tid now x r)) = A ++ B /\
    id u = tid /\ t' = close_fields u now x r /\
    trade_counter (snd (close_trade j tid now x r)) = trade_counter j.
Proof.
  unfold close_trade, get_open_trades.
  destruct (close_first (trades j) tid now x r) as [[c ts'] |] eqn:E; simpl;
    [| discriminate].
  intro H. injection H as ->.
  apply close_first_split in E as (l1 & u & l2 & E1 & -> & -> & Hid & Ho).
  exists (filter is_open l1), u, (filter is_open l2).
  rewrite E1, !filter_app. simpl. rewrite Ho. repeat split; auto.
Qed.

Lemma close_trade_found j tid now x r u :
  In u (get_open_trades j) -> id u = tid ->
  exists t', fst (close_trade j tid now x r) = Some t'.
Proof.
  unfold get_open_trades. intros Hin Hid. apply filter_In in Hin as [Hin Ho].
  destruct (close_first_found _ _ now x r _ Hin Hid Ho) as (t' & ts' & E).
  unfold close_trade. rewrite E. simpl. eauto.
Qed.

Lemma open_ok_no_open j : get_open_trades j = [] -> open_ok j.
Proof.
  intro H. split; unfold open_on; rewrite H; simpl; intros;
    try contradiction; auto.
Qed.

Lemma filter_length_app_mid {A} (f : A -> bool) (l1 l2 : list A) (u : A) :
  (length (filter f (l1 ++ l2)) <= length (filter f (l1 ++ u :: l2)))%nat.
Proof.
  rewrite !filter_app, !length_app. simpl. destruct (f u); simpl; lia.
Qed.

Lemma close_trade_ok j tid now x r :
  open_ok j -> open_ok (snd (close_trade j tid now x r)).
Proof.
  intro Hok. destruct (fst (close_trade j tid now x r)) as [t' |] eqn:E.
  - destruct (close_trade_open_split _ _ _ _ _ _ E)
      as (A & u & B & HA & HB & _ & _ & Hc).
    assert (Hsub : forall t, In t (A ++ B) -> In t (get_open_trades j)).
    { intros t Ht. rewrite HA. apply in_app_or in Ht as [Ht | Ht];
        apply in_or_app; [left | right; right]; exact Ht. }
    destruct Hok as [H1 H2 H3 H4]. split.
    + intros t Ht. rewrite Hc. rewrite HB in Ht. auto.
    + intros t1 t2 Ht1 Ht2. rewrite HB in Ht1, Ht2. auto.
    + intros t Ht. rewrite HB in Ht. auto.
    + intro p. specialize (H4 p). unfold open_on in *. rewrite HB.
      rewrite HA in H4.
      pose proof (filter_length_app_mid (fun t => (pair t =? p)%string) A B u).
      lia.
  - rewrite (close_trade_none _ _ _ _ _ E). exact Hok.
Qed.

Lemma open_trade_ok j now p d e info l :
  open_ok j -> d = "BUY"%string \/ d = "SELL"%string -> open_on p j = [] ->
  open_ok (snd (open_trade j now p d e info l)).
Proof.
  intros [H1 H2 H3 H4] Hd Hp.
  assert (Hnew : forall t, In t (get_open_trades j) ->
            id t <> trade_id_of (trade_counter j)).
  { intros t Ht Heq. destruct (H1 t Ht) as (k & Hk & Hid).
    rewrite Hid in Heq. apply trade_id_of_inj in Heq. lia. }
  split.
  - intros t Ht. rewrite open_trade_open_list in Ht.
    apply in_app_or in Ht as [Ht | [<- | []]]; simpl.
    + destruct (H1 t Ht) as (k & Hk & Hid). exists k. split; [lia | exact Hid].
    + exists (trade_counter j). split; [lia | reflexivity].
  - intros t1 t2 Ht1 Ht2 Hid. rewrite open_trade_open_list in Ht1, Ht2.
    apply in_app_or in Ht1 as [Ht1 | [<- | []]];
      apply in_app_or in Ht2 as [Ht2 | [<- | []]]; simpl in Hid.
    + auto.
    + exfalso. apply (Hnew t1 Ht1 Hid).
    + exfalso. apply (Hnew t2 Ht2). symmetry. exact Hid.
    + reflexivity.
  - intros t Ht. rewrite open_trade_open_list in Ht.
    apply in_app_or in Ht as [Ht | [<- | []]]; simpl; auto.
  - intro q. unfold open_on in *. rewrite open_trade_open_list, filter_app.
    rewrite length_app. simpl. destruct (String.eqb_spec p q) as [<- | Hne].
    + rewrite Hp. simpl. lia.
    + specialize (H4 q). simpl. lia.
Qed.

Lemma open_on_singleton j p t :
  open_ok j -> In t (get_open_trades j) -> pair t = p -> open_on p j = [t].
Proof.
  intros Hok Hin Hp.
  assert (Hin' : In t (open_on p j)).
  { unfold open_on. apply filter_In. split; [exact Hin |].
    apply String.eqb_eq, Hp. }
  pose proof (ok_one_per_pair j Hok p) as Hlen.
  destruct (open_on p j) as [| u [| v rest]]; simpl in *.
  - contradiction.
  - destruct Hin' as [-> | []]. reflexivity.
  - lia.
Qed.

(** Closing the one OPEN trade of a pair leaves the pair without one. *)
Lemma close_only_open j now x r t :
  open_ok j -> open_on (pair t) j = [t] ->
  fst (close_trade j (id t) now x r) = Some (close_fields t now x r) /\
  open_on (pair t) (snd (close_trade j (id t) now x r)) = [].
Proof.
  intros Hok Hp.
  assert (Hin : In t (get_open_trades j)).
  { assert (H : In t (open_on (pair t) j)) by (rewrite Hp; left; reflexivity).
    unfold open_on in H. apply filter_In in H. tauto. }
  destruct (close_trade_found j (id t) now x r t Hin eq_refl) as (t' & E).
  destruct (close_trade_open_split _ _ _ _ _ _ E)
    as (A & u & B & HA & HB & Hid & Ht' & _).
  assert (Hu : u = t).
  { apply (ok_unique j Hok); [| exact Hin | exact Hid].
    rewrite HA. apply in_or_app. right. left. reflexivity. }
  subst u. split.
  - rewrite E, Ht'. reflexivity.
  - unfold open_on in *. rewrite HB. rewrite HA in Hp.
    rewrite filter_app in *. simpl in Hp. rewrite String.eqb_refl in Hp.
    destruct (filter (fun t0 => (pair t0 =? pair t)%string) A) as [| a A'].
    + simpl in Hp. injection Hp as Hp. rewrite Hp. reflexivity.
    + simpl in Hp. injection Hp as _ Hp.
      destruct A'; discriminate Hp.
Qed.

Lemma reverse_and_open_ok j now p same opposite price info :
  open_ok j ->
  (same = "BUY"%string /\ opposite = "SELL"%string) \/
  (same = "SELL"%string /\ opposite = "BUY"%string) ->
  open_ok (snd (reverse_and_open j now p same opposite price info)).
Proof.
  intros Hok Hso.
  assert (Hne : (same =? opposite)%string = false).
  { destruct Hso as [[-> ->] | [-> ->]]; reflexivity. }
  assert (Hsame : same = "BUY"%string \/ same = "SELL"%string)
    by (destruct Hso as [[-> _] | [-> _]]; auto).
  unfold reverse_and_open.
  destruct (open_on p j) as [| t [| t2 rest]] eqn:Ep.
  - simpl. apply open_trade_ok; assumption.
  - assert (Hin : In t (open_on p j)) by (rewrite Ep; left; reflexivity).
    unfold open_on in Hin. apply filter_In in Hin as [Hin Hpt].
    apply String.eqb_eq in Hpt. subst p.
    assert (Hdir : direction t = same \/ direction t = opposite).
    { destruct (ok_direction j Hok t Hin) as [Hd | Hd];
        destruct Hso as [[-> ->] | [-> ->]]; auto. }
    simpl. destruct Hdir as [Hd | Hd]; rewrite Hd.
    + rewrite Hne, String.eqb_refl. simpl. exact Hok.
    + rewrite String.eqb_refl. rewrite String.eqb_sym, Hne. simpl.
      apply open_trade_ok.
      * apply close_trade_ok, Hok.
      * exact Hsame.
      * apply (close_only_open j now price "REVERSED" t Hok Ep).
  - pose proof (ok_one_per_pair j Hok p) as Hlen. rewrite Ep in Hlen.
    simpl in Hlen. lia.
Qed.

Lemma on_signal_ok j now p sig price info :
  open_ok j -> open_ok (snd (on_signal j now p sig price info)).
Proof.
  intro Hok.
  destruct (String.eqb_spec sig "BUY") as [-> | Hb].
  { rewrite on_signal_buy. apply reverse_and_open_ok; auto. }
  destruct (String.eqb_spec sig "SELL") as [-> | Hs].
  { rewrite on_signal_sell. apply reverse_and_open_ok; auto. }
  destruct (String.eqb_spec sig "HOLD") as [-> | Hh].
  { exact Hok. }
  rewrite on_signal_other by assumption. exact Hok.
Qed.

Lemma on_signals_ok (calls : list SignalCall) :
  forall j, open_ok j -> open_ok (on_signals j calls).
Proof.
  induction calls as [| c calls IH]; intros j Hok.
  - exact Hok.
  - unfold on_signals. simpl. apply IH. apply on_signal_ok, Hok.
Qed.

(** C4. VirtualTrader reversal invariant: after any trace of
    [on_signal] calls from a journal with no OPEN trade, every pair has
    at most one OPEN trade; a HOLD signal changes nothing; a BUY or
    SELL signal on a pair without OPEN trade opens one, which is then
    the OPEN trade of the pair; and a SELL signal on a pair with an
    OPEN BUY trade [t] (a BUY signal on one with an OPEN SELL) is
    exactly [close_trade] of [t] with reason REVERSED followed by
    [open_trade] in the new direction, after which the new trade is the
    only OPEN trade of the pair. *)
Theorem reversal_invariant (j0 : TradingJournal) (calls : list SignalCall) :
  get_open_trades j0 = [] ->
  let j := on_signals j0 calls in
  (forall p, (length (open_on p j) <= 1)%nat) /\
  (forall now p price info, on_signal j now p "HOLD" price info = (None, j)) /\
  (forall now p sig price info,
     sig = "BUY"%string \/ sig = "SELL"%string -> open_on p j = [] ->
     let r := on_signal j now p sig price info in
     fst r = Some (trade_id_of (trade_counter j)) /\
     snd r = snd (open_trade j now p sig price info (1 # 100)) /\
     open_on p (snd r)
     = [new_trade (trade_id_of (trade_counter j)) now p sig price info
          (1 # 100)]) /\
  (forall now p sig opp price info t,
     sig = "SELL"%string /\ opp = "BUY"%string \/
     sig = "BUY"%string /\ opp = "SELL"%string ->
     In t (get_open_trades j) -> pair t = p -> direction t = opp ->
     let closing := close_trade j (id t) now price "REVERSED" in
     let opening := open_trade (snd closing) now p sig price info (1 # 100) in
     fst closing = Some (close_fields t now price "REVERSED") /\
     on_signal j now p sig price info = (Some (fst opening), snd opening) /\
     open_on p (snd opening)
     = [new_trade (fst opening) now p sig price info (1 # 100)]).
Proof.
  intros H0 j.
  assert (Hok : open_ok j) by (apply on_signals_ok, open_ok_no_open, H0).
  split; [apply (ok_one_per_pair j Hok) | split; [reflexivity | split]].
  - intros now p sig price info Hsig Hnone r.
    assert (Hr : r = (Some (trade_id_of (trade_counter j)),
                      snd (open_trade j now p sig price info (1 # 100)))).
    { unfold r. destruct Hsig as [-> | ->].
      - rewrite on_signal_buy. unfold reverse_and_open. rewrite Hnone.
        reflexivity.
      - rewrite on_signal_sell. unfold reverse_and_open. rewrite Hnone.
        reflexivity. }
    rewrite Hr. cbn [fst snd]. split; [reflexivity | split; [reflexivity |]].
    unfold open_on. rewrite open_trade_open_list, filter_app.
    fold (open_on p j). rewrite Hnone. cbn [app filter new_trade pair].
    rewrite String.eqb_refl. reflexivity.
  - intros now p sig opp price info t Hsig Hin Hp Hd closing opening.
    pose proof (open_on_singleton j p t Hok Hin Hp) as Ep. subst p.
    destruct (close_only_open j now price "REVERSED" t Hok Ep) as [Hc Hnone].
    split; [exact Hc | split].
    + destruct Hsig as [[-> ->] | [-> ->]].
      * rewrite on_signal_sell. unfold reverse_and_open. rewrite Ep. simpl.
        rewrite Hd. reflexivity.
      * rewrite on_signal_buy. unfold reverse_and_open. rewrite Ep. simpl.
        rewrite Hd. reflexivity.
    + unfold opening, closing, open_on.
      rewrite open_trade_open_list, filter_app. fold (open_on (pair t)
        (snd (close_trade j (id t) now price "REVERSED"))).
      rewrite Hnone. simpl. rewrite String.eqb_refl. reflexivity.
Qed.

(** C4 on the journal a BUY signal on EURUSD leaves: the BUY it opened
    is OPEN, and a SELL signal closes it with reason REVERSED and opens
    TR0003, the only OPEN trade of the pair afterwards. *)
Lemma reversal_invariant_witness :
  let j :=
    on_signals (init None None 10000)
      [mkCall "t0" "EURUSD" "BUY" (11000 # 10000) []] in
  let t := new_trade "TR0002" "t0" "EURUSD" "BUY" (11000 # 10000) [] (1 # 100) in
  let closing := close_trade j "TR0002" "t1" (11050 # 10000) "REVERSED" in
  let opening :=
    open_trade (snd closing) "t1" "EURUSD" "SELL" (11050 # 10000) []
      (1 # 100) in
  get_open_trades j = [t] /\
  (fst closing = Some (close_fields t "t1" (11050 # 10000) "REVERSED") /\
   on_signal j "t1" "EURUSD" "SELL" (11050 # 10000) []
   = (Some (fst opening), snd opening) /\
   open_on "EURUSD" (snd opening)
   = [new_trade (fst opening) "t1" "EURUSD" "SELL" (11050 # 10000) []
        (1 # 100)]) /\
  fst opening = "TR0003"%string /\
  map (fun u => (id u, status u, exit_reason u)) (trades (snd opening))
  = [("TR0002", "CLOSED", Some "REVERSED"); ("TR0003", "OPEN", None)]%string.
Proof.
  split; [reflexivity | split; [| split; reflexivity]].
  pose proof (reversal_invariant (init None None 10000)
                [mkCall "t0" "EURUSD" "BUY" (11000 # 10000) []] eq_refl)
    as H.
  cbv zeta in H. destruct H as (_ & _ & _ & Hrev).
  apply (Hrev "t1"%string "EURUSD"%string "SELL"%string "BUY"%string
           (11050 # 10000) []
           (new_trade "TR0002" "t0" "EURUSD" "BUY" (11000 # 10000) []
              (1 # 100))).
  - left. split; reflexivity.
  - left. reflexivity.
  - reflexivity.
  - reflexivity.
Defined.

(** The reversal on a concrete trace: BUY then SELL on EURUSD leaves
    the BUY closed with reason REVERSED and one OPEN SELL. *)
Example reversal_example :
  let j :=
    on_signals (init None None 10000)
      [mkCall "t0" "EURUSD" "BUY" (11000 # 10000) [];
       mkCall "t1" "EURUSD" "SELL" (11050 # 10000) []] in
  map (fun t => (id t, direction t, status t, exit_reason t, pnl t)) (trades j)
  = [("TR0002", "BUY", "CLOSED", Some "REVERSED", 5);
     ("TR0003", "SELL", "OPEN", None, 0)]%string
  /\ balance j = 10000 + 5.
Proof. split; reflexivity. Qed.

End JournalFacts.

(** * Properties of the balance on binary64 floats *)

Module Journal64Facts.

Import Floats Py64 Journal64.
Import Permutation.

Lemma open_not_closed (t : Trade) : is_open t = true -> is_closed t = false.
Proof.
  unfold is_open, is_closed. intro H. apply String.eqb_eq in H.
  rewrite H. reflexivity.
Qed.

(** Closing a trade adds it to the CLOSED trades and changes no other. *)
Lemma close_first_closed (ts : list Trade) (tid now : string) (x : float)
    (r : string) (t' : Trade) (ts' : list Trade) :
  close_first ts tid now x r = Some (t', ts') ->
  Permutation (t' :: filter is_closed ts) (filter is_closed ts').
Proof.
  revert t' ts'. induction ts as [| t rest IH]; intros t' ts' H;
    cbn [close_first] in H; [discriminate |].
  destruct ((id t =? tid)%string && is_open t) eqn:E.
  - apply andb_true_iff in E as [_ Ho].
    injection H as <- <-. cbn [filter].
    rewrite (open_not_closed t Ho).
    change (is_closed (close_fields t now x r)) with true. reflexivity.
  - destruct (close_first rest tid now x r) as [[u rest'] |]; [| discriminate].
    injection H as <- <-. specialize (IH u rest' eq_refl).
    cbn [filter]. destruct (is_closed t).
    + rewrite perm_swap. apply perm_skip, IH.
    + exact IH.
Qed.

(** What every operation keeps true of the journal and of the values
    its closes have added. *)
Lemma track_invariant (b : float) (j : TradingJournal) (added : list float)
    (op : Op) :
  balance j = fold_left PrimFloat.add added b ->
  Permutation added (map pnl (get_closed_trades j)) ->
  balance (fst (track (j, added) op))
  = fold_left PrimFloat.add (snd (track (j, added) op)) (base_balance b [op]) /\
  Permutation (snd (track (j, added) op))
    (map pnl (get_closed_trades (fst (track (j, added) op)))).
Proof.
  intros Hb Hp. destruct op as [now p d e i l | tid now x r | b'];
    cbn [track fst snd step base_balance fold_left].
  - split; [exact Hb |].
    unfold get_closed_trades, open_trade. cbn [snd trades].
    rewrite filter_app. cbn [filter]. change (is_closed _) with false.
    rewrite app_nil_r. exact Hp.
  - unfold close_trade.
    destruct (close_first (trades j) tid now x r) as [[t' ts'] |] eqn:E;
      cbn [fst snd]; [| split; assumption].
    cbn [balance]. split.
    + rewrite fold_left_app, <- Hb. reflexivity.
    + unfold get_closed_trades in *. cbn [trades].
      rewrite <- (close_first_closed _ _ _ _ _ _ _ E). cbn [map].
      rewrite <- Hp. symmetry. apply Permutation_cons_append.
  - split; reflexivity.
Qed.

Lemma fold_track_fst (ops : list Op) :
  forall j added, fst (fold_left track ops (j, added)) = run j ops.
Proof.
  induction ops as [| op ops IH]; intros j added; [reflexivity |].
  cbn [fold_left]. unfold run. cbn [fold_left].
  change (track (j, added) op) with (step j op, snd (track (j, added) op)).
  apply IH.
Qed.

Lemma run_track_invariant (ops : list Op) :
  forall (b : float) (j : TradingJournal) (added : list float),
    balance j = fold_left PrimFloat.add added b ->
    Permutation added (map pnl (get_closed_trades j)) ->
    let st := fold_left track ops (j, added) in
    balance (fst st) = fold_left PrimFloat.add (snd st) (base_balance b ops) /\
    Permutation (snd st) (map pnl (get_closed_trades (fst st))).
Proof.
  induction ops as [| op ops IH]; intros b j added Hb Hp; [split; assumption |].
  cbn [fold_left]. destruct (track_invariant b j added op Hb Hp) as [Hb' Hp'].
  destruct (track (j, added) op) as [j' added'] eqn:E. cbn [fst snd] in *.
  unfold base_balance. cbn [fold_left].
  apply (IH _ j' added' Hb' Hp').
Qed.

(** C1, as the code has it.  After any sequence of [open_trade],
    [close_trade] and [reset] on a fresh journal the balance is the
    initial balance (or that of the most recent reset) to which the
    [pnl] of the trades closed since was added, one binary64 addition
    per close, in the order of the closes; the values added are those
    of the CLOSED trades, each once.  The balance changes only when a
    trade is closed or on a reset. *)
Theorem balance_accumulates (b0 : float) (ops : list Op) :
  let j := run (fresh b0) ops in
  balance j
  = fold_left PrimFloat.add (realised (fresh b0) ops) (base_balance b0 ops) /\
  Permutation (realised (fresh b0) ops) (map pnl (get_closed_trades j)) /\
  forall op : Op,
    match op with
    | OpOpen _ _ _ _ _ _ => balance (step j op) = balance j
    | OpClose tid now x r =>
        match fst (close_trade j tid now x r) with
        | Some t => balance (step j op) = PrimFloat.add (balance j) (pnl t)
        | None => step j op = j
        end
    | OpReset b => balance (step j op) = b
    end.
Proof.
  intro j.
  destruct (run_track_invariant ops b0 (fresh b0) []) as [Hb Hp];
    [reflexivity | reflexivity |].
  rewrite fold_track_fst in Hb, Hp. fold j in Hb, Hp.
  split; [exact Hb | split; [exact Hp |]].
  intros [now p d e i l | tid now x r | b]; cbn [step].
  - reflexivity.
  - unfold close_trade.
    destruct (close_first (trades j) tid now x r) as [[t' ts'] |];
      reflexivity.
  - reflexivity.
Qed.

(** C1 as stated fails.  Two BUY trades of 0.01 lot close one and two
    pips up, with [pnl] 0.1 and 0.2.  The balance, 10000 + 0.1 + 0.2
    in that order, is 10000.300000000001; the initial balance plus
    [sum] of the [pnl], 10000 + 0.30000000000000004 with either way
    [sum] is computed, is 10000.3. *)
Lemma balance_is_not_initial_plus_sum :
  let j := run (fresh 10000) one_and_two_pips in
  let closed := map pnl (get_closed_trades j) in
  closed = [float_of_Q (1 # 10); float_of_Q (2 # 10)] /\
  balance j = float_of_Q (10000300000000001 # 1000000000000) /\
  sum closed = float_of_Q (30000000000000004 # 100000000000000000) /\
  sum_compensated closed = sum closed /\
  PrimFloat.add 10000 (sum closed) = float_of_Q (100003 # 10) /\
  PrimFloat.eqb (balance j) (PrimFloat.add 10000 (sum closed)) = false /\
  PrimFloat.eqb (balance j) (PrimFloat.add 10000 (sum_compensated closed))
  = false.
Proof. vm_compute. repeat split; reflexivity. Qed.

(** The round trip of the specification on binary64 floats: entered
    at 1.1000 and closed at 1.1050, the trade has 50 pips and a [pnl]
    of 5, and the balance is 10005. *)
Example round_trip_binary64 :
  let j :=
    run (fresh 10000)
      [OpOpen "t0" "EURUSD" "BUY" (float_of_Q (11000 # 10000)) []
         (float_of_Q (1 # 100));
       OpClose "TR0002" "t1" (float_of_Q (11050 # 10000)) "TP"] in
  map (fun t => (status t, pips t, pnl t)) (trades j)
  = [("CLOSED"%string, 50%float, 5%float)] /\
  balance j = 10005%float.
Proof. vm_compute. split; reflexivity. Qed.

End Journal64Facts.

(** * Properties of the analyzer *)

Module AnalyzerFacts.

Import Py Analyzer PyFacts.

(** *** Trend *)

(** [iloc_neg] reads the series from its end. *)
Lemma iloc_neg_rev {A} (l : list A) (k : nat) :
  iloc_neg (rev l) (S k)
  = match nth_error l k with
    | Some x => Ok x
    | None => Raise IndexError
    end.
Proof.
  unfold iloc_neg. rewrite length_rev.
  change (1 <=? S k)%nat with true. rewrite andb_true_l.
  destruct (S k <=? length l)%nat eqn:E.
  - apply Nat.leb_le in E. rewrite nth_error_rev.
    replace (length l - S k <? length l)%nat with true
      by (symmetry; apply Nat.ltb_lt; lia).
    replace (length l - S (length l - S k))%nat with k by lia.
    reflexivity.
  - apply Nat.leb_gt in E.
    assert (H : nth_error l k = None) by (apply nth_error_None; lia).
    rewrite H. reflexivity.
Qed.

Lemma iloc_neg_last {A} (s : list A) (x : A) :
  iloc_neg (s ++ [x]) 1 = Ok x.
Proof.
  rewrite <- (rev_involutive (s ++ [x])), rev_app_distr. simpl rev at 2.
  cbn [app]. rewrite iloc_neg_rev. reflexivity.
Qed.

Lemma iloc_neg_nonempty {A} (s : list A) :
  s <> [] -> exists x, iloc_neg s 1 = Ok x.
Proof.
  intro H. destruct (exists_last H) as (s' & x & ->).
  exists x. apply iloc_neg_last.
Qed.

Lemma ewm_from_length alpha prev xs :
  length (ewm_from alpha prev xs) = length xs.
Proof.
  revert prev. induction xs as [| x r IH]; intro prev; simpl.
  - reflexivity.
  - rewrite IH. reflexivity.
Qed.

Lemma calculate_ema_ok close period :
  (1 <= period)%nat ->
  exists ema, calculate_ema close period = Ok ema /\ length ema = length close.
Proof.
  intro H. unfold calculate_ema.
  replace (1 <=? period)%nat with true by (symmetry; apply Nat.leb_le, H).
  eexists. split; [reflexivity |].
  destruct close as [| x r]; simpl; [| rewrite ewm_from_length]; reflexivity.
Qed.

Lemma nonempty_of_length {A} (s : list A) : (0 < length s)%nat -> s <> [].
Proof. destruct s; simpl; [lia | discriminate]. Qed.

Lemma Qltb_irrefl (a : Q) : Qltb a a = false.
Proof. apply Qltb_ge. lra. Qed.

(** The [if] chain of [get_trend] on the three values it reads. *)
Local Abbreviation decide_trend price e_slow e_trend :=
  (if Qltb e_trend price && Qltb e_trend e_slow then STRONG_UPTREND
   else if Qltb e_trend price then WEAK_UPTREND
   else if Qltb price e_trend && Qltb e_slow e_trend then STRONG_DOWNTREND
   else if Qltb price e_trend then WEAK_DOWNTREND
   else RANGE_BOUND).

(** On a non-empty frame, with spans of at least 1, [get_trend] reads
    three values and returns the outcome of its [if] chain. *)
Lemma get_trend_eval (data : DataFrame) (ema_fast ema_slow ema_trend : nat) :
  data <> [] ->
  (1 <= ema_fast)%nat -> (1 <= ema_slow)%nat -> (1 <= ema_trend)%nat ->
  exists price e_slow e_trend,
    iloc_neg (column close data) 1 = Ok price /\
    last_of (calculate_ema (column close data) ema_slow) = Ok e_slow /\
    last_of (trend_ema (column close data) ema_slow ema_trend) = Ok e_trend /\
    get_trend data ema_fast ema_slow ema_trend
    = Ok (decide_trend price e_slow e_trend).
Proof.
  intros Hne Hf Hs Ht.
  assert (Hlen : (0 < length (column close data))%nat).
  { unfold column. rewrite length_map. destruct data; [congruence | simpl; lia]. }
  destruct (iloc_neg_nonempty (column close data)) as (price & Hp).
  { apply nonempty_of_length, Hlen. }
  destruct (calculate_ema_ok (column close data) ema_fast Hf) as (e20 & H20 & _).
  destruct (calculate_ema_ok (column close data) ema_slow Hs) as (e50 & H50 & L50).
  destruct (calculate_ema_ok (column close data) ema_trend Ht)
    as (e200 & H200 & L200).
  destruct (iloc_neg_nonempty e50) as (e_slow & Hes).
  { apply nonempty_of_length. rewrite L50. exact Hlen. }
  destruct (iloc_neg_nonempty e200) as (e_long & Hel).
  { apply nonempty_of_length. rewrite L200. exact Hlen. }
  exists price, e_slow.
  unfold get_trend, trend_ema, last_of. rewrite H20, H50, H200, Hp. cbn [bind].
  destruct (200 <=? length (column close data))%nat; cbn [bind].
  - exists e_long. rewrite Hel, Hes. cbn [bind]. auto.
  - exists e_slow. rewrite Hes. cbn [bind]. auto.
Qed.

(** C8. Trend classification is total: on every non-empty close series
    (and EMA spans of at least 1) [get_trend] returns one of the five
    values, decided by the five rules in order, the first that matches
    winning: STRONG_UPTREND when the price and the slow EMA are above
    the trend EMA, WEAK_UPTREND when only the price is,
    STRONG_DOWNTREND when both are below, WEAK_DOWNTREND when only the
    price is, and RANGE_BOUND exactly when the price equals the trend
    EMA. *)
Theorem get_trend_total (data : DataFrame) (ema_fast ema_slow ema_trend : nat) :
  data <> [] ->
  (1 <= ema_fast)%nat -> (1 <= ema_slow)%nat -> (1 <= ema_trend)%nat ->
  exists price e_slow e_trend tr,
    iloc_neg (column close data) 1 = Ok price /\
    last_of (calculate_ema (column close data) ema_slow) = Ok e_slow /\
    last_of (trend_ema (column close data) ema_slow ema_trend) = Ok e_trend /\
    get_trend data ema_fast ema_slow ema_trend = Ok tr /\
    (tr = STRONG_UPTREND <-> e_trend < price /\ e_trend < e_slow) /\
    (tr = WEAK_UPTREND <-> e_trend < price /\ ~ e_trend < e_slow) /\
    (tr = STRONG_DOWNTREND <-> price < e_trend /\ e_slow < e_trend) /\
    (tr = WEAK_DOWNTREND <-> price < e_trend /\ ~ e_slow < e_trend) /\
    (tr = RANGE_BOUND <-> price == e_trend).
Proof.
  intros Hne Hf Hsl Htr.
  destruct (get_trend_eval data ema_fast ema_slow ema_trend Hne Hf Hsl Htr)
    as (price & e_slow & e_trend & Hp & Hs & Ht & Hr).
  exists price, e_slow, e_trend. rewrite Hr. clear Hr.
  destruct (Qltb e_trend price) eqn:E1; destruct (Qltb e_trend e_slow) eqn:E2;
    destruct (Qltb price e_trend) eqn:E3; destruct (Qltb e_slow e_trend) eqn:E4;
    cbn [andb];
    repeat match goal with
    | H : Qltb _ _ = true |- _ => apply Qltb_lt in H
    | H : Qltb _ _ = false |- _ => apply Qltb_ge in H
    end;
    eexists; (split; [exact Hp |]); (split; [exact Hs |]);
    (split; [exact Ht |]); (split; [reflexivity |]);
    repeat split; intros; try discriminate; try lra;
    try (exfalso; lra);
    repeat match goal with H : _ /\ _ |- _ => destruct H end;
    try (exfalso; lra).
Qed.

(** C8 on a frame of two bars with the default spans. *)
Lemma get_trend_total_witness :
  let data := [mkBar 1 2 0 1 0; mkBar 1 2 0 2 0] in
  exists price e_slow e_trend tr,
    iloc_neg (column close data) 1 = Ok price /\
    last_of (calculate_ema (column close data) 50) = Ok e_slow /\
    last_of (trend_ema (column close data) 50 200) = Ok e_trend /\
    get_trend data 20 50 200 = Ok tr /\
    (tr = STRONG_UPTREND <-> e_trend < price /\ e_trend < e_slow) /\
    (tr = WEAK_UPTREND <-> e_trend < price /\ ~ e_trend < e_slow) /\
    (tr = STRONG_DOWNTREND <-> price < e_trend /\ e_slow < e_trend) /\
    (tr = WEAK_DOWNTREND <-> price < e_trend /\ ~ e_slow < e_trend) /\
    (tr = RANGE_BOUND <-> price == e_trend).
Proof.
  apply (get_trend_total [mkBar 1 2 0 1 0; mkBar 1 2 0 2 0] 20 50 200);
    [discriminate | lia | lia | lia].
Defined.

(** C10. With fewer than 200 bars the trend EMA is the slow EMA
    itself, so [get_trend] never returns STRONG_UPTREND or
    STRONG_DOWNTREND: on a non-empty series (and spans of at least 1)
    it returns WEAK_UPTREND, WEAK_DOWNTREND or RANGE_BOUND. *)
Theorem short_series_never_strong (data : DataFrame)
    (ema_fast ema_slow ema_trend : nat) :
  (length data < 200)%nat ->
  trend_ema (column close data) ema_slow ema_trend
  = calculate_ema (column close data) ema_slow /\
  get_trend data ema_fast ema_slow ema_trend <> Ok STRONG_UPTREND /\
  get_trend data ema_fast ema_slow ema_trend <> Ok STRONG_DOWNTREND /\
  (data <> [] ->
   (1 <= ema_fast)%nat -> (1 <= ema_slow)%nat -> (1 <= ema_trend)%nat ->
   exists tr,
     get_trend data ema_fast ema_slow ema_trend = Ok tr /\
     (tr = WEAK_UPTREND \/ tr = WEAK_DOWNTREND \/ tr = RANGE_BOUND)).
Proof.
  intro Hlen.
  assert (H200 : (200 <=? length (column close data))%nat = false).
  { unfold column. rewrite length_map. apply Nat.leb_gt, Hlen. }
  split; [unfold trend_ema; rewrite H200; reflexivity |].
  assert (Hcase : forall tr,
            get_trend data ema_fast ema_slow ema_trend = Ok tr ->
            tr = WEAK_UPTREND \/ tr = WEAK_DOWNTREND \/ tr = RANGE_BOUND).
  { intro tr. unfold get_trend. rewrite H200.
    destruct (calculate_ema (column close data) ema_fast) as [e20 |];
      [| discriminate].
    destruct (calculate_ema (column close data) ema_slow) as [e50 |];
      [| discriminate].
    cbn [bind].
    destruct (iloc_neg (column close data) 1) as [price |]; [| discriminate].
    destruct (iloc_neg e50 1) as [e |]; [| discriminate].
    cbn [bind]. rewrite Qltb_irrefl, !andb_false_r.
    destruct (Qltb e price); [intro H; injection H as <-; auto |].
    destruct (Qltb price e); intro H; injection H as <-; auto. }
  split; [| split].
  - intro H. apply Hcase in H. destruct H as [H | [H | H]]; discriminate H.
  - intro H. apply Hcase in H. destruct H as [H | [H | H]]; discriminate H.
  - intros Hne Hf Hs Ht.
    destruct (get_trend_eval data ema_fast ema_slow ema_trend Hne Hf Hs Ht)
      as (price & e_slow & e_trend & _ & _ & _ & Htr).
    eexists. split; [exact Htr | apply Hcase, Htr].
Qed.

(** C10 on a frame of two bars with the default spans. *)
Lemma short_series_never_strong_witness :
  let data := [mkBar 1 2 0 1 0; mkBar 1 2 0 2 0] in
  trend_ema (column close data) 50 200
  = calculate_ema (column close data) 50 /\
  get_trend data 20 50 200 <> Ok STRONG_UPTREND /\
  get_trend data 20 50 200 <> Ok STRONG_DOWNTREND /\
  (data <> [] ->
   (1 <= 20)%nat -> (1 <= 50)%nat -> (1 <= 200)%nat ->
   exists tr,
     get_trend data 20 50 200 = Ok tr /\
     (tr = WEAK_UPTREND \/ tr = WEAK_DOWNTREND \/ tr = RANGE_BOUND)).
Proof.
  apply (short_series_never_strong [mkBar 1 2 0 1 0; mkBar 1 2 0 2 0] 20 50 200).
  simpl. lia.
Defined.

(** Each of the three remaining values is returned on some short
    series; the empty series raises. *)
Example short_series_values :
  get_trend [mkBar 1 2 0 1 0; mkBar 1 2 0 2 0] 20 50 200 = Ok WEAK_UPTREND /\
  get_trend [mkBar 1 2 0 2 0; mkBar 1 2 0 1 0] 20 50 200 = Ok WEAK_DOWNTREND /\
  get_trend [mkBar 1 2 0 1 0; mkBar 1 2 0 1 0] 20 50 200 = Ok RANGE_BOUND /\
  get_trend [] 20 50 200 = Raise IndexError.
Proof. repeat split; reflexivity. Qed.

(** *** Candlestick patterns *)

Lemma bar_from_end_rev (l : list Bar) (k : nat) :
  bar_from_end (List.rev l) k = nth (k - 1) l (mkBar 0 0 0 0 0).
Proof. unfold bar_from_end. rewrite rev_involutive. reflexivity. Qed.

Lemma iloc_neg_column_rev (col : Bar -> Q) (l : list Bar) (k : nat) :
  iloc_neg (column col (List.rev l)) (S k)
  = match nth_error l k with
    | Some b => Ok (col b)
    | None => Raise IndexError
    end.
Proof.
  unfold column. rewrite map_rev, iloc_neg_rev, nth_error_map.
  destruct (nth_error l k); reflexivity.
Qed.

Ltac candle_eval :=
  unfold get_candle_patterns;
  cbn [all_range Nat.sub];
  rewrite ?iloc_neg_column_rev, ?length_rev;
  cbn [nth_error bind length Nat.leb].

Lemma candle_one_bar (l : list Bar) :
  (length l <= 1)%nat -> get_candle_patterns (List.rev l) = Raise IndexError.
Proof.
  intro H. destruct l as [| b1 [| b2 r]]; [| | simpl in H; lia];
    candle_eval; reflexivity.
Qed.

Lemma candle_two_bars (b1 b2 : Bar) :
  get_candle_patterns (List.rev [b1; b2])
  = Ok (first_match (pattern_holds (List.rev [b1; b2])) priority).
Proof.
  candle_eval.
  unfold priority, first_match, pattern_holds.
  rewrite ?bar_from_end_rev, ?length_rev. cbn [nth Nat.sub length Nat.leb andb].
  generalize (doji_cond (open b1) (high b1) (low b1) (close b1)).
  generalize (bullish_hammer_cond (open b1) (high b1) (low b1) (close b1)).
  generalize (inverted_hammer_cond (open b1) (high b1) (low b1) (close b1)).
  generalize (shooting_star_cond (open b1) (high b1) (low b1) (close b1)).
  generalize (bullish_engulfing_cond (open b1) (close b1) (open b2) (close b2)).
  generalize (bearish_engulfing_cond (open b1) (close b1) (open b2) (close b2)).
  intros [] [] [] [] [] []; reflexivity.
Qed.

Ltac candle_conds b1 b2 b3 :=
  generalize (doji_cond (open b1) (high b1) (low b1) (close b1));
  generalize (bullish_hammer_cond (open b1) (high b1) (low b1) (close b1));
  generalize (inverted_hammer_cond (open b1) (high b1) (low b1) (close b1));
  generalize (shooting_star_cond (open b1) (high b1) (low b1) (close b1));
  generalize (bullish_engulfing_cond (open b1) (close b1) (open b2) (close b2));
  generalize (bearish_engulfing_cond (open b1) (close b1) (open b2) (close b2));
  generalize (morning_star_cond (open b1) (close b1) (open b3) (close b3)
                (open b2) (close b2));
  generalize (evening_star_cond (open b1) (close b1) (open b3) (close b3)
                (open b2) (close b2));
  generalize (Qltb (open b3) (close b3));
  generalize (Qltb (open b2) (close b2));
  generalize (Qltb (open b1) (close b1)).

Lemma candle_three_bars (b1 b2 b3 : Bar) :
  get_candle_patterns (List.rev [b1; b2; b3])
  = if Qltb (open b3) (close b3) && Qltb (open b2) (close b2)
       && Qltb (open b1) (close b1)
    then Raise IndexError
    else Ok (first_match (pattern_holds (List.rev [b1; b2; b3])) priority).
Proof.
  candle_eval.
  unfold priority, first_match, pattern_holds.
  rewrite ?bar_from_end_rev, ?length_rev. cbn [nth Nat.sub length Nat.leb andb].
  candle_conds b1 b2 b3.
  intros [] [] [] [] [] [] [] [] [] [] []; reflexivity.
Qed.

Lemma candle_four_bars (b1 b2 b3 b4 : Bar) (r : list Bar) :
  get_candle_patterns (List.rev (b1 :: b2 :: b3 :: b4 :: r))
  = Ok (first_match (pattern_holds (List.rev (b1 :: b2 :: b3 :: b4 :: r)))
          priority).
Proof.
  candle_eval.
  unfold priority, first_match, pattern_holds.
  rewrite ?bar_from_end_rev, ?length_rev. cbn [nth Nat.sub length Nat.leb andb].
  candle_conds b1 b2 b3.
  generalize (Qltb (close b4) (close b3)).
  generalize (Qltb (close b3) (close b2)).
  generalize (Qltb (close b2) (close b1)).
  intros [] [] [] [] [] [] [] [] [] [] [] [] [] []; reflexivity.
Qed.

Lemma candle_ok_first_match (data : DataFrame) (p : Pattern) :
  get_candle_patterns data = Ok p ->
  p = first_match (pattern_holds data) priority.
Proof.
  rewrite <- (rev_involutive data).
  destruct (List.rev data) as [| b1 [| b2 [| b3 [| b4 r]]]].
  - rewrite candle_one_bar by (simpl; lia). discriminate.
  - rewrite candle_one_bar by (simpl; lia). discriminate.
  - rewrite candle_two_bars. intro H. injection H as <-. reflexivity.
  - rewrite candle_three_bars.
    destruct (Qltb (open b3) (close b3) && Qltb (open b2) (close b2)
              && Qltb (open b1) (close b1)); [discriminate |].
    intro H. injection H as <-. reflexivity.
  - rewrite candle_four_bars. intro H. injection H as <-. reflexivity.
Qed.

Lemma candle_returns (data : DataFrame) :
  length data = 2%nat \/ (4 <= length data)%nat ->
  get_candle_patterns data = Ok (first_match (pattern_holds data) priority).
Proof.
  rewrite <- (rev_involutive data), length_rev.
  destruct (List.rev data) as [| b1 [| b2 [| b3 [| b4 r]]]]; cbn [length];
    intros [H | H]; try discriminate H; try lia.
  - apply candle_two_bars.
  - apply candle_four_bars.
Qed.

Lemma first_match_spec (holds : Pattern -> bool) (order : list Pattern) :
  ~ In NONE order ->
  let p := first_match holds order in
  (p = NONE /\ forall q, In q order -> holds q = false) \/
  (exists earlier later,
     order = earlier ++ p :: later /\ holds p = true /\
     forall q, In q earlier -> holds q = false).
Proof.
  induction order as [| a order IH]; intro Hn; simpl.
  - left. split; [reflexivity | intros q []].
  - destruct (holds a) eqn:Ea.
    + right. exists [], order. split; [reflexivity |].
      split; [exact Ea | intros q []].
    + destruct IH as [[Hp Hall] | (earlier & later & Ho & Hp & Hall)].
      * intro H. apply Hn. right. exact H.
      * left. split; [exact Hp |]. intros q [<- | Hq]; auto.
      * right. exists (a :: earlier), later. split.
        { simpl. f_equal. exact Ho. }
        split; [exact Hp |]. intros q [<- | Hq]; auto.
Qed.

Lemma priority_no_none : ~ In NONE priority.
Proof. simpl. intuition discriminate. Qed.

(** The tie-break where [get_candle_patterns] returns: the pattern is
    the earliest of the priority order DOJI, BULLISH_HAMMER,
    INVERTED_HAMMER, SHOOTING_STAR, BULLISH_ENGULFING,
    BEARISH_ENGULFING, MORNING_STAR, EVENING_STAR, THREE_WHITE_SOLDIERS
    whose condition holds, NONE when none does, and DOJI whenever the
    DOJI condition holds.  It returns on every series of 2 bars or of
    at least 4. *)
Theorem candle_tie_break (data : DataFrame) :
  (length data = 2%nat \/ (4 <= length data)%nat ->
   exists p, get_candle_patterns data = Ok p) /\
  forall p,
    get_candle_patterns data = Ok p ->
    ((p = NONE /\ forall q, In q priority -> pattern_holds data q = false) \/
     (exists earlier later,
        priority = earlier ++ p :: later /\ pattern_holds data p = true /\
        forall q, In q earlier -> pattern_holds data q = false)) /\
    (pattern_holds data DOJI = true -> p = DOJI).
Proof.
  split.
  - intro Hlen. eexists. apply candle_returns, Hlen.
  - intros p H. apply candle_ok_first_match in H. subst p. split.
    + apply (first_match_spec (pattern_holds data) priority priority_no_none).
    + intro Hd. unfold priority. cbn [first_match]. rewrite Hd. reflexivity.
Qed.

(** Two bars on which the DOJI and the BULLISH_ENGULFING conditions
    both hold: DOJI is reported. *)
Lemma candle_tie_break_witness :
  pattern_holds doji_and_engulfing DOJI = true /\
  pattern_holds doji_and_engulfing BULLISH_ENGULFING = true /\
  get_candle_patterns doji_and_engulfing = Ok DOJI /\
  ((DOJI = NONE /\
    forall q, In q priority -> pattern_holds doji_and_engulfing q = false) \/
   (exists earlier later,
      priority = earlier ++ DOJI :: later /\
      pattern_holds doji_and_engulfing DOJI = true /\
      forall q, In q earlier -> pattern_holds doji_and_engulfing q = false)) /\
  (pattern_holds doji_and_engulfing DOJI = true -> DOJI = DOJI).
Proof.
  split; [reflexivity | split; [reflexivity | split; [reflexivity |]]].
  apply (proj2 (candle_tie_break doji_and_engulfing) DOJI). reflexivity.
Defined.

(** C9 fails on the code.  On three bullish bars of which the last is
    a doji, the DOJI condition holds and DOJI is the earliest pattern
    of the priority order that does; but the soldiers check, which runs
    once three bars are there and all are bullish, reads a fourth bar
    from the end, and the call raises [IndexError] instead of reporting
    DOJI. *)
Theorem tie_break_lost_on_three_bullish_bars :
  let data := doji_after_two_bullish in
  length data = 3%nat /\ three_bullish_bars data = true /\
  pattern_holds data DOJI = true /\
  first_match (pattern_holds data) priority = DOJI /\
  get_candle_patterns data = Raise IndexError.
Proof. repeat split; reflexivity. Qed.

Lemma Qabs_nonneg (x : Q) : 0 <= Qabs_ x.
Proof.
  unfold Qabs_. destruct (Qltb x 0) eqn:E.
  - apply Qltb_lt in E. lra.
  - apply Qltb_ge in E. exact E.
Qed.

(** The DOJI and the BULLISH_HAMMER conditions exclude each other: the
    upper shadow cannot be both above 3 bodies and below half a body. *)
Lemma doji_excludes_bullish_hammer (o h l c : Q) :
  doji_cond o h l c = true -> bullish_hammer_cond o h l c = false.
Proof.
  unfold doji_cond, bullish_hammer_cond. intro H.
  apply andb_prop in H as [H1 _]. apply Qltb_lt in H1.
  pose proof (Qabs_nonneg (c - o)) as Hb.
  destruct (Qltb (h - Qmax_ o c) (Qabs_ (c - o) * (1 # 2))) eqn:E.
  - apply Qltb_lt in E. exfalso. lra.
  - rewrite andb_false_r. reflexivity.
Qed.





(** Three rising bullish bars and nothing before them: the soldiers
    check reads a fourth bar from the end. *)
Example candle_three_bullish_bars :
  get_candle_patterns
    [mkBar 1 2 1 2 0; mkBar 2 3 2 3 0; mkBar 3 4 3 4 0] = Raise IndexError /\
  get_candle_patterns
    [mkBar 0 1 0 1 0; mkBar 1 2 1 2 0; mkBar 2 3 2 3 0; mkBar 3 4 3 4 0]
  = Ok THREE_WHITE_SOLDIERS.
Proof. split; reflexivity. Qed.

(** *** Clustering *)

(** C7 fails on the code.  The three levels 1, 2, 3 in two clusters:
    the bins are [1, 2) and [2, 3), both half-open, so the maximum 3
    falls into no bin and the levels returned are 1 and 2, where the
    claim has the maximum in the top bin and 1 and 5/2 returned. *)
Theorem cluster_levels_drops_maximum :
  let levels := [1; 2; 3] in
  min_of 1 [2; 3] = 1 /\ max_of 1 [2; 3] = 3 /\
  bin_levels levels 1 ((3 - 1) / 2) 0 = [1] /\
  bin_levels levels 1 ((3 - 1) / 2) 1 = [2] /\
  cluster_levels levels 2 = Ok [1; 2].
Proof. repeat split; reflexivity. Qed.

Lemma inject_nat_le (i n : nat) :
  (i <= n)%nat -> inject_Z (Z.of_nat i) <= inject_Z (Z.of_nat n).
Proof.
  intro H. rewrite <- Zle_Qle. lia.
Qed.

Lemma inject_nat_S (i : nat) :
  inject_Z (Z.of_nat (S i)) == inject_Z (Z.of_nat i) + 1.
Proof.
  rewrite Nat2Z.inj_succ. unfold Z.succ. rewrite inject_Z_plus. reflexivity.
Qed.

(** In general: whenever the minimum and the maximum differ, no bin
    holds a level as large as the maximum. *)
Lemma maximum_in_no_bin (levels : list Q) (min_p max_p : Q) (n i : nat)
    (l : Q) :
  (i < n)%nat -> min_p < max_p -> max_p <= l ->
  ~ In l (bin_levels levels min_p
            ((max_p - min_p) / inject_Z (Z.of_nat n)) i).
Proof.
  intros Hi Hlt Hl Hin. unfold bin_levels in Hin.
  apply filter_In in Hin as [_ Hc]. apply andb_prop in Hc as [_ Hc].
  apply Qltb_lt in Hc.
  assert (Hn : 0 < inject_Z (Z.of_nat n)).
  { change 0 with (inject_Z 0). rewrite <- Zlt_Qlt. lia. }
  set (step := (max_p - min_p) / inject_Z (Z.of_nat n)) in *.
  assert (Hstep : 0 < step).
  { unfold step. apply Qlt_shift_div_l; [exact Hn | lra]. }
  assert (Hns : inject_Z (Z.of_nat n) * step == max_p - min_p).
  { unfold step. field. lra. }
  assert (Hle : (inject_Z (Z.of_nat i) + 1) * step
                <= inject_Z (Z.of_nat n) * step).
  { apply Qmult_le_compat_r; [| lra].
    rewrite <- inject_nat_S. apply inject_nat_le. lia. }
  lra.
Qed.

Lemma in_bin_levels (levels : list Q) (min_p step : Q) (i : nat) (l : Q) :
  In l (bin_levels levels min_p step i) <->
  In l levels /\
  min_p + inject_Z (Z.of_nat i) * step <= l /\
  l < min_p + (inject_Z (Z.of_nat i) + 1) * step.
Proof.
  unfold bin_levels. rewrite filter_In, andb_true_iff, Qle_bool_iff, Qltb_lt.
  tauto.
Qed.

(** Every level below the maximum falls into exactly one bin. *)
Lemma below_maximum_in_one_bin (levels : list Q) (min_p max_p : Q) (n : nat)
    (l : Q) :
  (0 < n)%nat -> In l levels -> min_p <= l -> l < max_p ->
  let step := (max_p - min_p) / inject_Z (Z.of_nat n) in
  exists i,
    (i < n)%nat /\ In l (bin_levels levels min_p step i) /\
    forall i', In l (bin_levels levels min_p step i') -> i' = i.
Proof.
  intros Hn Hin Hmin Hmax step.
  assert (HnQ : 0 < inject_Z (Z.of_nat n)).
  { change 0 with (inject_Z 0). rewrite <- Zlt_Qlt. lia. }
  assert (Hstep : 0 < step).
  { unfold step. apply Qlt_shift_div_l; [exact HnQ | lra]. }
  assert (Hns : inject_Z (Z.of_nat n) * step == max_p - min_p).
  { unfold step. field. lra. }
  set (q := (l - min_p) / step).
  assert (Hq : q * step == l - min_p) by (unfold q; field; lra).
  assert (Hq0 : 0 <= q).
  { unfold q. apply Qle_shift_div_l; [exact Hstep | lra]. }
  assert (Hqn : q < inject_Z (Z.of_nat n)).
  { unfold q. apply Qlt_shift_div_r; [exact Hstep | lra]. }
  pose proof (Qfloor_le q) as Hfl. pose proof (Qlt_floor q) as Hfu.
  rewrite inject_Z_plus in Hfu. change (inject_Z 1) with 1 in Hfu.
  assert (Hf0 : (0 <= Qfloor q)%Z).
  { change 0%Z with (Qfloor 0). apply Qfloor_resp_le, Hq0. }
  set (i := Z.to_nat (Qfloor q)).
  assert (Hi : inject_Z (Z.of_nat i) = inject_Z (Qfloor q)).
  { unfold i. rewrite Z2Nat.id by exact Hf0. reflexivity. }
  assert (Hin_bin : forall k : nat,
            In l (bin_levels levels min_p step k) <->
            inject_Z (Z.of_nat k) <= q /\ q < inject_Z (Z.of_nat k) + 1).
  { intro k. rewrite in_bin_levels. split.
    - intros (_ & H1 & H2). split.
      + apply Qmult_le_r with (z := step); [exact Hstep | lra].
      + apply Qmult_lt_r with (z := step); [exact Hstep | lra].
    - intros [H1 H2]. split; [exact Hin |].
      apply (Qmult_le_r _ _ step Hstep) in H1.
      apply (Qmult_lt_r _ _ step Hstep) in H2. split; lra. }
  exists i. split; [| split].
  - assert (H : inject_Z (Z.of_nat i) < inject_Z (Z.of_nat n)) by (rewrite Hi; lra).
    rewrite <- Zlt_Qlt in H. lia.
  - apply Hin_bin. rewrite Hi. split; lra.
  - intros i' H'. apply Hin_bin in H' as [H1 H2].
    assert (Ha : inject_Z (Z.of_nat i') < inject_Z (Z.of_nat i) + 1)
      by (rewrite Hi; lra).
    assert (Hb : inject_Z (Z.of_nat i) < inject_Z (Z.of_nat i') + 1)
      by (rewrite Hi; lra).
    rewrite <- inject_nat_S in Ha, Hb. rewrite <- Zlt_Qlt in Ha, Hb. lia.
Qed.

(** The same loss inside [find_support_resistance]: on a close series
    with local maxima 1, 2, 3 and local minima 1/2, 7/10 the highest
    resistance and the highest support are not among the levels. *)
Example find_support_resistance_three_peaks :
  find_support_resistance three_peaks 5
  = Ok {| support := [1 # 2];
          resistance := [1; 2];
          nearest_support := Some (1 # 2);
          nearest_resistance := Some 1 |}.
Proof. vm_compute. reflexivity. Qed.

(** *** RSI *)

Lemma diff_from_length prev xs : length (diff_from prev xs) = length xs.
Proof.
  revert prev. induction xs as [| x r IH]; intro prev; simpl.
  - reflexivity.
  - rewrite IH. reflexivity.
Qed.

Lemma diff_length s : length (diff s) = length s.
Proof.
  destruct s as [| x r]; simpl; [| rewrite diff_from_length]; reflexivity.
Qed.

Lemma diff_from_values prev xs :
  Forall (fun d => exists q, d = Fin q) (diff_from prev xs).
Proof.
  revert prev. induction xs as [| x r IH]; intro prev; simpl.
  - constructor.
  - constructor; [eauto | apply IH].
Qed.

Lemma diff_values s : Forall (fun d => d = NaN \/ exists q, d = Fin q) (diff s).
Proof.
  destruct s as [| x r]; simpl.
  - constructor.
  - constructor; [left; reflexivity |].
    apply Forall_impl with (2 := diff_from_values x r). auto.
Qed.

Lemma gains_nonneg close :
  Forall nonneg_fin (where_ (diff close) (fun d => fl_gt d (Fin 0)) (Fin 0)).
Proof.
  unfold where_. apply Forall_map.
  apply Forall_impl with (2 := diff_values close).
  intros d [-> | [q ->]]; simpl.
  - exists 0. split; [reflexivity | lra].
  - destruct (Qltb 0 q) eqn:E.
    + apply Qltb_lt in E. exists q. split; [reflexivity | lra].
    + exists 0. split; [reflexivity | lra].
Qed.

Lemma losses_nonneg close :
  Forall nonneg_fin
    (map fl_neg (where_ (diff close) (fun d => fl_lt d (Fin 0)) (Fin 0))).
Proof.
  unfold where_. rewrite map_map. apply Forall_map.
  apply Forall_impl with (2 := diff_values close).
  intros d [-> | [q ->]]; simpl.
  - exists (- 0). split; [reflexivity | lra].
  - destruct (Qltb q 0) eqn:E; simpl.
    + apply Qltb_lt in E. exists (- q). split; [reflexivity | lra].
    + exists (- 0). split; [reflexivity | lra].
Qed.

Lemma Forall_window {A} (P : A -> Prop) (s : list A) (n m : nat) :
  Forall P s -> Forall P (firstn n (skipn m s)).
Proof.
  intro H. rewrite <- (firstn_skipn m s) in H.
  apply Forall_app in H as [_ H].
  rewrite <- (firstn_skipn n (skipn m s)) in H.
  apply Forall_app in H as [H _]. exact H.
Qed.

Lemma sum_nonneg (w : list pyfloat) :
  Forall nonneg_fin w ->
  forall a, 0 <= a -> exists s, fold_left fl_add w (Fin a) = Fin s /\ 0 <= s.
Proof.
  induction 1 as [| x w [q [-> Hq]] _ IH]; intros a Ha; simpl.
  - eauto.
  - apply IH. lra.
Qed.

Lemma no_nan_nonneg (w : list pyfloat) :
  Forall nonneg_fin w -> existsb is_nan w = false.
Proof.
  induction 1 as [| x w [q [-> Hq]] _ IH]; simpl; auto.
Qed.

Lemma inject_nat_pos (n : nat) : (1 <= n)%nat -> 0 < inject_Z (Z.of_nat n).
Proof.
  intro H. change 0 with (inject_Z 0). rewrite <- Zlt_Qlt. lia.
Qed.

Lemma Qeq_bool_pos (x : Q) : 0 < x -> Qeq_bool x 0 = false.
Proof.
  intro H. destruct (Qeq_bool x 0) eqn:E; [| reflexivity].
  apply Qeq_bool_iff in E. lra.
Qed.

Lemma window_mean_nonneg (w : list pyfloat) (window : nat) :
  (1 <= window)%nat -> length w = window -> Forall nonneg_fin w ->
  exists m, window_mean w window = Fin m /\ 0 <= m.
Proof.
  intros Hw Hlen Hall. unfold window_mean.
  rewrite Hlen, Nat.ltb_irrefl, (no_nan_nonneg w Hall). simpl.
  destruct (sum_nonneg w Hall 0) as (s & -> & Hs); [lra |].
  pose proof (inject_nat_pos window Hw) as Hp.
  simpl. rewrite (Qeq_bool_pos _ Hp).
  eexists. split; [reflexivity |].
  apply Qle_shift_div_l; [exact Hp | lra].
Qed.

Lemma window_mean_short (w : list pyfloat) (window : nat) :
  (length w < window)%nat -> window_mean w window = NaN.
Proof.
  intro H. unfold window_mean.
  replace (length w <? window)%nat with true
    by (symmetry; apply Nat.ltb_lt, H).
  reflexivity.
Qed.

Lemma window_at_length (s : list pyfloat) (m window : nat) :
  length s = S m -> length (window_at s m window) = Nat.min window (S m).
Proof.
  intro H. unfold window_at. rewrite length_firstn, length_skipn, H. lia.
Qed.

Lemma last_map_seq {A} (f : nat -> A) (m : nat) (d : A) :
  last (map f (seq 0 (S m))) d = f m.
Proof.
  rewrite seq_S, map_app. simpl map at 2. apply last_last.
Qed.

Lemma combine_map_same {A B C} (f : A -> B) (g : A -> C) (l : list A) :
  combine (map f l) (map g l) = map (fun x => (f x, g x)) l.
Proof.
  induction l as [| x l IH]; simpl; [| rewrite IH]; reflexivity.
Qed.

Lemma rsi_gain_last close period m :
  length close = S m ->
  last (rsi_gain close period) NaN
  = window_mean
      (window_at (where_ (diff close) (fun d => fl_gt d (Fin 0)) (Fin 0))
         m period) period.
Proof.
  intro H. unfold rsi_gain, rolling_mean, where_.
  rewrite length_map, diff_length, H.
  apply (last_map_seq (fun i => window_mean (window_at _ i period) period)).
Qed.

Lemma rsi_loss_last close period m :
  length close = S m ->
  last (rsi_loss close period) NaN
  = window_mean
      (window_at
         (map fl_neg (where_ (diff close) (fun d => fl_lt d (Fin 0)) (Fin 0)))
         m period) period.
Proof.
  intro H. unfold rsi_loss, rolling_mean, where_.
  rewrite !length_map, diff_length, H.
  apply (last_map_seq (fun i => window_mean (window_at _ i period) period)).
Qed.

(** On a non-empty series the value returned is computed from the last
    rolling means. *)
Lemma calculate_rsi_last close period m :
  length close = S m ->
  calculate_rsi close period
  = fl_sub (Fin 100)
      (fl_div (Fin 100)
         (fl_add (Fin 1)
            (fl_div (last (rsi_gain close period) NaN)
               (last (rsi_loss close period) NaN)))).
Proof.
  intro H. rewrite (rsi_gain_last close period m H).
  rewrite (rsi_loss_last close period m H).
  unfold calculate_rsi, rsi_gain, rsi_loss, rolling_mean, where_.
  rewrite !length_map, diff_length, H.
  rewrite combine_map_same, !map_map.
  rewrite seq_S, map_app. cbn [map fst snd Nat.add].
  destruct (map _ (seq 0 m) ++ _) as [| x r] eqn:E.
  - apply app_eq_nil in E as [_ E]. discriminate E.
  - rewrite <- E. apply last_last.
Qed.

Lemma rsi_means_nonneg close period :
  (1 <= period)%nat -> (period <= length close)%nat ->
  exists g l,
    last (rsi_gain close period) NaN = Fin g /\
    last (rsi_loss close period) NaN = Fin l /\ 0 <= g /\ 0 <= l.
Proof.
  intros Hp Hlen.
  destruct (length close) as [| m] eqn:Em; [lia |].
  rewrite (rsi_gain_last close period m Em), (rsi_loss_last close period m Em).
  destruct (window_mean_nonneg
              (window_at (where_ (diff close) (fun d => fl_gt d (Fin 0)) (Fin 0))
                 m period) period Hp) as (g & Hg & Hg0).
  { rewrite window_at_length; [lia |].
    unfold where_. rewrite length_map, diff_length. exact Em. }
  { apply Forall_window, gains_nonneg. }
  destruct (window_mean_nonneg
              (window_at
                 (map fl_neg
                    (where_ (diff close) (fun d => fl_lt d (Fin 0)) (Fin 0)))
                 m period) period Hp) as (l & Hl & Hl0).
  { rewrite window_at_length; [lia |].
    unfold where_. rewrite !length_map, diff_length. exact Em. }
  { apply Forall_window, losses_nonneg. }
  exists g, l. auto.
Qed.

(** The value on a series of at least [period] bars, by the last
    rolling means [g] of the gains and [l] of the losses. *)
Lemma calculate_rsi_cases (close : list Q) (period : nat) (g l : Q) :
  (1 <= length close)%nat ->
  last (rsi_gain close period) NaN = Fin g ->
  last (rsi_loss close period) NaN = Fin l ->
  0 <= g -> 0 <= l ->
  (0 < l ->
   exists r, calculate_rsi close period = Fin r /\
             r == 100 - 100 / (1 + g / l) /\ 0 <= r /\ r < 100) /\
  (l == 0 -> 0 < g ->
   exists r, calculate_rsi close period = Fin r /\ r == 100) /\
  (l == 0 -> g == 0 -> calculate_rsi close period = NaN).
Proof.
  intros Hlen Hg Hl Hg0 Hl0.
  destruct (length close) as [| m] eqn:Em; [lia |].
  rewrite (calculate_rsi_last close period m Em), Hg, Hl.
  split; [| split].
  - intro Hlpos. cbn [fl_div]. rewrite (Qeq_bool_pos l Hlpos).
    assert (Hrs : 0 <= g / l) by (apply Qle_shift_div_l; lra).
    cbn [fl_add fl_div]. rewrite Qeq_bool_pos by lra.
    cbn [fl_sub fl_neg fl_add]. eexists. split; [reflexivity |].
    assert (Hd : 0 < 100 / (1 + g / l))
      by (apply Qlt_shift_div_l; lra).
    assert (Hu : 100 / (1 + g / l) <= 100)
      by (apply Qle_shift_div_r; lra).
    split; [| split]; lra.
  - intros Hl0' Hgpos. cbn [fl_div].
    apply Qeq_bool_iff in Hl0'. rewrite Hl0', (Qeq_bool_pos g Hgpos).
    replace (Qltb 0 g) with true by (symmetry; apply Qltb_lt, Hgpos).
    cbn. eexists. split; [reflexivity | lra].
  - intros Hl0' Hg0'. cbn [fl_div].
    apply Qeq_bool_iff in Hl0', Hg0'. rewrite Hl0', Hg0'. reflexivity.
Qed.

(** C5, as the code has it.  [calculate_rsi] returns 50 on the empty
    series.  On a series of at least [period] bars both rolling means
    are finite and non-negative, and: with a positive loss mean the
    value is [100 - 100 / (1 + gain / loss)], in [0, 100); with a zero
    loss mean and a positive gain mean it is 100. *)
Theorem rsi_contract (close : list Q) (period : nat) :
  (1 <= period)%nat ->
  calculate_rsi [] period = Fin 50 /\
  ((period <= length close)%nat ->
   exists g l,
     last (rsi_gain close period) NaN = Fin g /\
     last (rsi_loss close period) NaN = Fin l /\ 0 <= g /\ 0 <= l /\
     (0 < l ->
      exists r, calculate_rsi close period = Fin r /\
                r == 100 - 100 / (1 + g / l) /\ 0 <= r /\ r < 100) /\
     (l == 0 -> 0 < g ->
      exists r, calculate_rsi close period = Fin r /\ r == 100)).
Proof.
  intro Hp. split; [reflexivity |]. intro Hlen.
  destruct (rsi_means_nonneg close period Hp Hlen)
    as (g & l & Hg & Hl & Hg0 & Hl0).
  exists g, l. repeat (split; [assumption |]).
  destruct (calculate_rsi_cases close period g l) as (H1 & H2 & _);
    auto; lia.
Qed.

(** C5 on four bars with period 3: the means are 1 and 1/3, the value
    is 75. *)
Lemma rsi_contract_witness :
  let close := [1; 2; 1; 3] in
  calculate_rsi close 3 = Fin (900 # 12) /\
  calculate_rsi [] 3 = Fin 50 /\
  ((3 <= length close)%nat ->
   exists g l,
     last (rsi_gain close 3) NaN = Fin g /\
     last (rsi_loss close 3) NaN = Fin l /\ 0 <= g /\ 0 <= l /\
     (0 < l ->
      exists r, calculate_rsi close 3 = Fin r /\
                r == 100 - 100 / (1 + g / l) /\ 0 <= r /\ r < 100) /\
     (l == 0 -> 0 < g ->
      exists r, calculate_rsi close 3 = Fin r /\ r == 100)).
Proof.
  split; [reflexivity |]. apply (rsi_contract [1; 2; 1; 3] 3). lia.
Defined.

(** Where the value is not a number: a flat last window, and a
    non-empty series shorter than [period]. *)
Lemma rsi_nan_cases (close : list Q) (period : nat) :
  (1 <= period)%nat ->
  ((0 < length close < period)%nat -> calculate_rsi close period = NaN) /\
  ((period <= length close)%nat ->
   (exists g l,
      last (rsi_gain close period) NaN = Fin g /\
      last (rsi_loss close period) NaN = Fin l /\ g == 0 /\ l == 0) ->
   calculate_rsi close period = NaN).
Proof.
  intro Hp. split.
  - intros [H0 Hlt]. destruct (length close) as [| m] eqn:Em; [lia |].
    rewrite (calculate_rsi_last close period m Em).
    rewrite (rsi_gain_last close period m Em), window_mean_short.
    + reflexivity.
    + rewrite window_at_length; [lia |].
      unfold where_. rewrite length_map, diff_length. exact Em.
  - intros Hlen (g & l & Hg & Hl & Hg0 & Hl0).
    destruct (calculate_rsi_cases close period g l) as (_ & _ & H3);
      auto; try lra; lia.
Qed.

(** C5 as stated fails: on a flat series of 15 bars both rolling means
    are 0 and the value is NaN, not 100; on a series of 3 bars with
    period 14 the value is NaN, not 50; on 14 rising bars it is 100,
    not 50. *)
Lemma rsi_not_a_number :
  calculate_rsi (repeat 1 15) 14 = NaN /\
  (exists l, last (rsi_loss (repeat 1 15) 14) NaN = Fin l /\ l == 0) /\
  calculate_rsi [1; 2; 3] 14 = NaN /\
  calculate_rsi (map (fun n => inject_Z (Z.of_nat n)) (seq 1 14)) 14 = Fin 100.
Proof.
  split; [reflexivity | split; [| split; reflexivity]].
  eexists. split; reflexivity.
Qed.

End AnalyzerFacts.

(** * Properties of rounding *)

Module RoundFacts.

Import PyFacts.

Lemma round_half_even_lower (a : Z) (y : Q) :
  inject_Z a <= y -> (a <= Py.round_half_even y)%Z.
Proof.
  intro H. unfold Py.round_half_even.
  assert (Hf : (a <= Qfloor y)%Z).
  { rewrite <- (Qfloor_Z a). apply Qfloor_resp_le, H. }
  destruct (Qcompare (y - inject_Z (Qfloor y)) (1 # 2));
    [destruct (Z.even (Qfloor y)) | |]; lia.
Qed.

Lemma round_half_even_upper (b : Z) (y : Q) :
  y <= inject_Z b -> (Py.round_half_even y <= b)%Z.
Proof.
  intro H. unfold Py.round_half_even.
  assert (Hf : (Qfloor y <= b)%Z).
  { rewrite <- (Qfloor_Z b). apply Qfloor_resp_le, H. }
  assert (Hstep : inject_Z (Qfloor y) < y -> (Qfloor y + 1 <= b)%Z).
  { intro Hlt. assert (Hq : inject_Z (Qfloor y) < inject_Z b) by lra.
    rewrite <- Zlt_Qlt in Hq. lia. }
  destruct (Qcompare (y - inject_Z (Qfloor y)) (1 # 2)) eqn:E.
  - apply Qeq_alt in E. destruct (Z.even (Qfloor y)); [lia |].
    apply Hstep. lra.
  - exact Hf.
  - apply Qgt_alt in E. apply Hstep. lra.
Qed.

Lemma pow10_pos (n : nat) : 0 < inject_Z (10 ^ Z.of_nat n).
Proof.
  change 0 with (inject_Z 0). rewrite <- Zlt_Qlt.
  apply Z.pow_pos_nonneg; lia.
Qed.

(** Rounding never crosses an integer. *)
Lemma round_lower (a : Z) (x : Q) (n : nat) :
  inject_Z a <= x -> inject_Z a <= Py.round x n.
Proof.
  intro H. unfold Py.round. rewrite Qred_correct.
  pose proof (pow10_pos n) as Hs.
  apply Qle_shift_div_l; [exact Hs |].
  rewrite <- inject_Z_mult, <- Zle_Qle.
  apply round_half_even_lower. rewrite inject_Z_mult.
  apply Qmult_le_compat_r; [exact H | lra].
Qed.

Lemma round_upper (b : Z) (x : Q) (n : nat) :
  x <= inject_Z b -> Py.round x n <= inject_Z b.
Proof.
  intro H. unfold Py.round. rewrite Qred_correct.
  pose proof (pow10_pos n) as Hs.
  apply Qle_shift_div_r; [exact Hs |].
  rewrite <- inject_Z_mult, <- Zle_Qle.
  apply round_half_even_upper. rewrite inject_Z_mult.
  apply Qmult_le_compat_r; [exact H | lra].
Qed.

Lemma round_nonneg (x : Q) (n : nat) : 0 <= x -> 0 <= Py.round x n.
Proof. apply (round_lower 0). Qed.

Lemma round_nonpos (x : Q) (n : nat) : x <= 0 -> Py.round x n <= 0.
Proof. apply (round_upper 0). Qed.

(** Equal rationals round to the same value. *)
Lemma round_compat (x y : Q) (n : nat) : x == y -> Py.round x n = Py.round y n.
Proof.
  intro H. unfold Py.round. apply Qred_complete.
  assert (Hr : Py.round_half_even (x * inject_Z (10 ^ Z.of_nat n))
               = Py.round_half_even (y * inject_Z (10 ^ Z.of_nat n))).
  { unfold Py.round_half_even.
    assert (Hxy : x * inject_Z (10 ^ Z.of_nat n)
                  == y * inject_Z (10 ^ Z.of_nat n)) by (rewrite H; reflexivity).
    rewrite (Qfloor_comp _ _ Hxy).
    rewrite Hxy. reflexivity. }
  rewrite Hr. reflexivity.
Qed.

End RoundFacts.

(** * Properties of dicts *)

Module DictFacts.

Import PyMore.

Lemma lookup_set_item_same {A} (k : string) (v : A) (d : list (string * A)) :
  lookup k (set_item k v d) = Some v.
Proof.
  induction d as [| [k' v'] d IH]; cbn [set_item lookup].
  - rewrite String.eqb_refl. reflexivity.
  - destruct (k' =? k)%string eqn:E; cbn [lookup].
    + rewrite String.eqb_refl. reflexivity.
    + rewrite E. exact IH.
Qed.

Lemma lookup_set_item_other {A} (k k2 : string) (v : A)
    (d : list (string * A)) :
  k2 <> k -> lookup k2 (set_item k v d) = lookup k2 d.
Proof.
  intro Hne.
  assert (Hf : (k =? k2)%string = false) by (apply String.eqb_neq; congruence).
  induction d as [| [k' v'] d IH]; cbn [set_item lookup].
  - rewrite Hf. reflexivity.
  - destruct (k' =? k)%string eqn:E; cbn [lookup].
    + apply String.eqb_eq in E. subst k'. rewrite Hf. reflexivity.
    + rewrite IH. reflexivity.
Qed.

End DictFacts.

(** * Properties of the journal: identifiers, lookup, market close *)

Module JournalOpsFacts.

Import Journal PyMore JournalOps PyFacts JournalFacts.

(** *** Identifiers within one session *)

Lemma NoDup_snoc {A} (l : list A) (x : A) :
  NoDup l -> ~ In x l -> NoDup (l ++ [x]).
Proof.
  intros Hl Hx. induction l as [| a l IH]; simpl.
  - constructor; [intros [] | constructor].
  - inversion Hl as [| ? ? Ha Hl']; subst. constructor.
    + intro H. apply in_app_or in H as [H | [H | []]].
      * contradiction.
      * subst. apply Hx. left. reflexivity.
    + apply IH; [exact Hl' |]. intro H. apply Hx. right. exact H.
Qed.

Lemma close_trade_counter j tid now x r :
  trade_counter (snd (close_trade j tid now x r)) = trade_counter j.
Proof.
  unfold close_trade.
  destruct (close_first (trades j) tid now x r) as [[t' ts'] |]; reflexivity.
Qed.

Lemma session_ids_nodup (b0 : Q) (ops : list Op) :
  NoDup (map id (trades (run (init None None b0) ops))).
Proof.
  pose proof (ids_below_counter b0 ops) as Hb. revert Hb.
  unfold run. rewrite <- (rev_involutive ops).
  induction (List.rev ops) as [| op rops IH]; simpl.
  - intros _. constructor.
  - rewrite fold_left_app. simpl. intros _.
    pose proof (ids_below_counter b0 (List.rev rops)) as Hb.
    unfold run in Hb. specialize (IH Hb).
    set (j := fold_left step (List.rev rops) (init None None b0)) in *.
    destruct op as [now p d e i l | tid now x r | b]; simpl.
    + rewrite map_app. apply NoDup_snoc; [exact IH |].
      simpl. intro Hin. rewrite Forall_forall in Hb.
      destruct (Hb _ Hin) as (k & Hk & Heq).
      apply trade_id_of_inj in Heq. lia.
    + rewrite close_trade_ids. exact IH.
    + constructor.
Qed.

Lemma step_counter (j : TradingJournal) (op : Op) :
  (trade_counter j <= trade_counter (step j op))%nat.
Proof.
  destruct op as [now p d e i l | tid now x r | b]; simpl.
  - lia.
  - rewrite close_trade_counter. lia.
  - lia.
Qed.

Lemma issued_ids_from_counter (ops : list Op) :
  forall j,
    Forall (fun i => exists k, (trade_counter j <= k)%nat /\ i = trade_id_of k)
      (issued_ids j ops).
Proof.
  induction ops as [| op ops IH]; intro j; simpl.
  - constructor.
  - assert (Hrest : Forall
              (fun i => exists k, (trade_counter j <= k)%nat /\ i = trade_id_of k)
              (issued_ids (step j op) ops)).
    { apply Forall_impl with (2 := IH (step j op)).
      intros i (k & Hk & ->). exists k. split; [| reflexivity].
      pose proof (step_counter j op). lia. }
    destruct op as [now p d e i l | tid now x r | b]; try exact Hrest.
    constructor; [| exact Hrest].
    exists (trade_counter j). split; [lia | reflexivity].
Qed.

(** X1. The ids [open_trade] returns during a run of journal
    operations are pairwise distinct, whatever journal the run starts
    from and also across resets: [reset] keeps the counter. *)
Theorem issued_ids_distinct (j : TradingJournal) (ops : list Op) :
  NoDup (issued_ids j ops).
Proof.
  revert j. induction ops as [| op ops IH]; intro j; simpl.
  - constructor.
  - destruct op as [now p d e i l | tid now x r | b]; try apply IH.
    constructor; [| apply IH].
    intro Hin.
    pose proof (issued_ids_from_counter ops
                  (step j (OpOpen now p d e i l))) as H.
    rewrite Forall_forall in H. destruct (H _ Hin) as (k & Hk & Heq).
    simpl in Hk, Heq. apply trade_id_of_inj in Heq. lia.
Qed.

(** *** Lookup *)

Lemma find_app_none {A} (f : A -> bool) (l1 l2 : list A) :
  find f l1 = None -> find f (l1 ++ l2) = find f l2.
Proof.
  induction l1 as [| a l1 IH]; simpl; [reflexivity |].
  destruct (f a); [discriminate | exact IH].
Qed.

Lemma find_app_some {A} (f : A -> bool) (l1 l2 : list A) (x : A) :
  find f l1 = Some x -> find f (l1 ++ l2) = Some x.
Proof.
  induction l1 as [| a l1 IH]; simpl; [discriminate |].
  destruct (f a); [auto | exact IH].
Qed.

Lemma find_id_none (ts : list Trade) (tid : string) :
  ~ In tid (map id ts) -> find (fun t => (id t =? tid)%string) ts = None.
Proof.
  induction ts as [| t ts IH]; simpl; intro H; [reflexivity |].
  destruct (String.eqb_spec (id t) tid) as [E | E].
  - exfalso. apply H. left. exact E.
  - apply IH. intro Hin. apply H. right. exact Hin.
Qed.

Lemma next_id_unused (b0 : Q) (ops : list Op) :
  let j := run (init None None b0) ops in
  ~ In (trade_id_of (trade_counter j)) (map id (trades j)).
Proof.
  intros j Hin. pose proof (ids_below_counter b0 ops) as H.
  rewrite Forall_forall in H. destruct (H _ Hin) as (k & Hk & Heq).
  apply trade_id_of_inj in Heq. fold j in Hk. lia.
Qed.

(** X2. Open then look up: in every journal reached from a fresh one,
    [get_trade] on the id [open_trade] returned gives the trade just
    opened, and the lookup of every other id is as before. *)
Theorem open_then_get_trade (b0 : Q) (ops : list Op) (now p d : string)
    (e : Q) (info : SignalInfo) (l : Q) (other : string) :
  let j := run (init None None b0) ops in
  let opened := open_trade j now p d e info l in
  get_trade (snd opened) (fst opened)
  = Some (new_trade (trade_id_of (trade_counter j)) now p d e info l) /\
  (other <> fst opened -> get_trade (snd opened) other = get_trade j other).
Proof.
  intros j opened. unfold get_trade, opened, open_trade. cbn [fst snd trades].
  split.
  - rewrite find_app_none.
    + cbn [find new_trade id]. rewrite String.eqb_refl. reflexivity.
    + apply find_id_none, next_id_unused.
  - intro Hne.
    destruct (find (fun t => (id t =? other)%string) (trades j)) as [t |] eqn:E.
    + apply find_app_some, E.
    + rewrite find_app_none by exact E. cbn [find new_trade id].
      destruct (String.eqb_spec (trade_id_of (trade_counter j)) other) as [H | H].
      * exfalso. apply Hne. symmetry. exact H.
      * reflexivity.
Qed.

Lemma close_first_app_skip l1 t l2 tid now x r :
  (forall u, In u l1 -> (id u =? tid)%string && is_open u = false) ->
  id t = tid -> is_open t = true ->
  close_first (l1 ++ t :: l2) tid now x r
  = Some (close_fields t now x r, l1 ++ close_fields t now x r :: l2).
Proof.
  intros H Hid Ho. induction l1 as [| v l1 IH]; simpl.
  - rewrite Hid, String.eqb_refl, Ho. reflexivity.
  - rewrite (H v (or_introl eq_refl)), IH; [reflexivity |].
    intros u Hu. apply H. right. exact Hu.
Qed.


Lemma not_in_map_id (ts : list Trade) (tid : string) :
  ~ In tid (map id ts) ->
  forall u, In u ts -> (id u =? tid)%string && is_open u = false.
Proof.
  intros H u Hu. apply andb_false_intro1, String.eqb_neq.
  intro E. apply H. rewrite <- E. apply in_map, Hu.
Qed.

Lemma NoDup_map_split (ts : list Trade) l1 u l2 :
  NoDup (map id ts) -> ts = l1 ++ u :: l2 ->
  ~ In (id u) (map id l1) /\ ~ In (id u) (map id l2).
Proof.
  intros H ->. rewrite map_app in H. simpl in H.
  pose proof (NoDup_remove_2 _ _ _ H) as Hn.
  split; intro Hin; apply Hn, in_or_app; auto.
Qed.

(** X3. Close then look up.  When the ids of the journal are distinct
    (as in every journal reached from a fresh one) and [close_trade]
    closes a trade, [get_trade] on that id gives the closed trade, with
    the exit price and reason of the call, and every further
    [close_trade] on the id returns nothing and leaves the journal as
    it is. *)
Theorem close_then_get_trade (j : TradingJournal) (tid now reason : string)
    (x : Q) (c : Trade) :
  NoDup (map id (trades j)) ->
  fst (close_trade j tid now x reason) = Some c ->
  let j' := snd (close_trade j tid now x reason) in
  get_trade j' tid = Some c /\
  status c = "CLOSED"%string /\
  exit_price c = Some x /\ exit_reason c = Some reason /\
  forall now' reason' x',
    close_trade j' tid now' x' reason' = (None, j').
Proof.
  intros Hnd Hc j'. unfold j', close_trade in *.
  destruct (close_first (trades j) tid now x reason) as [[c' ts'] |] eqn:E;
    [| discriminate].
  cbn [fst snd] in *. injection Hc as ->.
  apply close_first_split in E as (l1 & u & l2 & E1 & -> & -> & Hid & Ho).
  destruct (NoDup_map_split _ _ _ _ Hnd E1) as [H1 H2]. rewrite Hid in H1, H2.
  split; [| repeat split].
  - unfold get_trade. cbn [trades].
    rewrite find_app_none by (apply find_id_none, H1).
    cbn [find close_fields id]. rewrite Hid, String.eqb_refl. reflexivity.
  - intros now' reason' x'. cbn [trades].
    rewrite close_first_none; [reflexivity |].
    intros t Ht. apply in_app_or in Ht as [Ht | [<- | Ht]].
    + apply (not_in_map_id l1 tid H1), Ht.
    + rewrite is_open_close_fields. apply andb_false_r.
    + apply (not_in_map_id l2 tid H2), Ht.
Qed.

Lemma close_then_get_trade_witness :
  let j := journal_with_open_buy in
  let c := close_fields (new_trade "TR0002" "t0" "EURUSD" "BUY" (11 # 10) []
                           (1 # 100)) "t1" (12 # 10) "MANUAL" in
  let j' := snd (close_trade j "TR0002" "t1" (12 # 10) "MANUAL") in
  get_trade j' "TR0002" = Some c /\
  status c = "CLOSED"%string /\
  exit_price c = Some (12 # 10) /\ exit_reason c = Some "MANUAL"%string /\
  forall now' reason' x',
    close_trade j' "TR0002" now' x' reason' = (None, j').
Proof.
  apply (close_then_get_trade journal_with_open_buy "TR0002" "t1" "MANUAL"
           (12 # 10)).
  - repeat constructor. intros [].
  - reflexivity.
Defined.

(** *** The history is append-only *)

Lemma history_kept_refl j : history_kept j j.
Proof. split; [lia | auto]. Qed.

Lemma history_kept_trans j1 j2 j3 :
  history_kept j1 j2 -> history_kept j2 j3 -> history_kept j1 j3.
Proof.
  intros [L1 H1] [L2 H2]. split; [lia |]. intros i t Hi Ho.
  apply H2; [apply H1; assumption | exact Ho].
Qed.

Lemma close_trade_kept j tid now x r :
  history_kept j (snd (close_trade j tid now x r)).
Proof.
  unfold close_trade.
  destruct (close_first (trades j) tid now x r) as [[c ts'] |] eqn:E;
    cbn [snd]; [| apply history_kept_refl].
  apply close_first_split in E as (l1 & u & l2 & E1 & -> & -> & Hid & Ho).
  split; cbn [trades].
  - rewrite E1, !length_app. simpl. lia.
  - intros i t Hi Hno. rewrite E1 in Hi.
    destruct (Nat.lt_ge_cases i (length l1)) as [Hlt | Hge].
    + rewrite nth_error_app1 in * by exact Hlt. exact Hi.
    + rewrite nth_error_app2 in * by exact Hge.
      destruct (i - length l1)%nat as [| k]; simpl in *.
      * injection Hi as <-. congruence.
      * exact Hi.
Qed.

Lemma open_trade_kept j now p d e info l :
  history_kept j (snd (open_trade j now p d e info l)).
Proof.
  split; cbn [open_trade snd trades].
  - rewrite length_app. lia.
  - intros i t Hi _. rewrite nth_error_app1; [exact Hi |].
    apply nth_error_Some. congruence.
Qed.

Lemma fold_close_kept (f : Trade -> bool) now price reason (l : list Trade) :
  forall j,
    history_kept j
      (fold_left
         (fun j' t =>
            if f t then snd (close_trade j' (id t) now price reason) else j')
         l j).
Proof.
  induction l as [| t l IH]; intro j; simpl.
  - apply history_kept_refl.
  - eapply history_kept_trans; [| apply IH].
    destruct (f t); [apply close_trade_kept | apply history_kept_refl].
Qed.

Lemma reverse_and_open_kept j now p same opposite price info :
  history_kept j (snd (reverse_and_open j now p same opposite price info)).
Proof.
  unfold reverse_and_open.
  destruct (negb (existsb _ (open_on p j))); cbn [snd].
  - eapply history_kept_trans; [apply fold_close_kept |].
    apply open_trade_kept.
  - apply fold_close_kept.
Qed.

Lemma on_signal_kept j now p sig price info :
  history_kept j (snd (on_signal j now p sig price info)).
Proof.
  destruct (String.eqb_spec sig "BUY") as [-> | Hb].
  { rewrite on_signal_buy. apply reverse_and_open_kept. }
  destruct (String.eqb_spec sig "SELL") as [-> | Hs].
  { rewrite on_signal_sell. apply reverse_and_open_kept. }
  destruct (String.eqb_spec sig "HOLD") as [-> | Hh].
  { apply history_kept_refl. }
  rewrite on_signal_other by assumption. apply history_kept_refl.
Qed.

Lemma close_all_loop_kept n :
  forall i j now prices closed,
    history_kept j (snd (close_all_loop n i j now prices closed)).
Proof.
  induction n as [| n IH]; intros i j now prices closed; simpl.
  - apply history_kept_refl.
  - destruct (nth_error (trades j) i) as [t |]; [| apply history_kept_refl].
    destruct (if is_open t then lookup (pair t) prices else None) as [px |].
    + destruct (close_trade j (id t) now px "MARKET_CLOSE") as [res j1] eqn:E.
      eapply history_kept_trans; [| apply IH].
      replace j1 with (snd (close_trade j (id t) now px "MARKET_CLOSE"))
        by (rewrite E; reflexivity).
      apply close_trade_kept.
    + apply IH.
Qed.

(** X4. The history is append-only and a closed trade is immutable:
    [open_trade], [close_trade], [on_signal] and [close_all_at_market]
    never remove a trade and never change a trade that is not OPEN. *)
Theorem history_append_only (j : TradingJournal) :
  (forall now p d e info l,
     history_kept j (snd (open_trade j now p d e info l))) /\
  (forall tid now x r, history_kept j (snd (close_trade j tid now x r))) /\
  (forall now p sig price info,
     history_kept j (snd (on_signal j now p sig price info))) /\
  (forall now prices, history_kept j (snd (close_all_at_market j now prices))).
Proof.
  split; [| split; [| split]]; intros.
  - apply open_trade_kept.
  - apply close_trade_kept.
  - apply on_signal_kept.
  - apply close_all_loop_kept.
Qed.

(** *** A journal restarted on stored trades *)



(** *** Profit and loss *)

Import RoundFacts.

(** X6. The sign of the result follows the price move: with a
    non-negative lot size, a BUY trade closed at or above its entry
    price has non-negative pips and pnl, closed at or below it
    non-positive ones; for any other direction (SELL) it is the other
    way round. *)
Theorem pnl_sign (t : Trade) (now reason : string) (x : Q) :
  0 <= lot_size t ->
  let c := close_fields t now x reason in
  (direction t = "BUY"%string ->
   (entry_price t <= x -> 0 <= pips c /\ 0 <= pnl c) /\
   (x <= entry_price t -> pips c <= 0 /\ pnl c <= 0)) /\
  (direction t <> "BUY"%string ->
   (x <= entry_price t -> 0 <= pips c /\ 0 <= pnl c) /\
   (entry_price t <= x -> pips c <= 0 /\ pnl c <= 0)).
Proof.
  intros Hl c. unfold c, close_fields. cbn [pips pnl]. split; intro Hd.
  - rewrite Hd. cbn [String.eqb Ascii.eqb Bool.eqb]. split; intro Hx.
    + assert (Hp : 0 <= Py.round ((x - entry_price t) * 10000) 1)
        by (apply round_nonneg; nra).
      split; [exact Hp | apply round_nonneg; nra].
    + assert (Hp : Py.round ((x - entry_price t) * 10000) 1 <= 0)
        by (apply round_nonpos; nra).
      split; [exact Hp | apply round_nonpos; nra].
  - apply String.eqb_neq in Hd. rewrite Hd. split; intro Hx.
    + assert (Hp : 0 <= Py.round ((entry_price t - x) * 10000) 1)
        by (apply round_nonneg; nra).
      split; [exact Hp | apply round_nonneg; nra].
    + assert (Hp : Py.round ((entry_price t - x) * 10000) 1 <= 0)
        by (apply round_nonpos; nra).
      split; [exact Hp | apply round_nonpos; nra].
Qed.

Lemma pnl_sign_witness :
  let t := new_trade "TR0002" "t0" "EURUSD" "BUY" (11 # 10) [] (1 # 100) in
  let c := close_fields t "t1" (12 # 10) "TP" in
  (direction t = "BUY"%string ->
   (entry_price t <= 12 # 10 -> 0 <= pips c /\ 0 <= pnl c) /\
   (12 # 10 <= entry_price t -> pips c <= 0 /\ pnl c <= 0)) /\
  (direction t <> "BUY"%string ->
   (12 # 10 <= entry_price t -> 0 <= pips c /\ 0 <= pnl c) /\
   (entry_price t <= 12 # 10 -> pips c <= 0 /\ pnl c <= 0)).
Proof.
  apply (pnl_sign (new_trade "TR0002" "t0" "EURUSD" "BUY" (11 # 10) []
                     (1 # 100)) "t1" "TP" (12 # 10)).
  simpl. lra.
Defined.

(** *** A repeated signal *)

Lemma snd_some_pair {A B} (p : A * B) :
  snd (let (a, b) := p in (Some a, b)) = snd p.
Proof. destruct p; reflexivity. Qed.

Lemma reverse_and_open_one_open j now p same opposite price info :
  open_ok j ->
  (same = "BUY"%string /\ opposite = "SELL"%string) \/
  (same = "SELL"%string /\ opposite = "BUY"%string) ->
  exists t,
    open_on p (snd (reverse_and_open j now p same opposite price info)) = [t] /\
    direction t = same.
Proof.
  intros Hok Hso.
  assert (Hne : (same =? opposite)%string = false).
  { destruct Hso as [[-> ->] | [-> ->]]; reflexivity. }
  unfold reverse_and_open.
  destruct (open_on p j) as [| t [| t2 rest]] eqn:Ep.
  - cbn [fold_left existsb negb snd]. eexists. split.
    + unfold open_on. rewrite snd_some_pair, open_trade_open_list, filter_app.
      fold (open_on p j). rewrite Ep. cbn [app filter new_trade pair].
      rewrite String.eqb_refl. reflexivity.
    + reflexivity.
  - assert (Hin : In t (open_on p j)) by (rewrite Ep; left; reflexivity).
    unfold open_on in Hin. apply filter_In in Hin as [Hin Hpt].
    apply String.eqb_eq in Hpt. subst p.
    assert (Hdir : direction t = same \/ direction t = opposite).
    { destruct (ok_direction j Hok t Hin) as [Hd | Hd];
        destruct Hso as [[-> ->] | [-> ->]]; auto. }
    cbn [fold_left existsb]. destruct Hdir as [Hd | Hd]; rewrite Hd.
    + rewrite Hne, String.eqb_refl. cbn [orb negb snd].
      exists t. split; [exact Ep | exact Hd].
    + rewrite String.eqb_refl. rewrite String.eqb_sym, Hne. cbn [orb negb snd].
      destruct (close_only_open j now price "REVERSED" t Hok Ep) as [_ Hnone].
      eexists. split.
      * unfold open_on. rewrite snd_some_pair, open_trade_open_list, filter_app.
        fold (open_on (pair t)
                (snd (close_trade j (id t) now price "REVERSED"))).
        rewrite Hnone. cbn [app filter new_trade pair].
        rewrite String.eqb_refl. reflexivity.
      * reflexivity.
  - pose proof (ok_one_per_pair j Hok p) as Hlen. rewrite Ep in Hlen.
    simpl in Hlen. lia.
Qed.

Lemma reverse_and_open_again j now p same opposite price info t :
  open_on p j = [t] -> direction t = same ->
  (same =? opposite)%string = false ->
  reverse_and_open j now p same opposite price info = (None, j).
Proof.
  intros Ep Hd Hne. unfold reverse_and_open. rewrite Ep.
  cbn [fold_left existsb]. rewrite Hd, Hne, String.eqb_refl. reflexivity.
Qed.

(** X8. A repeated signal opens no second position: in a journal
    reached by [on_signal] calls from one with no OPEN trade, after a
    BUY (or SELL) signal on a pair, a further BUY (or SELL) signal on
    that pair, at whatever time and price, returns no id and leaves the
    journal as it is. *)
Theorem repeated_signal_is_noop (j0 : TradingJournal) (calls : list SignalCall)
    (now p sig : string) (price : Q) (info : SignalInfo) :
  get_open_trades j0 = [] ->
  sig = "BUY"%string \/ sig = "SELL"%string ->
  let j1 := snd (on_signal (on_signals j0 calls) now p sig price info) in
  forall now' price' info',
    on_signal j1 now' p sig price' info' = (None, j1).
Proof.
  intros H0 Hsig j1 now' price' info'.
  assert (Hok : open_ok (on_signals j0 calls))
    by (apply on_signals_ok, open_ok_no_open, H0).
  destruct Hsig as [-> | ->].
  - unfold j1. rewrite !on_signal_buy.
    destruct (reverse_and_open_one_open (on_signals j0 calls) now p
                "BUY" "SELL" price info Hok) as (t & Ep & Hd); [auto |].
    apply (reverse_and_open_again _ now' p "BUY" "SELL" price' info' t Ep Hd).
    reflexivity.
  - unfold j1. rewrite !on_signal_sell.
    destruct (reverse_and_open_one_open (on_signals j0 calls) now p
                "SELL" "BUY" price info Hok) as (t & Ep & Hd); [auto |].
    apply (reverse_and_open_again _ now' p "SELL" "BUY" price' info' t Ep Hd).
    reflexivity.
Qed.

Lemma repeated_signal_is_noop_witness :
  let j1 :=
    snd (on_signal (on_signals (init None None 10000) []) "t0" "EURUSD" "BUY"
           (11 # 10) []) in
  on_signal j1 "t1" "EURUSD" "BUY" (12 # 10) [] = (None, j1).
Proof.
  apply (repeated_signal_is_noop (init None None 10000) [] "t0" "EURUSD" "BUY"
           (11 # 10) []).
  - reflexivity.
  - left. reflexivity.
Defined.

(** *** Closing at market *)

Lemma market_closed_id now prices t : id (market_closed now prices t) = id t.
Proof.
  unfold market_closed. destruct (is_open t); [| reflexivity].
  destruct (lookup (pair t) prices); reflexivity.
Qed.

Lemma market_closed_open now prices t :
  is_open (market_closed now prices t) = true ->
  is_open t = true /\ market_closed now prices t = t.
Proof.
  unfold market_closed. destruct (is_open t) eqn:Ho; [| congruence].
  destruct (lookup (pair t) prices).
  - rewrite is_open_close_fields. discriminate.
  - auto.
Qed.

(** The loop from position [length pre], when the trades before it
    have been dealt with. *)
Lemma close_all_loop_spec now prices (post : list Trade) :
  forall (pre : list Trade) (b : Q) (n : nat) (closed : list string),
    NoDup (map id (filter is_open (pre ++ post))) ->
    close_all_loop (length post) (length pre)
      {| trades := map (market_closed now prices) pre ++ post;
         balance := b; trade_counter := n |} now prices closed
    = (closed ++ map id (filter (open_and_priced prices) post),
       {| trades := map (market_closed now prices) (pre ++ post);
          balance :=
            fold_left
              (fun b' t =>
                 if open_and_priced prices t
                 then b' + pnl (market_closed now prices t) else b')
              post b;
          trade_counter := n |}).
Proof.
  induction post as [| t post IH]; intros pre b n closed Hnd.
  - simpl. rewrite !app_nil_r. reflexivity.
  - cbn [length close_all_loop trades].
    rewrite nth_error_app2 by (rewrite length_map; lia).
    rewrite length_map, Nat.sub_diag. cbn [nth_error].
    assert (Hpre : map (market_closed now prices) pre ++ t :: post
                   = map (market_closed now prices) pre ++ [t] ++ post)
      by reflexivity.
    assert (Hnd' : NoDup (map id (filter is_open ((pre ++ [t]) ++ post))))
      by (rewrite <- app_assoc; exact Hnd).
    specialize (IH (pre ++ [t])).
    rewrite length_app, Nat.add_1_r, map_app in IH. cbn [map] in IH.
    rewrite <- !app_assoc in IH. cbn [app] in IH.
    cbn [filter fold_left map].
    destruct (is_open t) eqn:Ho.
    + destruct (lookup (pair t) prices) as [px |] eqn:El.
      * assert (Hg : market_closed now prices t
                     = close_fields t now px "MARKET_CLOSE")
          by (unfold market_closed; rewrite Ho, El; reflexivity).
        assert (Hop : open_and_priced prices t = true)
          by (unfold open_and_priced; rewrite Ho, El; reflexivity).
        rewrite Hop. cbn [map].
        unfold close_trade. cbn [trades balance trade_counter].
        rewrite close_first_app_skip; [| | reflexivity | exact Ho].
        -- cbn [fst snd]. rewrite <- Hg.
           rewrite (IH _ _ _ Hnd). rewrite <- app_assoc. reflexivity.
        -- intros u Hu. apply in_map_iff in Hu as (u0 & <- & Hu0).
           rewrite market_closed_id.
           destruct (is_open (market_closed now prices u0)) eqn:Hou;
             [| apply andb_false_r].
           apply market_closed_open in Hou as [Hou _].
           rewrite andb_true_r. apply String.eqb_neq. intro Heq.
           rewrite filter_app, map_app in Hnd. cbn [filter] in Hnd.
           rewrite Ho in Hnd. cbn [map] in Hnd.
           apply NoDup_remove_2 in Hnd. apply Hnd, in_or_app. left.
           rewrite <- Heq. apply in_map, filter_In. auto.
      * assert (Hg : market_closed now prices t = t)
          by (unfold market_closed; rewrite Ho, El; reflexivity).
        assert (Hop : open_and_priced prices t = false)
          by (unfold open_and_priced; rewrite Ho, El; reflexivity).
        rewrite Hop. rewrite <- Hg at 1. rewrite (IH _ _ _ Hnd). reflexivity.
    + assert (Hg : market_closed now prices t = t)
        by (unfold market_closed; rewrite Ho; reflexivity).
      assert (Hop : open_and_priced prices t = false)
        by (unfold open_and_priced; rewrite Ho; reflexivity).
      rewrite Hop. rewrite <- Hg at 1. rewrite (IH _ _ _ Hnd). reflexivity.
Qed.

(** X9. When the OPEN trades have distinct ids, [close_all_at_market]
    closes exactly the OPEN trades whose pair has a price, each at the
    price of its pair with reason MARKET_CLOSE, leaves every other
    trade as it is, adds the pnl of each to the balance, and returns
    their ids in the order of the journal; afterwards no OPEN trade has
    a priced pair. *)
Theorem close_all_at_market_spec (j : TradingJournal) (now : string)
    (prices : list (string * Q)) :
  NoDup (map id (get_open_trades j)) ->
  close_all_at_market j now prices
  = (map id (filter (open_and_priced prices) (trades j)),
     {| trades := map (market_closed now prices) (trades j);
        balance :=
          fold_left
            (fun b t =>
               if open_and_priced prices t
               then b + pnl (market_closed now prices t) else b)
            (trades j) (balance j);
        trade_counter := trade_counter j |}) /\
  forall t,
    In t (get_open_trades (snd (close_all_at_market j now prices))) ->
    lookup (pair t) prices = None.
Proof.
  intro Hnd.
  assert (E : close_all_at_market j now prices
              = (map id (filter (open_and_priced prices) (trades j)),
                 {| trades := map (market_closed now prices) (trades j);
                    balance :=
                      fold_left
                        (fun b t =>
                           if open_and_priced prices t
                           then b + pnl (market_closed now prices t) else b)
                        (trades j) (balance j);
                    trade_counter := trade_counter j |})).
  { unfold close_all_at_market.
    pose proof (close_all_loop_spec now prices (trades j) [] (balance j)
                  (trade_counter j) [] Hnd) as H.
    cbn [length map app] in H. destruct j as [ts b n]. exact H. }
  split; [exact E |].
  intros t Ht. rewrite E in Ht. unfold get_open_trades in Ht.
  cbn [snd trades] in Ht. apply filter_In in Ht as [Hin Ho].
  apply in_map_iff in Hin as (u & <- & _).
  apply market_closed_open in Ho as [Ho Hg]. rewrite Hg.
  unfold market_closed in Hg. rewrite Ho in Hg.
  destruct (lookup (pair u) prices) as [px |]; [| reflexivity].
  exfalso. rewrite <- Hg in Ho. rewrite is_open_close_fields in Ho.
  discriminate.
Qed.

Lemma close_all_at_market_spec_witness :
  let j := journal_with_two_open in
  let prices := [("EURUSD"%string, 12 # 10)] in
  close_all_at_market j "t2" prices
  = (map id (filter (open_and_priced prices) (trades j)),
     {| trades := map (market_closed "t2" prices) (trades j);
        balance :=
          fold_left
            (fun b t =>
               if open_and_priced prices t
               then b + pnl (market_closed "t2" prices t) else b)
            (trades j) (balance j);
        trade_counter := trade_counter j |}) /\
  forall t,
    In t (get_open_trades (snd (close_all_at_market j "t2" prices))) ->
    lookup (pair t) prices = None.
Proof.
  apply (close_all_at_market_spec journal_with_two_open "t2"
           [("EURUSD"%string, 12 # 10)]).
  repeat constructor; simpl; intuition discriminate.
Defined.

(** *** Statistics *)

Lemma filter_disjoint_length {A} (f g : A -> bool) (l : list A) :
  (forall x, f x = true -> g x = false) ->
  (length (filter f l) + length (filter g l) <= length l)%nat.
Proof.
  intro H. induction l as [| a l IH]; simpl; [lia |].
  destruct (f a) eqn:Ef.
  - rewrite (H a Ef). simpl. lia.
  - destruct (g a); simpl; lia.
Qed.

Lemma filter_length_le {A} (f : A -> bool) (l : list A) :
  (length (filter f l) <= length l)%nat.
Proof.
  induction l as [| a l IH]; simpl; [lia |]. destruct (f a); simpl; lia.
Qed.

(** X10. The counts of [get_stats]: the closed and the OPEN trades are
    counted apart and together are at most the journal, wins and losses
    are at most the closed trades, and the win rate lies between 0 and
    100.  With no closed trade the counts, the win rate and the total
    are 0, there is no best or worst trade, and the balance is reported
    as it is, unrounded. *)
Theorem get_stats_counts (j : TradingJournal) :
  let s := get_stats j in
  total_trades s = length (get_closed_trades j) /\
  open_trades s = length (get_open_trades j) /\
  (total_trades s + open_trades s <= length (trades j))%nat /\
  (wins s + losses s <= total_trades s)%nat /\
  0 <= win_rate s /\ win_rate s <= 100 /\
  (get_closed_trades j = [] ->
   s = {| total_trades := 0; wins := 0; losses := 0; win_rate := 0;
          total_pnl := 0; open_trades := length (get_open_trades j);
          stats_balance := balance j;
          best_trade := None; worst_trade := None |}).
Proof.
  intro s. unfold s, get_stats.
  assert (Hoc : (length (get_closed_trades j) + length (get_open_trades j)
                 <= length (trades j))%nat).
  { unfold get_closed_trades, get_open_trades.
    apply filter_disjoint_length. intros t Ht.
    destruct (is_open t) eqn:Ho; [| reflexivity].
    apply is_open_not_closed in Ho. congruence. }
  destruct (get_closed_trades j) as [| c cs] eqn:Ec.
  - cbn [total_trades open_trades wins losses win_rate length Nat.add].
    simpl in Hoc. repeat split; try lia; try lra.
  - cbn [total_trades open_trades wins losses win_rate].
    remember (c :: cs) as closed eqn:Hcl.
    assert (Hn : (1 <= length closed)%nat) by (rewrite Hcl; simpl; lia).
    assert (Hwl : (length (filter (fun t => Py.Qltb 0 (pnl t)) closed)
                   + length (filter (fun t => Py.Qltb (pnl t) 0) closed)
                   <= length closed)%nat).
    { apply filter_disjoint_length. intros t Ht.
      apply Qltb_lt in Ht. apply Qltb_ge. lra. }
    pose proof (filter_length_le (fun t => Py.Qltb 0 (pnl t)) closed) as Hw.
    assert (HnQ : 0 < inject_Z (Z.of_nat (length closed))).
    { change 0 with (inject_Z 0). rewrite <- Zlt_Qlt. lia. }
    assert (HwQ : inject_Z (Z.of_nat (length
                     (filter (fun t => Py.Qltb 0 (pnl t)) closed)))
                  <= inject_Z (Z.of_nat (length closed))).
    { rewrite <- Zle_Qle. lia. }
    assert (Hw0 : 0 <= inject_Z (Z.of_nat (length
                     (filter (fun t => Py.Qltb 0 (pnl t)) closed)))).
    { change 0 with (inject_Z 0). rewrite <- Zle_Qle. lia. }
    split; [reflexivity |]. split; [reflexivity |].
    split; [exact Hoc |]. split; [exact Hwl |].
    split; [| split].
    + apply (round_lower 0).
      apply Qmult_le_0_compat; [| lra].
      apply Qle_shift_div_l; [exact HnQ | lra].
    + apply (round_upper 100).
      change (inject_Z 100) with (1 * 100).
      apply Qmult_le_compat_r; [| lra].
      apply Qle_shift_div_r; [exact HnQ | lra].
    + rewrite Hcl. discriminate.
Qed.

Lemma max_by_pnl_spec (x : Trade) (r : list Trade) :
  In (max_by_pnl x r) (x :: r) /\
  forall t, In t (x :: r) -> pnl t <= pnl (max_by_pnl x r).
Proof.
  unfold max_by_pnl. revert x. induction r as [| y r IH]; intro x; simpl.
  - split; [auto |]. intros t [<- | []]. lra.
  - destruct (Py.Qltb (pnl x) (pnl y)) eqn:E.
    + apply Qltb_lt in E. destruct (IH y) as [Hin Hmax]. split.
      * right. exact Hin.
      * intros t [<- | Ht]; [| apply Hmax, Ht].
        specialize (Hmax y (or_introl eq_refl)). lra.
    + apply Qltb_ge in E. destruct (IH x) as [Hin Hmax]. split.
      * destruct Hin as [Hin | Hin]; [left; exact Hin | right; right; exact Hin].
      * intros t [<- | [<- | Ht]].
        -- apply Hmax. left. reflexivity.
        -- specialize (Hmax x (or_introl eq_refl)). lra.
        -- apply Hmax. right. exact Ht.
Qed.

Lemma min_by_pnl_spec (x : Trade) (r : list Trade) :
  In (min_by_pnl x r) (x :: r) /\
  forall t, In t (x :: r) -> pnl (min_by_pnl x r) <= pnl t.
Proof.
  unfold min_by_pnl. revert x. induction r as [| y r IH]; intro x; simpl.
  - split; [auto |]. intros t [<- | []]. lra.
  - destruct (Py.Qltb (pnl y) (pnl x)) eqn:E.
    + apply Qltb_lt in E. destruct (IH y) as [Hin Hmin]. split.
      * right. exact Hin.
      * intros t [<- | Ht]; [| apply Hmin, Ht].
        specialize (Hmin y (or_introl eq_refl)). lra.
    + apply Qltb_ge in E. destruct (IH x) as [Hin Hmin]. split.
      * destruct Hin as [Hin | Hin]; [left; exact Hin | right; right; exact Hin].
      * intros t [<- | [<- | Ht]].
        -- apply Hmin. left. reflexivity.
        -- specialize (Hmin x (or_introl eq_refl)). lra.
        -- apply Hmin. right. exact Ht.
Qed.

(** X11. As soon as one trade is closed, [get_stats] names a best and
    a worst trade: both are closed trades of the journal, and the pnl
    of every closed trade lies between theirs. *)
Theorem get_stats_best_worst (j : TradingJournal) :
  get_closed_trades j <> [] ->
  exists best worst,
    best_trade (get_stats j) = Some best /\
    worst_trade (get_stats j) = Some worst /\
    In best (get_closed_trades j) /\ In worst (get_closed_trades j) /\
    forall t, In t (get_closed_trades j) ->
              pnl worst <= pnl t /\ pnl t <= pnl best.
Proof.
  intro Hne. unfold get_stats.
  destruct (get_closed_trades j) as [| c cs]; [congruence |].
  destruct (max_by_pnl_spec c cs) as [Hbi Hb].
  destruct (min_by_pnl_spec c cs) as [Hwi Hw].
  exists (max_by_pnl c cs), (min_by_pnl c cs). cbn [best_trade worst_trade].
  repeat split; auto.
Qed.

Lemma get_stats_best_worst_witness :
  let j := snd (close_trade journal_with_two_open "TR0002" "t2" (12 # 10) "TP") in
  exists best worst,
    best_trade (get_stats j) = Some best /\
    worst_trade (get_stats j) = Some worst /\
    In best (get_closed_trades j) /\ In worst (get_closed_trades j) /\
    forall t, In t (get_closed_trades j) ->
              pnl worst <= pnl t /\ pnl t <= pnl best.
Proof.
  apply (get_stats_best_worst
           (snd (close_trade journal_with_two_open "TR0002" "t2" (12 # 10) "TP"))).
  discriminate.
Defined.

End JournalOpsFacts.

(** * Properties of the price position and the signal *)

Module ScoringFacts.

Import Py PyMore Analyzer Scoring PyFacts AnalyzerFacts.

(** *** The signal *)

Lemma score_trend_ok strategies trend sr :
  block_ok 1 sr (score_trend strategies trend sr).
Proof.
  destruct sr as [score reasons]. unfold score_trend, block_ok.
  destruct (enabled strategies "trend"); [| left; auto].
  destruct (contains "UPTREND" trend);
    [right; simpl; split; [eauto | lra] |].
  destruct (contains "DOWNTREND" trend);
    [right; simpl; split; [eauto | lra] | left; auto].
Qed.

Lemma score_position_ok strategies position sr :
  block_ok 1 sr (score_position strategies position sr).
Proof.
  destruct sr as [score reasons]. unfold score_position, block_ok.
  destruct (enabled strategies "support_resistance"); [| left; auto].
  destruct (position =? "AT_SUPPORT")%string;
    [right; simpl; split; [eauto | lra] |].
  destruct (position =? "NEAR_SUPPORT")%string;
    [right; simpl; split; [eauto | lra] |].
  destruct (position =? "AT_RESISTANCE")%string;
    [right; simpl; split; [eauto | lra] | left; auto].
Qed.

Lemma score_candle_ok strategies pattern sr :
  block_ok 1 sr (score_candle strategies pattern sr).
Proof.
  destruct sr as [score reasons]. unfold score_candle, block_ok.
  destruct (enabled strategies "candles"); [| left; auto].
  destruct (in_list pattern bullish_patterns);
    [right; simpl; split; [eauto | lra] |].
  destruct (in_list pattern bearish_patterns);
    [right; simpl; split; [eauto | lra] | left; auto].
Qed.

Lemma score_rsi_ok strategies rsi sr :
  block_ok (1 # 2) sr (score_rsi strategies rsi sr).
Proof.
  destruct sr as [score reasons]. unfold score_rsi, block_ok.
  destruct (enabled strategies "rsi"); [| left; auto].
  destruct (fl_lt rsi (Fin 35));
    [right; simpl; split; [eauto | lra] |].
  destruct (fl_gt rsi (Fin 65));
    [right; simpl; split; [eauto | lra] | left; auto].
Qed.

(** What a block does to the score and to the number of reasons. *)
Lemma block_ok_steps w before after :
  0 <= w -> w <= 1 -> block_ok w before after ->
  fst before - w <= fst after /\ fst after <= fst before + w /\
  (length (snd before) <= length (snd after) <= S (length (snd before)))%nat /\
  fst after - fst before
  <= inject_Z (Z.of_nat (length (snd after) - length (snd before))) /\
  fst before - fst after
  <= inject_Z (Z.of_nat (length (snd after) - length (snd before))).
Proof.
  intros Hw0 Hw1 [[Hs Hf] | [[reason Hs] [Hlo Hhi]]]; rewrite Hs.
  - rewrite Hf, Nat.sub_diag. change (inject_Z (Z.of_nat 0)) with 0.
    repeat split; try lra; lia.
  - rewrite length_app. simpl length.
    replace (length (snd before) + 1 - length (snd before))%nat with 1%nat
      by lia.
    change (inject_Z (Z.of_nat 1)) with 1.
    repeat split; try lra; lia.
Qed.

Lemma generate_signal_scored trend position pattern rsi strategies :
  generate_signal trend position pattern rsi strategies
  = let sr :=
      scored trend position pattern rsi
        (match strategies with None => default_strategies | Some s => s end) in
    ((if Qle_bool 2 (fst sr) then "BUY"
      else if Qle_bool (fst sr) (- (2)) then "SELL" else "HOLD")%string,
     fst sr, snd sr).
Proof.
  unfold generate_signal, scored. cbv zeta.
  destruct (score_rsi _ rsi _) as [score reasons]. cbn [fst snd].
  destruct (Qle_bool 2 score); [reflexivity |].
  destruct (Qle_bool score (- (2))); reflexivity.
Qed.

Lemma scored_bounds trend position pattern rsi strategies :
  let sr := scored trend position pattern rsi strategies in
  - (7 # 2) <= fst sr /\ fst sr <= 7 # 2 /\
  (length (snd sr) <= 4)%nat /\
  fst sr <= inject_Z (Z.of_nat (length (snd sr))) /\
  - fst sr <= inject_Z (Z.of_nat (length (snd sr))).
Proof.
  unfold scored.
  set (s0 := (0, @nil string)).
  set (s1 := score_trend strategies trend s0).
  set (s2 := score_position strategies position s1).
  set (s3 := score_candle strategies pattern s2).
  set (s4 := score_rsi strategies rsi s3).
  destruct (block_ok_steps 1 s0 s1) as (A1 & A2 & A3 & A4 & A5);
    [lra | lra | apply score_trend_ok |].
  destruct (block_ok_steps 1 s1 s2) as (B1 & B2 & B3 & B4 & B5);
    [lra | lra | apply score_position_ok |].
  destruct (block_ok_steps 1 s2 s3) as (C1 & C2 & C3 & C4 & C5);
    [lra | lra | apply score_candle_ok |].
  destruct (block_ok_steps (1 # 2) s3 s4) as (D1 & D2 & D3 & D4 & D5);
    [lra | lra | apply score_rsi_ok |].
  change (fst s0) with 0 in *. change (length (snd s0)) with 0%nat in *.
  cbv zeta.
  assert (Hlen : inject_Z (Z.of_nat (length (snd s4)))
                 == inject_Z (Z.of_nat (length (snd s1) - 0))
                    + inject_Z (Z.of_nat (length (snd s2) - length (snd s1)))
                    + inject_Z (Z.of_nat (length (snd s3) - length (snd s2)))
                    + inject_Z (Z.of_nat (length (snd s4) - length (snd s3)))).
  { rewrite <- !inject_Z_plus. apply inject_Z_injective. lia. }
  repeat split; try lra; try lia.
Qed.

(** X12. The signal and its score.  The score lies between -3.5 and
    3.5 and at most 4 reasons are given; the signal is BUY exactly when
    the score is at least 2, SELL exactly when it is at most -2 and
    HOLD otherwise; and a BUY or SELL always comes with at least two
    reasons, since no rule moves the score by more than 1. *)
Theorem generate_signal_bounds (trend position pattern : string)
    (rsi : pyfloat) (strategies : option (list (string * bool))) :
  let '(signal, score, reasons) :=
    generate_signal trend position pattern rsi strategies in
  - (7 # 2) <= score /\ score <= 7 # 2 /\ (length reasons <= 4)%nat /\
  (signal = "BUY"%string <-> 2 <= score) /\
  (signal = "SELL"%string <-> score <= - (2)) /\
  (signal = "HOLD"%string <-> - (2) < score /\ score < 2) /\
  (signal <> "HOLD"%string -> (2 <= length reasons)%nat).
Proof.
  rewrite generate_signal_scored. cbv zeta.
  set (s := match strategies with None => default_strategies | Some s => s end).
  destruct (scored_bounds trend position pattern rsi s)
    as (Hlo & Hhi & Hlen & Hup & Hdn).
  set (sr := scored trend position pattern rsi s) in *.
  assert (Hreasons : 2 <= fst sr \/ fst sr <= - (2) ->
                     (2 <= length (snd sr))%nat).
  { intro H.
    assert (Hq : inject_Z 2 <= inject_Z (Z.of_nat (length (snd sr)))).
    { change (inject_Z 2) with 2. destruct H; lra. }
    rewrite <- Zle_Qle in Hq. lia. }
  destruct (Qle_bool 2 (fst sr)) eqn:E1.
  - apply Qle_bool_iff in E1.
    repeat split; try assumption; try discriminate; try lra; auto;
      try (intros [? ?]; exfalso; lra).
  - assert (H1 : fst sr < 2).
    { destruct (Qlt_le_dec (fst sr) 2) as [H | H]; [exact H |].
      apply Qle_bool_iff in H. congruence. }
    destruct (Qle_bool (fst sr) (- (2))) eqn:E2.
    + apply Qle_bool_iff in E2.
      repeat split; try assumption; try discriminate; try lra; auto;
        try (intros [? ?]; exfalso; lra); try (intro; exfalso; lra).
    + assert (H2 : - (2) < fst sr).
      { destruct (Qlt_le_dec (- (2)) (fst sr)) as [H | H]; [exact H |].
        apply Qle_bool_iff in H. congruence. }
      repeat split; try assumption; try discriminate; try lra; auto;
        try (intro; exfalso; lra); try congruence.
Qed.

Lemma trend_block (strategies : list (string * bool)) (t : Trend) :
  enabled strategies "trend" = true ->
  fst (score_trend strategies (trend_name t) (0, []))
  == match t with
     | STRONG_UPTREND | WEAK_UPTREND => 1
     | STRONG_DOWNTREND | WEAK_DOWNTREND => - (1)
     | RANGE_BOUND => 0
     end.
Proof.
  intro H. unfold score_trend. rewrite H. destruct t; vm_compute; reflexivity.
Qed.

(** X13. The trend vetoes the opposite signal: with the trend rule
    enabled, a trend that [get_trend] calls a downtrend never gives BUY
    and one it calls an uptrend never gives SELL, whatever the position,
    the pattern and the RSI. *)
Theorem trend_vetoes_opposite_signal (t : Trend) (position pattern : string)
    (rsi : pyfloat) (strategies : option (list (string * bool))) :
  enabled (match strategies with None => default_strategies | Some s => s end)
    "trend" = true ->
  let signal :=
    fst (fst (generate_signal (trend_name t) position pattern rsi strategies)) in
  (t = STRONG_DOWNTREND \/ t = WEAK_DOWNTREND -> signal <> "BUY"%string) /\
  (t = STRONG_UPTREND \/ t = WEAK_UPTREND -> signal <> "SELL"%string).
Proof.
  intros Hen signal. unfold signal. rewrite generate_signal_scored. cbv zeta.
  set (s := match strategies with None => default_strategies | Some s => s end)
    in *.
  unfold scored.
  set (s1 := score_trend s (trend_name t) (0, [])).
  set (s2 := score_position s position s1).
  set (s3 := score_candle s pattern s2).
  set (s4 := score_rsi s rsi s3).
  pose proof (trend_block s t Hen) as H1. fold s1 in H1.
  destruct (block_ok_steps 1 s1 s2) as (B1 & B2 & _);
    [lra | lra | apply score_position_ok |].
  destruct (block_ok_steps 1 s2 s3) as (C1 & C2 & _);
    [lra | lra | apply score_candle_ok |].
  destruct (block_ok_steps (1 # 2) s3 s4) as (D1 & D2 & _);
    [lra | lra | apply score_rsi_ok |].
  cbn [fst]. split; intros Ht.
  - assert (Hlt : fst s4 < 2) by (destruct Ht as [-> | ->]; lra).
    destruct (Qle_bool 2 (fst s4)) eqn:E.
    + apply Qle_bool_iff in E. exfalso. lra.
    + destruct (Qle_bool (fst s4) (- (2))); discriminate.
  - assert (Hgt : - (2) < fst s4) by (destruct Ht as [-> | ->]; lra).
    destruct (Qle_bool 2 (fst s4)); [discriminate |].
    destruct (Qle_bool (fst s4) (- (2))) eqn:E; [| discriminate].
    apply Qle_bool_iff in E. exfalso. lra.
Qed.

Lemma trend_vetoes_opposite_signal_witness :
  let signal :=
    fst (fst (generate_signal (trend_name WEAK_DOWNTREND) "AT_SUPPORT"
                "BULLISH_ENGULFING" (Fin 30) None)) in
  signal = "HOLD"%string /\
  (WEAK_DOWNTREND = STRONG_DOWNTREND \/ WEAK_DOWNTREND = WEAK_DOWNTREND ->
   signal <> "BUY"%string) /\
  (WEAK_DOWNTREND = STRONG_UPTREND \/ WEAK_DOWNTREND = WEAK_UPTREND ->
   signal <> "SELL"%string).
Proof.
  split; [reflexivity |].
  apply (trend_vetoes_opposite_signal WEAK_DOWNTREND "AT_SUPPORT"
           "BULLISH_ENGULFING" (Fin 30) None).
  reflexivity.
Defined.

(** X14. A missing RSI is a neutral RSI: [generate_signal] on NaN
    gives what it gives on 50, no point and no reason; so a non-empty
    series too short for [calculate_rsi] scores like a neutral one. *)
Theorem nan_rsi_is_neutral (trend position pattern : string)
    (strategies : option (list (string * bool))) :
  generate_signal trend position pattern NaN strategies
  = generate_signal trend position pattern (Fin 50) strategies /\
  forall (close : list Q) (period : nat),
    (1 <= period)%nat -> (0 < length close < period)%nat ->
    generate_signal trend position pattern (calculate_rsi close period)
      strategies
    = generate_signal trend position pattern (Fin 50) strategies.
Proof.
  split; [reflexivity |].
  intros close period Hp Hlen.
  destruct (rsi_nan_cases close period Hp) as [H _].
  rewrite (H Hlen). reflexivity.
Qed.

(** *** The price position *)

Lemma dist_lt (a price c : Q) :
  0 < price ->
  fl_lt (fl_mul (fl_div (Fin a) (Fin price)) (Fin 100)) (Fin c) = true
  <-> a * 100 < c * price.
Proof.
  intro Hp. cbn [fl_div]. rewrite (Qeq_bool_pos price Hp). cbn [fl_mul fl_lt].
  rewrite Qltb_lt. split; intro H.
  - apply (Qmult_lt_r _ _ price Hp) in H.
    assert (E : a / price * 100 * price == a * 100) by (field; lra).
    lra.
  - apply (Qmult_lt_r _ _ price Hp).
    assert (E : a / price * 100 * price == a * 100) by (field; lra).
    lra.
Qed.

(** X15. The price position for a positive price, without the
    division: AT_SUPPORT when the price is less than 0.5 % above the
    nearest support (or below it), else AT_RESISTANCE when it is less
    than 0.5 % below the nearest resistance (or above it), else
    NEAR_SUPPORT and NEAR_RESISTANCE with 2 %, else NEUTRAL.  So a price
    at or below the support is always AT_SUPPORT, and a price at or
    above the resistance is never NEAR or NEUTRAL. *)
Theorem price_position_thresholds (price sup res : Q) (sr : SRLevels) :
  0 < price ->
  nearest_support sr = Some sup -> nearest_resistance sr = Some res ->
  let r := get_price_position price sr in
  let at_sup := 200 * (price - sup) < price in
  let at_res := 200 * (res - price) < price in
  let near_sup := 50 * (price - sup) < price in
  let near_res := 50 * (res - price) < price in
  (r = "AT_SUPPORT"%string <-> at_sup) /\
  (r = "AT_RESISTANCE"%string <-> ~ at_sup /\ at_res) /\
  (r = "NEAR_SUPPORT"%string <-> ~ at_sup /\ ~ at_res /\ near_sup) /\
  (r = "NEAR_RESISTANCE"%string <->
   ~ at_sup /\ ~ at_res /\ ~ near_sup /\ near_res) /\
  (r = "NEUTRAL"%string <-> ~ near_sup /\ ~ near_res) /\
  (price <= sup -> r = "AT_SUPPORT"%string) /\
  (res <= price -> r = "AT_SUPPORT"%string \/ r = "AT_RESISTANCE"%string).
Proof.
  intros Hp Hs Hr r at_sup at_res near_sup near_res.
  unfold r, get_price_position. rewrite Hs, Hr.
  pose proof (dist_lt (price - sup) price (1 # 2) Hp) as A1.
  pose proof (dist_lt (res - price) price (1 # 2) Hp) as A2.
  pose proof (dist_lt (price - sup) price 2 Hp) as A3.
  pose proof (dist_lt (res - price) price 2 Hp) as A4.
  assert (B1 : fl_lt (fl_mul (fl_div (Fin (price - sup)) (Fin price)) (Fin 100))
                 (Fin (1 # 2)) = true <-> at_sup)
    by (unfold at_sup; rewrite A1; split; intro; lra).
  assert (B2 : fl_lt (fl_mul (fl_div (Fin (res - price)) (Fin price)) (Fin 100))
                 (Fin (1 # 2)) = true <-> at_res)
    by (unfold at_res; rewrite A2; split; intro; lra).
  assert (B3 : fl_lt (fl_mul (fl_div (Fin (price - sup)) (Fin price)) (Fin 100))
                 (Fin 2) = true <-> near_sup)
    by (unfold near_sup; rewrite A3; split; intro; lra).
  assert (B4 : fl_lt (fl_mul (fl_div (Fin (res - price)) (Fin price)) (Fin 100))
                 (Fin 2) = true <-> near_res)
    by (unfold near_res; rewrite A4; split; intro; lra).
  assert (I1 : at_sup -> near_sup) by (unfold at_sup, near_sup; intro; lra).
  assert (I2 : at_res -> near_res) by (unfold at_res, near_res; intro; lra).
  assert (I3 : price <= sup -> at_sup) by (unfold at_sup; intro; lra).
  assert (I4 : res <= price -> at_res) by (unfold at_res; intro; lra).
  clear A1 A2 A3 A4.
  destruct (fl_lt _ (Fin (1 # 2))) eqn:E1 in |- *.
  { assert (at_sup) by (apply B1; first [reflexivity | assumption]).
    repeat split; try discriminate; try tauto; intuition discriminate. }
  assert (N1 : ~ at_sup) by (intro H; apply B1 in H; congruence).
  destruct (fl_lt (fl_mul (fl_div (Fin (res - price)) (Fin price)) (Fin 100))
              (Fin (1 # 2))) eqn:E2.
  { assert (at_res) by (apply B2; first [reflexivity | assumption]).
    repeat split; try discriminate; try tauto; intuition discriminate. }
  assert (N2 : ~ at_res) by (intro H; apply B2 in H; congruence).
  destruct (fl_lt (fl_mul (fl_div (Fin (price - sup)) (Fin price)) (Fin 100))
              (Fin 2)) eqn:E3.
  { assert (near_sup) by (apply B3; first [reflexivity | assumption]).
    repeat split; try discriminate; try tauto; intuition discriminate. }
  assert (N3 : ~ near_sup) by (intro H; apply B3 in H; congruence).
  destruct (fl_lt (fl_mul (fl_div (Fin (res - price)) (Fin price)) (Fin 100))
              (Fin 2)) eqn:E4.
  { assert (near_res) by (apply B4; first [reflexivity | assumption]).
    repeat split; try discriminate; try tauto; intuition discriminate. }
  assert (N4 : ~ near_res) by (intro H; apply B4 in H; congruence).
  repeat split; try discriminate; try tauto; intuition discriminate.
Qed.

Lemma price_position_thresholds_witness :
  let sr := mkSRLevels [1] [2] (Some 1) (Some 2) in
  let r := get_price_position (101 # 100) sr in
  let at_sup := 200 * ((101 # 100) - 1) < 101 # 100 in
  let at_res := 200 * (2 - (101 # 100)) < 101 # 100 in
  let near_sup := 50 * ((101 # 100) - 1) < 101 # 100 in
  let near_res := 50 * (2 - (101 # 100)) < 101 # 100 in
  (r = "AT_SUPPORT"%string <-> at_sup) /\
  (r = "AT_RESISTANCE"%string <-> ~ at_sup /\ at_res) /\
  (r = "NEAR_SUPPORT"%string <-> ~ at_sup /\ ~ at_res /\ near_sup) /\
  (r = "NEAR_RESISTANCE"%string <->
   ~ at_sup /\ ~ at_res /\ ~ near_sup /\ near_res) /\
  (r = "NEUTRAL"%string <-> ~ near_sup /\ ~ near_res) /\
  (101 # 100 <= 1 -> r = "AT_SUPPORT"%string) /\
  (2 <= 101 # 100 -> r = "AT_SUPPORT"%string \/ r = "AT_RESISTANCE"%string).
Proof.
  apply (price_position_thresholds (101 # 100) 1 2
           (mkSRLevels [1] [2] (Some 1) (Some 2))); [lra | reflexivity..].
Defined.

(** X16. A series of at most 20 bars has no interior bar, so no local
    extremum: when at least 2 levels are asked for,
    [find_support_resistance] returns no level at all and the price
    position is NEUTRAL at every price; when fewer than 2 are asked
    for, it raises [ValueError] ([min] of no level). *)
Theorem short_series_has_no_levels (close : list Q) (num_levels : nat) :
  (length close <= 20)%nat ->
  ((2 <= num_levels)%nat ->
   find_support_resistance close num_levels = Ok (mkSRLevels [] [] None None) /\
   forall price,
     get_price_position price (mkSRLevels [] [] None None) = "NEUTRAL"%string) /\
  ((num_levels < 2)%nat ->
   find_support_resistance close num_levels = Raise ValueError).
Proof.
  intro Hlen. unfold find_support_resistance.
  replace (length close - 10 - 10)%nat with 0%nat by lia.
  cbn [seq filter map]. split; intro Hn.
  - assert (Hk : exists k, (num_levels / 2 = S k)%nat).
    { destruct (num_levels / 2)%nat as [| k] eqn:E; [| eauto].
      exfalso. apply Nat.div_small_iff in E; lia. }
    destruct Hk as [k ->]. split; reflexivity.
  - replace (num_levels / 2)%nat with 0%nat
      by (symmetry; apply Nat.div_small; lia).
    reflexivity.
Qed.

Lemma short_series_has_no_levels_witness :
  ((2 <= 5)%nat ->
   find_support_resistance [1; 2; 3] 5 = Ok (mkSRLevels [] [] None None) /\
   forall price,
     get_price_position price (mkSRLevels [] [] None None) = "NEUTRAL"%string) /\
  ((5 < 2)%nat -> find_support_resistance [1; 2; 3] 5 = Raise ValueError).
Proof.
  apply (short_series_has_no_levels [1; 2; 3] 5). simpl. lia.
Defined.

(** *** Clustered levels *)

Local Abbreviation ascending := (Sorted.StronglySorted Qle).

Lemma insert_sorted_In (x y : Q) (l : list Q) :
  In y (insert_sorted x l) <-> y = x \/ In y l.
Proof.
  induction l as [| a l IH]; simpl.
  - intuition.
  - destruct (Qltb x a); simpl; rewrite ?IH; intuition.
Qed.

Lemma insert_sorted_length (x : Q) (l : list Q) :
  length (insert_sorted x l) = S (length l).
Proof.
  induction l as [| a l IH]; simpl; [reflexivity |].
  destruct (Qltb x a); simpl; [| rewrite IH]; reflexivity.
Qed.

Lemma insert_sorted_ascending (x : Q) (l : list Q) :
  ascending l -> ascending (insert_sorted x l).
Proof.
  induction 1 as [| a l Hl IH Ha]; simpl.
  - constructor; constructor.
  - destruct (Qltb x a) eqn:E.
    + apply Qltb_lt in E. constructor; [constructor; assumption |].
      constructor; [lra |].
      apply Forall_impl with (2 := Ha). intros b Hb. lra.
    + apply Qltb_ge in E. constructor; [exact IH |].
      apply Forall_forall. intros b Hb. apply insert_sorted_In in Hb.
      destruct Hb as [-> | Hb]; [exact E |].
      rewrite Forall_forall in Ha. apply Ha, Hb.
Qed.

Lemma sorted_acc (xs : list Q) :
  forall acc,
    ascending acc ->
    let s := fold_left (fun acc x => insert_sorted x acc) xs acc in
    ascending s /\ (forall y, In y s <-> In y xs \/ In y acc) /\
    length s = (length xs + length acc)%nat.
Proof.
  induction xs as [| x xs IH]; intros acc Hacc; simpl.
  - intuition.
  - destruct (IH (insert_sorted x acc) (insert_sorted_ascending x acc Hacc))
      as (H1 & H2 & H3).
    split; [exact H1 | split].
    + intro y. rewrite H2, insert_sorted_In. intuition.
    + rewrite H3, insert_sorted_length. lia.
Qed.

Lemma sorted_spec (xs : list Q) :
  ascending (sorted xs) /\ (forall y, In y (sorted xs) <-> In y xs) /\
  length (sorted xs) = length xs.
Proof.
  destruct (sorted_acc xs [] (Sorted.SSorted_nil Qle)) as (H1 & H2 & H3).
  unfold sorted. split; [exact H1 | split].
  - intro y. rewrite H2. simpl. intuition.
  - rewrite H3. simpl. lia.
Qed.

Lemma flat_map_short {A B} (f : A -> list B) (l : list A) :
  (forall a, (length (f a) <= 1)%nat) ->
  (length (flat_map f l) <= length l)%nat.
Proof.
  intro H. induction l as [| a l IH]; simpl; [lia |].
  rewrite length_app. specialize (H a). lia.
Qed.

Lemma Ok_inj {A} (a b : A) : Ok a = Ok b -> a = b.
Proof. intro H. injection H as H. exact H. Qed.

(** The facts about [cluster_levels] the statements below share. *)
Lemma cluster_levels_facts (levels : list Q) (num_clusters : nat)
    (ls : list Q) :
  cluster_levels levels num_clusters = Ok ls ->
  (length ls <= num_clusters)%nat /\ Sorted.StronglySorted Qle ls.
Proof.
  unfold cluster_levels.
  destruct (length levels <? num_clusters)%nat eqn:E.
  - intro H. injection H as <-. apply Nat.ltb_lt in E.
    destruct (sorted_spec levels) as (H1 & H2 & H3).
    split; [lia | exact H1].
  - destruct levels as [| x r]; [discriminate |].
    cbv zeta.
    set (levels := x :: r) in *.
    set (step := (max_of x r - min_of x r) / inject_Z (Z.of_nat num_clusters)).
    set (f := fun i : nat =>
                match bin_levels levels (min_of x r) step i with
                | [] => []
                | _ :: _ =>
                    [sum (bin_levels levels (min_of x r) step i)
                     / inject_Z (Z.of_nat
                         (length (bin_levels levels (min_of x r) step i)))]
                end).
    intro H. apply Ok_inj in H. subst ls.
    destruct (sorted_spec (flat_map f (seq 0 num_clusters)))
      as (H1 & H2 & H3).
    split; [| exact H1].
    rewrite H3.
    rewrite <- (length_seq num_clusters 0) at 2. apply flat_map_short.
    intro i. unfold f. destruct (bin_levels _ _ _ i); simpl; lia.
Qed.

(** X17. What [cluster_levels] returns: at most [num_clusters] levels,
    in ascending order. *)
Theorem cluster_levels_output (levels : list Q) (num_clusters : nat)
    (ls : list Q) :
  cluster_levels levels num_clusters = Ok ls ->
  (length ls <= num_clusters)%nat /\ Sorted.StronglySorted Qle ls.
Proof.
  intro H. destruct (cluster_levels_facts levels num_clusters ls H) as [H1 H2].
  split; assumption.
Qed.

Lemma cluster_levels_output_witness :
  (length [1; 2] <= 2)%nat /\ Sorted.StronglySorted Qle [1; 2].
Proof.
  apply (cluster_levels_output [1; 2; 3] 2 [1; 2]). reflexivity.
Defined.

Lemma min_of_equal (x : Q) (r : list Q) :
  Forall (fun y => y == x) r -> min_of x r = x.
Proof.
  unfold min_of. induction 1 as [| y r Hy _ IH]; simpl; [reflexivity |].
  replace (Qltb y x) with false by (symmetry; apply Qltb_ge; lra).
  exact IH.
Qed.

Lemma max_of_equal (x : Q) (r : list Q) :
  Forall (fun y => y == x) r -> max_of x r = x.
Proof.
  unfold max_of. induction 1 as [| y r Hy _ IH]; simpl; [reflexivity |].
  replace (Qltb x y) with false by (symmetry; apply Qltb_ge; lra).
  exact IH.
Qed.

Lemma filter_none {A} (f : A -> bool) (l : list A) :
  (forall a, In a l -> f a = false) -> filter f l = [].
Proof.
  induction l as [| a l IH]; intro H; simpl; [reflexivity |].
  rewrite (H a (or_introl eq_refl)). apply IH.
  intros b Hb. apply H. right. exact Hb.
Qed.

Lemma flat_map_nil {A B} (f : A -> list B) (l : list A) :
  (forall a, f a = []) -> flat_map f l = [].
Proof.
  intro H. induction l as [| a l IH]; simpl; [| rewrite H, IH]; reflexivity.
Qed.

(** X18. Candidates that all coincide give no level: when every
    candidate has the same value and there are at least [num_clusters]
    of them, the bins have width 0, every bin is empty and
    [cluster_levels] returns the empty list. *)
Theorem equal_candidates_give_no_level (x : Q) (r : list Q)
    (num_clusters : nat) :
  Forall (fun y => y == x) r ->
  (num_clusters <= length (x :: r))%nat ->
  cluster_levels (x :: r) num_clusters = Ok [].
Proof.
  intros Heq Hlen. unfold cluster_levels.
  replace (length (x :: r) <? num_clusters)%nat with false
    by (symmetry; apply Nat.ltb_ge, Hlen).
  rewrite (min_of_equal x r Heq), (max_of_equal x r Heq). cbv zeta.
  rewrite flat_map_nil; [reflexivity |].
  intro i.
  assert (Hb : bin_levels (x :: r) x
                 ((x - x) / inject_Z (Z.of_nat num_clusters)) i = []).
  { unfold bin_levels. apply filter_none. intros l Hl.
    assert (Hlx : l == x).
    { destruct Hl as [<- | Hl]; [reflexivity |].
      rewrite Forall_forall in Heq. apply Heq, Hl. }
    apply andb_false_intro2, Qltb_ge.
    assert (Hz : (x - x) / inject_Z (Z.of_nat num_clusters) == 0).
    { unfold Qdiv. setoid_replace (x - x) with 0 by ring. ring. }
    rewrite Hz, Hlx. lra. }
  rewrite Hb. reflexivity.
Qed.

Lemma equal_candidates_give_no_level_witness :
  cluster_levels [1; 1; 1] 2 = Ok [].
Proof.
  apply (equal_candidates_give_no_level 1 [1; 1] 2).
  - repeat constructor.
  - simpl. lia.
Defined.

Lemma ascending_firstn (n : nat) (l : list Q) :
  ascending l -> ascending (firstn n l).
Proof.
  intro H. revert n. induction H as [| a l Hl IH Ha]; intro n.
  - rewrite firstn_nil. constructor.
  - destruct n as [| n]; simpl; [constructor |].
    constructor; [apply IH |].
    rewrite Forall_forall in *. intros b Hb. apply Ha.
    rewrite <- (firstn_skipn n l). apply in_or_app. left. exact Hb.
Qed.

Lemma min_of_head (x : Q) (r : list Q) :
  Forall (Qle x) r -> min_of x r = x.
Proof.
  unfold min_of. induction 1 as [| y r Hy _ IH]; simpl; [reflexivity |].
  replace (Qltb y x) with false by (symmetry; apply Qltb_ge; lra).
  exact IH.
Qed.

Lemma min_or_none_head (l : list Q) :
  ascending l -> min_or_none l = hd_error l.
Proof.
  intro H. destruct H as [| a l Hl Ha]; simpl; [reflexivity |].
  rewrite (min_of_head a l Ha). reflexivity.
Qed.

(** X19. The levels [find_support_resistance] returns: each side is in
    ascending order and holds at most 3 and at most [num_levels // 2]
    levels, and the level called nearest is on each side the first,
    that is the lowest one: for the resistance too, and whatever the
    price. *)
Theorem nearest_level_is_lowest (close : list Q) (num_levels : nat)
    (sr : SRLevels) :
  find_support_resistance close num_levels = Ok sr ->
  Sorted.StronglySorted Qle (support sr) /\
  Sorted.StronglySorted Qle (resistance sr) /\
  (length (support sr) <= Nat.min 3 (num_levels / 2))%nat /\
  (length (resistance sr) <= Nat.min 3 (num_levels / 2))%nat /\
  nearest_support sr = hd_error (support sr) /\
  nearest_resistance sr = hd_error (resistance sr).
Proof.
  unfold find_support_resistance. cbv zeta.
  destruct (cluster_levels _ (num_levels / 2)) as [sup |] eqn:Es;
    [| discriminate].
  cbn [bind].
  destruct (cluster_levels _ (num_levels / 2)) as [res |] eqn:Er in |- *;
    [| discriminate].
  cbn [bind]. intro H. apply Ok_inj in H. subst sr.
  cbn [support resistance nearest_support nearest_resistance].
  destruct (cluster_levels_facts _ _ _ Es) as (Ls & Ss).
  destruct (cluster_levels_facts _ _ _ Er) as (Lr & Sr).
  pose proof (ascending_firstn 3 sup Ss) as Ss3.
  pose proof (ascending_firstn 3 res Sr) as Sr3.
  repeat split; auto using min_or_none_head.
  - rewrite length_firstn. lia.
  - rewrite length_firstn. lia.
Qed.

Lemma nearest_level_is_lowest_witness :
  let sr := mkSRLevels [1 # 2] [1; 2] (Some (1 # 2)) (Some 1) in
  Sorted.StronglySorted Qle (support sr) /\
  Sorted.StronglySorted Qle (resistance sr) /\
  (length (support sr) <= Nat.min 3 (5 / 2))%nat /\
  (length (resistance sr) <= Nat.min 3 (5 / 2))%nat /\
  nearest_support sr = hd_error (support sr) /\
  nearest_resistance sr = hd_error (resistance sr).
Proof.
  apply (nearest_level_is_lowest three_peaks 5
           (mkSRLevels [1 # 2] [1; 2] (Some (1 # 2)) (Some 1))).
  vm_compute. reflexivity.
Defined.

(** *** The moving average *)

Lemma alpha_range (period : nat) :
  (1 <= period)%nat ->
  let alpha := 2 / (inject_Z (Z.of_nat period) + 1) in
  0 < alpha /\ alpha <= 1.
Proof.
  intros Hp alpha.
  assert (H : 1 <= inject_Z (Z.of_nat period)).
  { change 1 with (inject_Z 1). rewrite <- Zle_Qle. lia. }
  unfold alpha. split.
  - apply Qlt_shift_div_l; lra.
  - apply Qle_shift_div_r; lra.
Qed.

Lemma ewm_from_range (alpha lo hi : Q) (xs : list Q) :
  0 <= alpha -> alpha <= 1 ->
  Forall (fun x => lo <= x /\ x <= hi) xs ->
  forall prev, lo <= prev -> prev <= hi ->
    Forall (fun y => lo <= y /\ y <= hi) (ewm_from alpha prev xs).
Proof.
  intros Ha0 Ha1. induction 1 as [| x xs [Hx1 Hx2] _ IH]; intros prev Hp1 Hp2;
    simpl; constructor.
  - split; nra.
  - apply IH; nra.
Qed.

(** X20. The moving average stays within the series: for a span of at
    least 1, [calculate_ema] returns a series as long as the close
    series, starting with its first value, and each of its values lies
    between any two bounds of the closes. *)
Theorem ema_within_range (close : list Q) (period : nat) (lo hi : Q) :
  (1 <= period)%nat ->
  Forall (fun x => lo <= x /\ x <= hi) close ->
  exists ema,
    calculate_ema close period = Ok ema /\
    length ema = length close /\ hd_error ema = hd_error close /\
    Forall (fun y => lo <= y /\ y <= hi) ema.
Proof.
  intros Hp Hall. destruct (alpha_range period Hp) as [Ha0 Ha1].
  unfold calculate_ema.
  replace (1 <=? period)%nat with true by (symmetry; apply Nat.leb_le, Hp).
  eexists. split; [reflexivity |].
  destruct close as [| x r]; [repeat split; constructor |].
  cbn [length hd_error]. rewrite ewm_from_length.
  inversion Hall as [| ? ? [Hx1 Hx2] Hr]; subst.
  repeat split; try reflexivity. constructor; [split; assumption |].
  apply ewm_from_range; try assumption; lra.
Qed.

Lemma ema_within_range_witness :
  exists ema,
    calculate_ema [1; 2; 3] 20 = Ok ema /\
    length ema = length [1; 2; 3] /\ hd_error ema = hd_error [1; 2; 3] /\
    Forall (fun y => 1 <= y /\ y <= 3) ema.
Proof.
  apply (ema_within_range [1; 2; 3] 20 1 3); [lia |].
  repeat constructor; lra.
Defined.

(** On a non-decreasing series the average lags: it is at most the
    price, bar for bar. *)
Lemma ewm_from_lags (alpha : Q) (xs : list Q) :
  0 <= alpha -> alpha <= 1 ->
  Sorted.StronglySorted Qle xs ->
  forall prev, Forall (Qle prev) xs ->
    Forall2 Qle (ewm_from alpha prev xs) xs.
Proof.
  intros Ha0 Ha1. induction 1 as [| x xs Hs IH Hx]; intros prev Hp;
    simpl; constructor.
  - inversion Hp; subst. nra.
  - apply IH. inversion Hp as [| ? ? Hpx Hpr]; subst.
    apply Forall_impl with (2 := Hx). intros b Hb. nra.
Qed.

Lemma ewm_from_leads (alpha : Q) (xs : list Q) :
  0 <= alpha -> alpha <= 1 ->
  Sorted.StronglySorted (fun a b => b <= a) xs ->
  forall prev, Forall (fun x => x <= prev) xs ->
    Forall2 (fun y x => x <= y) (ewm_from alpha prev xs) xs.
Proof.
  intros Ha0 Ha1. induction 1 as [| x xs Hs IH Hx]; intros prev Hp;
    simpl; constructor.
  - inversion Hp; subst. nra.
  - apply IH. inversion Hp as [| ? ? Hpx Hpr]; subst.
    apply Forall_impl with (2 := Hx). intros b Hb. cbv beta in Hb. nra.
Qed.

Lemma calculate_ema_lags (close ema : list Q) (period : nat) :
  Sorted.StronglySorted Qle close ->
  calculate_ema close period = Ok ema -> Forall2 Qle ema close.
Proof.
  intros Hs. unfold calculate_ema.
  destruct (1 <=? period)%nat eqn:E; [| discriminate].
  apply Nat.leb_le in E. destruct (alpha_range period E) as [Ha0 Ha1].
  intro H. apply Ok_inj in H. subst ema.
  destruct Hs as [| x r Hr Hx]; constructor; [lra |].
  apply ewm_from_lags; try assumption; lra.
Qed.

Lemma calculate_ema_leads (close ema : list Q) (period : nat) :
  Sorted.StronglySorted (fun a b => b <= a) close ->
  calculate_ema close period = Ok ema ->
  Forall2 (fun y x => x <= y) ema close.
Proof.
  intros Hs. unfold calculate_ema.
  destruct (1 <=? period)%nat eqn:E; [| discriminate].
  apply Nat.leb_le in E. destruct (alpha_range period E) as [Ha0 Ha1].
  intro H. apply Ok_inj in H. subst ema.
  destruct Hs as [| x r Hr Hx]; constructor; [lra |].
  apply ewm_from_leads; try assumption; lra.
Qed.

Lemma Forall2_last {A} (R : A -> A -> Prop) (l1 l2 : list A) (a b : A) :
  Forall2 R l1 l2 -> iloc_neg l1 1 = Ok a -> iloc_neg l2 1 = Ok b -> R a b.
Proof.
  intros H H1 H2.
  destruct l1 as [| x1 r1]; [discriminate |].
  destruct l2 as [| x2 r2]; [discriminate |].
  destruct (@exists_last _ (x1 :: r1)) as (p1 & z1 & E1); [discriminate |].
  destruct (@exists_last _ (x2 :: r2)) as (p2 & z2 & E2); [discriminate |].
  rewrite E1 in *. rewrite E2 in *. rewrite iloc_neg_last in H1, H2.
  apply Ok_inj in H1, H2. subst.
  apply Forall2_app_inv_l in H as (q1 & q2 & Hq1 & Hq2 & Heq).
  inversion Hq2 as [| ? y ? ? Hr Hnil]; subst. inversion Hnil; subst.
  apply app_inj_tail in Heq as [_ ->]. exact Hr.
Qed.

Lemma trend_ema_series (close : list Q) (ema_slow ema_trend : nat) (e : Q) :
  last_of (trend_ema close ema_slow ema_trend) = Ok e ->
  exists period ema,
    (period = ema_slow \/ period = ema_trend) /\
    calculate_ema close period = Ok ema /\ iloc_neg ema 1 = Ok e.
Proof.
  unfold last_of, trend_ema.
  destruct (200 <=? length close)%nat.
  - destruct (calculate_ema close ema_trend) as [ema |] eqn:E; [| discriminate].
    cbn [bind]. eauto 6.
  - destruct (calculate_ema close ema_slow) as [ema |] eqn:E; [| discriminate].
    cbn [bind]. eauto 6.
Qed.

(** X21. A one-way series is never read against its direction: on a
    non-empty frame whose closes never fall [get_trend] returns neither
    DOWNTREND value, and on one whose closes never rise neither UPTREND
    value (spans of at least 1). *)
Theorem monotone_series_trend (data : DataFrame)
    (ema_fast ema_slow ema_trend : nat) :
  data <> [] ->
  (1 <= ema_fast)%nat -> (1 <= ema_slow)%nat -> (1 <= ema_trend)%nat ->
  exists tr,
    get_trend data ema_fast ema_slow ema_trend = Ok tr /\
    (Sorted.StronglySorted Qle (column close data) ->
     tr <> STRONG_DOWNTREND /\ tr <> WEAK_DOWNTREND) /\
    (Sorted.StronglySorted (fun a b => b <= a) (column close data) ->
     tr <> STRONG_UPTREND /\ tr <> WEAK_UPTREND).
Proof.
  intros Hne Hf Hs Ht.
  destruct (get_trend_eval data ema_fast ema_slow ema_trend Hne Hf Hs Ht)
    as (price & e_slow & e_trend & Hp & _ & He & Hr).
  destruct (trend_ema_series _ _ _ _ He) as (period & ema & _ & Hema & Hlast).
  eexists. split; [exact Hr |]. split; intro Hmono.
  - pose proof (Forall2_last Qle _ _ _ _
                  (calculate_ema_lags _ _ _ Hmono Hema) Hlast Hp) as Hle.
    replace (Qltb price e_trend) with false
      by (symmetry; apply Qltb_ge; exact Hle).
    cbn [andb].
    destruct (Qltb e_trend price && Qltb e_trend e_slow);
      [split; discriminate |].
    destruct (Qltb e_trend price); split; discriminate.
  - pose proof (Forall2_last (fun y x => x <= y) _ _ _ _
                  (calculate_ema_leads _ _ _ Hmono Hema) Hlast Hp) as Hle.
    cbv beta in Hle.
    replace (Qltb e_trend price) with false
      by (symmetry; apply Qltb_ge; exact Hle).
    cbn [andb].
    destruct (Qltb price e_trend && Qltb e_slow e_trend);
      [split; discriminate |].
    destruct (Qltb price e_trend); split; discriminate.
Qed.

Lemma monotone_series_trend_witness :
  let data := [mkBar 1 2 0 1 0; mkBar 1 2 0 2 0] in
  exists tr,
    get_trend data 20 50 200 = Ok tr /\
    (Sorted.StronglySorted Qle (column close data) ->
     tr <> STRONG_DOWNTREND /\ tr <> WEAK_DOWNTREND) /\
    (Sorted.StronglySorted (fun a b => b <= a) (column close data) ->
     tr <> STRONG_UPTREND /\ tr <> WEAK_UPTREND).
Proof.
  apply (monotone_series_trend [mkBar 1 2 0 1 0; mkBar 1 2 0 2 0] 20 50 200);
    [discriminate | lia | lia | lia].
Defined.

(** On a strictly rising series the average is strictly below the
    price from the second bar on (span of at least 2). *)
Lemma ewm_from_below (alpha : Q) (xs : list Q) :
  0 <= alpha -> alpha < 1 ->
  Sorted.StronglySorted Qlt xs ->
  forall prev, Forall (Qlt prev) xs ->
    Forall2 Qlt (ewm_from alpha prev xs) xs.
Proof.
  intros Ha0 Ha1. induction 1 as [| x xs Hs IH Hx]; intros prev Hp;
    simpl; constructor.
  - inversion Hp; subst. nra.
  - apply IH. inversion Hp as [| ? ? Hpx Hpr]; subst.
    apply Forall_impl with (2 := Hx). intros b Hb. nra.
Qed.

Lemma ewm_from_above (alpha : Q) (xs : list Q) :
  0 <= alpha -> alpha < 1 ->
  Sorted.StronglySorted (fun a b => b < a) xs ->
  forall prev, Forall (fun x => x < prev) xs ->
    Forall2 (fun y x => x < y) (ewm_from alpha prev xs) xs.
Proof.
  intros Ha0 Ha1. induction 1 as [| x xs Hs IH Hx]; intros prev Hp;
    simpl; constructor.
  - inversion Hp; subst. nra.
  - apply IH. inversion Hp as [| ? ? Hpx Hpr]; subst.
    apply Forall_impl with (2 := Hx). intros b Hb. cbv beta in Hb. nra.
Qed.

Lemma alpha_below_one (period : nat) :
  (2 <= period)%nat -> 2 / (inject_Z (Z.of_nat period) + 1) < 1.
Proof.
  intro Hp.
  assert (H : 2 <= inject_Z (Z.of_nat period)).
  { change 2 with (inject_Z 2). rewrite <- Zle_Qle. lia. }
  apply Qlt_shift_div_r; lra.
Qed.

Lemma iloc_neg_cons {A} (x y : A) (r : list A) :
  iloc_neg (x :: y :: r) 1 = iloc_neg (y :: r) 1.
Proof.
  unfold iloc_neg. cbn [length].
  replace (S (S (length r)) - 1)%nat with (S (length r)) by lia.
  replace (S (length r) - 1)%nat with (length r) by lia.
  reflexivity.
Qed.

Lemma calculate_ema_below (close ema : list Q) (period : nat) (e p : Q) :
  (2 <= period)%nat -> (2 <= length close)%nat ->
  Sorted.StronglySorted Qlt close ->
  calculate_ema close period = Ok ema ->
  iloc_neg ema 1 = Ok e -> iloc_neg close 1 = Ok p -> e < p.
Proof.
  intros Hp Hlen Hs. unfold calculate_ema.
  replace (1 <=? period)%nat with true by (symmetry; apply Nat.leb_le; lia).
  destruct (alpha_range period) as [Ha0 _]; [lia |].
  pose proof (alpha_below_one period Hp) as Ha1.
  intro H. apply Ok_inj in H. subst ema.
  destruct close as [| x [| y r]]; cbn [length] in Hlen; try lia.
  inversion Hs as [| ? ? Hr Hx]; subst.
  cbn [ewm_from]. rewrite !iloc_neg_cons. cbn [ewm_from].
  intros He Hpr.
  pose proof (ewm_from_below _ (y :: r) (Qlt_le_weak _ _ Ha0)
                Ha1 Hr x Hx) as HF.
  cbn [ewm_from] in HF.
  exact (Forall2_last Qlt _ _ _ _ HF He Hpr).
Qed.

Lemma calculate_ema_above (close ema : list Q) (period : nat) (e p : Q) :
  (2 <= period)%nat -> (2 <= length close)%nat ->
  Sorted.StronglySorted (fun a b => b < a) close ->
  calculate_ema close period = Ok ema ->
  iloc_neg ema 1 = Ok e -> iloc_neg close 1 = Ok p -> p < e.
Proof.
  intros Hp Hlen Hs. unfold calculate_ema.
  replace (1 <=? period)%nat with true by (symmetry; apply Nat.leb_le; lia).
  destruct (alpha_range period) as [Ha0 _]; [lia |].
  pose proof (alpha_below_one period Hp) as Ha1.
  intro H. apply Ok_inj in H. subst ema.
  destruct close as [| x [| y r]]; cbn [length] in Hlen; try lia.
  inversion Hs as [| ? ? Hr Hx]; subst.
  cbn [ewm_from]. rewrite !iloc_neg_cons. cbn [ewm_from].
  intros He Hpr.
  pose proof (ewm_from_above _ (y :: r) (Qlt_le_weak _ _ Ha0)
                Ha1 Hr x Hx) as HF.
  cbn [ewm_from] in HF.
  exact (Forall2_last (fun y x => x < y) _ _ _ _ HF He Hpr).
Qed.

(** *** The RSI of a one-way series *)

Local Abbreviation pos_fin := (fun x : pyfloat => exists q, x = Fin q /\ 0 < q).
Local Abbreviation zero_fin := (fun x : pyfloat => exists q, x = Fin q /\ q == 0).

Lemma pos_fin_nonneg (w : list pyfloat) : Forall pos_fin w -> Forall nonneg_fin w.
Proof.
  apply Forall_impl. intros x (q & -> & Hq). exists q. split; [reflexivity | lra].
Qed.

Lemma zero_fin_nonneg (w : list pyfloat) :
  Forall zero_fin w -> Forall nonneg_fin w.
Proof.
  apply Forall_impl. intros x (q & -> & Hq). exists q. split; [reflexivity | lra].
Qed.

Lemma sum_pos (w : list pyfloat) :
  Forall pos_fin w ->
  forall a, exists s,
    fold_left fl_add w (Fin a) = Fin s /\ a <= s /\ (w <> [] -> a < s).
Proof.
  induction 1 as [| x w (q & -> & Hq) _ IH]; intro a; cbn [fold_left fl_add].
  - exists a. split; [reflexivity |]. split; [lra | congruence].
  - destruct (IH (a + q)) as (s & -> & Hs & _).
    exists s. split; [reflexivity |]. split; [lra |]. intros _. lra.
Qed.

Lemma sum_zero (w : list pyfloat) :
  Forall zero_fin w ->
  forall a, exists s, fold_left fl_add w (Fin a) = Fin s /\ s == a.
Proof.
  induction 1 as [| x w (q & -> & Hq) _ IH]; intro a; cbn [fold_left fl_add].
  - exists a. split; [reflexivity | lra].
  - destruct (IH (a + q)) as (s & -> & Hs).
    exists s. split; [reflexivity | lra].
Qed.

Lemma window_mean_pos (w : list pyfloat) (window : nat) :
  (1 <= window)%nat -> length w = window -> Forall pos_fin w ->
  exists m, window_mean w window = Fin m /\ 0 < m.
Proof.
  intros Hw Hlen Hall. unfold window_mean.
  rewrite Hlen, Nat.ltb_irrefl, (no_nan_nonneg w (pos_fin_nonneg w Hall)).
  cbn [orb].
  destruct (sum_pos w Hall 0) as (s & -> & _ & Hs).
  assert (Hne : w <> []) by (intros ->; cbn in Hlen; lia).
  specialize (Hs Hne).
  pose proof (inject_nat_pos window Hw) as Hp.
  cbn [fl_div]. rewrite (Qeq_bool_pos _ Hp).
  eexists. split; [reflexivity |].
  apply Qlt_shift_div_l; [exact Hp | lra].
Qed.

Lemma window_mean_zero (w : list pyfloat) (window : nat) :
  (1 <= window)%nat -> length w = window -> Forall zero_fin w ->
  exists m, window_mean w window = Fin m /\ m == 0.
Proof.
  intros Hw Hlen Hall. unfold window_mean.
  rewrite Hlen, Nat.ltb_irrefl, (no_nan_nonneg w (zero_fin_nonneg w Hall)).
  cbn [orb].
  destruct (sum_zero w Hall 0) as (s & -> & Hs).
  pose proof (inject_nat_pos window Hw) as Hp.
  cbn [fl_div]. rewrite (Qeq_bool_pos _ Hp).
  eexists. split; [reflexivity |].
  rewrite Hs. field. lra.
Qed.

(** A window that starts after the first bar sees differences only. *)
Lemma window_after_first (P : pyfloat -> Prop) (h : pyfloat)
    (t : list pyfloat) (m period : nat) :
  (period <= m)%nat -> Forall P t -> Forall P (window_at (h :: t) m period).
Proof.
  intros Hp Ht. unfold window_at.
  replace (S m - period)%nat with (S (m - period)) by lia.
  cbn [skipn]. apply Forall_window, Ht.
Qed.

Lemma diff_from_rising (xs : list Q) :
  forall prev, Sorted.StronglySorted Qlt (prev :: xs) ->
    Forall pos_fin (diff_from prev xs).
Proof.
  induction xs as [| x r IH]; intros prev H; cbn [diff_from]; constructor.
  - inversion H as [| ? ? _ Hall]; subst. inversion Hall; subst.
    eexists. split; [reflexivity | lra].
  - apply IH. inversion H; assumption.
Qed.

Lemma diff_from_falling (xs : list Q) :
  forall prev, Sorted.StronglySorted (fun a b => b < a) (prev :: xs) ->
    Forall (fun d => exists q, d = Fin q /\ q < 0) (diff_from prev xs).
Proof.
  induction xs as [| x r IH]; intros prev H; cbn [diff_from]; constructor.
  - inversion H as [| ? ? _ Hall]; subst. inversion Hall; subst.
    eexists. split; [reflexivity | lra].
  - apply IH. inversion H; assumption.
Qed.

Lemma rsi_means_rising (close : list Q) (period m : nat) :
  (1 <= period)%nat -> (period <= m)%nat -> length close = S m ->
  Sorted.StronglySorted Qlt close ->
  exists g l,
    last (rsi_gain close period) NaN = Fin g /\
    last (rsi_loss close period) NaN = Fin l /\ 0 < g /\ l == 0.
Proof.
  intros Hp Hm Hlen Hs.
  rewrite (rsi_gain_last close period m Hlen), (rsi_loss_last close period m Hlen).
  destruct close as [| x r]; [discriminate |].
  pose proof (diff_from_rising r x Hs) as Hd.
  cbn [diff where_ map].
  destruct (window_mean_pos
              (window_at
                 ((if fl_gt NaN (Fin 0) then NaN else Fin 0)
                  :: map (fun d => if fl_gt d (Fin 0) then d else Fin 0)
                       (diff_from x r)) m period) period Hp)
    as (g & Hg & Hg0).
  { rewrite window_at_length; [lia |].
    cbn [length]. rewrite length_map.
    pose proof (diff_length (x :: r)) as Hl. cbn [diff length] in Hl.
    cbn [length] in Hlen. lia. }
  { apply window_after_first; [exact Hm |].
    apply Forall_map. apply Forall_impl with (2 := Hd).
    intros d (q & -> & Hq). cbn [fl_gt fl_lt].
    replace (Qltb 0 q) with true by (symmetry; apply Qltb_lt, Hq).
    eauto. }
  destruct (window_mean_zero
              (window_at
                 (fl_neg (if fl_lt NaN (Fin 0) then NaN else Fin 0)
                  :: map fl_neg
                       (map (fun d => if fl_lt d (Fin 0) then d else Fin 0)
                          (diff_from x r))) m period) period Hp)
    as (l & Hl & Hl0).
  { rewrite window_at_length; [lia |].
    cbn [length]. rewrite !length_map.
    pose proof (diff_length (x :: r)) as Hl. cbn [diff length] in Hl.
    cbn [length] in Hlen. lia. }
  { apply window_after_first; [exact Hm |].
    rewrite map_map. apply Forall_map. apply Forall_impl with (2 := Hd).
    intros d (q & -> & Hq). cbn [fl_lt].
    replace (Qltb q 0) with false by (symmetry; apply Qltb_ge; lra).
    cbn [fl_neg]. eexists. split; [reflexivity | lra]. }
  exists g, l. auto.
Qed.

Lemma rsi_means_falling (close : list Q) (period m : nat) :
  (1 <= period)%nat -> (period <= m)%nat -> length close = S m ->
  Sorted.StronglySorted (fun a b => b < a) close ->
  exists g l,
    last (rsi_gain close period) NaN = Fin g /\
    last (rsi_loss close period) NaN = Fin l /\ g == 0 /\ 0 < l.
Proof.
  intros Hp Hm Hlen Hs.
  rewrite (rsi_gain_last close period m Hlen), (rsi_loss_last close period m Hlen).
  destruct close as [| x r]; [discriminate |].
  pose proof (diff_from_falling r x Hs) as Hd.
  cbn [diff where_ map].
  destruct (window_mean_zero
              (window_at
                 ((if fl_gt NaN (Fin 0) then NaN else Fin 0)
                  :: map (fun d => if fl_gt d (Fin 0) then d else Fin 0)
                       (diff_from x r)) m period) period Hp)
    as (g & Hg & Hg0).
  { rewrite window_at_length; [lia |].
    cbn [length]. rewrite length_map.
    pose proof (diff_length (x :: r)) as Hl. cbn [diff length] in Hl.
    cbn [length] in Hlen. lia. }
  { apply window_after_first; [exact Hm |].
    apply Forall_map. apply Forall_impl with (2 := Hd).
    intros d (q & -> & Hq). cbn [fl_gt fl_lt].
    replace (Qltb 0 q) with false by (symmetry; apply Qltb_ge; lra).
    eexists. split; [reflexivity | lra]. }
  destruct (window_mean_pos
              (window_at
                 (fl_neg (if fl_lt NaN (Fin 0) then NaN else Fin 0)
                  :: map fl_neg
                       (map (fun d => if fl_lt d (Fin 0) then d else Fin 0)
                          (diff_from x r))) m period) period Hp)
    as (l & Hl & Hl0).
  { rewrite window_at_length; [lia |].
    cbn [length]. rewrite !length_map.
    pose proof (diff_length (x :: r)) as Hl. cbn [diff length] in Hl.
    cbn [length] in Hlen. lia. }
  { apply window_after_first; [exact Hm |].
    rewrite map_map. apply Forall_map. apply Forall_impl with (2 := Hd).
    intros d (q & -> & Hq). cbn [fl_lt].
    replace (Qltb q 0) with true by (symmetry; apply Qltb_lt, Hq).
    cbn [fl_neg]. eexists. split; [reflexivity | lra]. }
  exists g, l. auto.
Qed.

(** The value on a one-way series of more bars than the period. *)
Lemma calculate_rsi_rising (close : list Q) (period : nat) :
  (1 <= period)%nat -> (period < length close)%nat ->
  Sorted.StronglySorted Qlt close ->
  exists r, calculate_rsi close period = Fin r /\ r == 100.
Proof.
  intros Hp Hlen Hs.
  destruct (length close) as [| m] eqn:Em; [lia |].
  assert (Hm : (period <= m)%nat) by lia.
  assert (H1 : (1 <= length close)%nat) by lia.
  destruct (rsi_means_rising close period m Hp Hm Em Hs)
    as (g & l & Hg & Hl & Hg0 & Hl0).
  destruct (calculate_rsi_cases close period g l H1 Hg Hl) as (_ & H & _);
    [lra | lra |].
  exact (H Hl0 Hg0).
Qed.

Lemma calculate_rsi_falling (close : list Q) (period : nat) :
  (1 <= period)%nat -> (period < length close)%nat ->
  Sorted.StronglySorted (fun a b => b < a) close ->
  exists r, calculate_rsi close period = Fin r /\ r == 0.
Proof.
  intros Hp Hlen Hs.
  destruct (length close) as [| m] eqn:Em; [lia |].
  assert (Hm : (period <= m)%nat) by lia.
  assert (H1 : (1 <= length close)%nat) by lia.
  destruct (rsi_means_falling close period m Hp Hm Em Hs)
    as (g & l & Hg & Hl & Hg0 & Hl0).
  destruct (calculate_rsi_cases close period g l H1 Hg Hl) as (H & _);
    [lra | lra |].
  destruct (H Hl0) as (r & Hr & Hv & _).
  exists r. split; [exact Hr |]. rewrite Hv, Hg0. field. lra.
Qed.

(** X22. The RSI of a one-way series sits at its end of the scale: with
    more bars than the period, [calculate_rsi] returns 100 when every
    close is above the one before and 0 when every close is below it. *)
Theorem rsi_of_monotone_series (close : list Q) (period : nat) :
  (1 <= period)%nat -> (period < length close)%nat ->
  (Sorted.StronglySorted Qlt close ->
   exists r, calculate_rsi close period = Fin r /\ r == 100) /\
  (Sorted.StronglySorted (fun a b => b < a) close ->
   exists r, calculate_rsi close period = Fin r /\ r == 0).
Proof.
  intros Hp Hlen. split; intro Hs.
  - apply calculate_rsi_rising; assumption.
  - apply calculate_rsi_falling; assumption.
Qed.

Lemma rsi_of_monotone_series_witness :
  (Sorted.StronglySorted Qlt [1; 2; 3] ->
   exists r, calculate_rsi [1; 2; 3] 2 = Fin r /\ r == 100) /\
  (Sorted.StronglySorted (fun a b => b < a) [1; 2; 3] ->
   exists r, calculate_rsi [1; 2; 3] 2 = Fin r /\ r == 0).
Proof.
  apply (rsi_of_monotone_series [1; 2; 3] 2); cbn; lia.
Defined.

End ScoringFacts.

(** * Properties of the bot's cycle *)

Module BotFacts.

Import Py PyMore Journal Analyzer Scoring Bot.
Import PyFacts JournalFacts AnalyzerFacts RoundFacts DictFacts ScoringFacts.

(** *** A one-way market *)

Lemma sorted_nth (R : Q -> Q -> Prop) (l : list Q) :
  Sorted.StronglySorted R l ->
  forall i j, (i < j < length l)%nat -> R (nth i l 0) (nth j l 0).
Proof.
  induction 1 as [| x l Hs IH Hx]; intros i j Hij; [cbn in Hij; lia |].
  destruct j as [| j]; [lia |]. destruct i as [| i]; cbn [nth].
  - rewrite Forall_forall in Hx. apply Hx, nth_In. cbn in Hij. lia.
  - apply IH. cbn in Hij. lia.
Qed.

Lemma not_local_extremum (cmp : Q -> Q -> bool) (prices : list Q)
    (window i k : nat) :
  In k (seq (i - window) (2 * window + 1)) -> k <> i ->
  cmp (nth i prices 0) (nth k prices 0) = false ->
  is_local_extremum cmp prices window i = false.
Proof.
  intros Hin Hk Hc. unfold is_local_extremum.
  destruct (forallb _ _) eqn:E; [| reflexivity].
  rewrite forallb_forall in E. specialize (E k Hin).
  rewrite Hc, orb_false_r in E. apply Nat.eqb_eq in E. contradiction.
Qed.

Lemma Qle_bool_gt (a b : Q) : b < a -> Qle_bool a b = false.
Proof.
  intro H. destruct (Qle_bool a b) eqn:E; [| reflexivity].
  apply Qle_bool_iff in E. lra.
Qed.

(** A one-way series has no turning point, so no level. *)
Lemma one_way_no_levels (close : list Q) :
  rising close \/ falling close ->
  find_support_resistance close 5 = Ok (mkSRLevels [] [] None None).
Proof.
  intro Hway. unfold find_support_resistance. cbv zeta.
  assert (Hmin : filter (is_local_extremum Qle_bool close 10)
                   (seq 10 (length close - 10 - 10)) = []).
  { apply filter_none. intros i Hi. apply in_seq in Hi.
    destruct Hway as [Hr | Hf].
    - apply (not_local_extremum _ _ _ _ (i - 1)); [apply in_seq; lia | lia |].
      apply Qle_bool_gt. apply (sorted_nth Qlt close Hr). lia.
    - apply (not_local_extremum _ _ _ _ (i + 1)); [apply in_seq; lia | lia |].
      apply Qle_bool_gt. apply (sorted_nth _ close Hf). lia. }
  assert (Hmax : filter (is_local_extremum (fun a b => Qle_bool b a) close 10)
                   (seq 10 (length close - 10 - 10)) = []).
  { apply filter_none. intros i Hi. apply in_seq in Hi.
    destruct Hway as [Hr | Hf].
    - apply (not_local_extremum _ _ _ _ (i + 1)); [apply in_seq; lia | lia |].
      apply Qle_bool_gt. apply (sorted_nth Qlt close Hr). lia.
    - apply (not_local_extremum _ _ _ _ (i - 1)); [apply in_seq; lia | lia |].
      apply Qle_bool_gt. apply (sorted_nth _ close Hf). lia. }
  rewrite Hmin, Hmax. reflexivity.
Qed.

Lemma column_length (col : Bar -> Q) (data : DataFrame) :
  length (column col data) = length data.
Proof. apply length_map. Qed.

Lemma get_trend_rising (data : DataFrame) :
  (2 <= length data)%nat -> rising (column close data) ->
  exists price tr,
    iloc_neg (column close data) 1 = Ok price /\
    get_trend data 20 50 200 = Ok tr /\
    (tr = STRONG_UPTREND \/ tr = WEAK_UPTREND).
Proof.
  intros Hlen Hr.
  destruct (get_trend_eval data 20 50 200)
    as (price & e_slow & e_trend & Hp & _ & He & Ht); try lia.
  { intros ->. cbn in Hlen. lia. }
  destruct (trend_ema_series _ _ _ _ He) as (period & ema & Hper & Hema & Hlast).
  assert (Hlt : e_trend < price).
  { apply (calculate_ema_below (column close data) ema period); auto.
    - destruct Hper as [-> | ->]; lia.
    - rewrite column_length. exact Hlen. }
  exists price. eexists. split; [exact Hp |]. split; [exact Ht |].
  replace (Qltb e_trend price) with true by (symmetry; apply Qltb_lt, Hlt).
  cbn [andb]. destruct (Qltb e_trend e_slow); auto.
Qed.

Lemma get_trend_falling (data : DataFrame) :
  (2 <= length data)%nat -> falling (column close data) ->
  exists price tr,
    iloc_neg (column close data) 1 = Ok price /\
    get_trend data 20 50 200 = Ok tr /\
    (tr = STRONG_DOWNTREND \/ tr = WEAK_DOWNTREND).
Proof.
  intros Hlen Hr.
  destruct (get_trend_eval data 20 50 200)
    as (price & e_slow & e_trend & Hp & _ & He & Ht); try lia.
  { intros ->. cbn in Hlen. lia. }
  destruct (trend_ema_series _ _ _ _ He) as (period & ema & Hper & Hema & Hlast).
  assert (Hlt : price < e_trend).
  { apply (calculate_ema_above (column close data) ema period); auto.
    - destruct Hper as [-> | ->]; lia.
    - rewrite column_length. exact Hlen. }
  exists price. eexists. split; [exact Hp |]. split; [exact Ht |].
  replace (Qltb e_trend price) with false
    by (symmetry; apply Qltb_ge; lra).
  replace (Qltb price e_trend) with true by (symmetry; apply Qltb_lt, Hlt).
  cbn [andb]. destruct (Qltb e_slow e_trend); auto.
Qed.

Lemma score_rsi_overbought (r : Q) (sr : Q * list string) :
  r == 100 ->
  score_rsi default_strategies (Fin r) sr
  = (fst sr - (1 # 2), snd sr ++ ["RSI overbought"%string]).
Proof.
  intro Hr. destruct sr as [score reasons]. unfold score_rsi.
  change (enabled default_strategies "rsi") with true.
  cbn [fl_lt fl_gt].
  replace (Qltb r 35) with false by (symmetry; apply Qltb_ge; lra).
  replace (Qltb 65 r) with true by (symmetry; apply Qltb_lt; lra).
  reflexivity.
Qed.

Lemma score_rsi_oversold (r : Q) (sr : Q * list string) :
  r == 0 ->
  score_rsi default_strategies (Fin r) sr
  = (fst sr + (1 # 2), snd sr ++ ["RSI oversold"%string]).
Proof.
  intro Hr. destruct sr as [score reasons]. unfold score_rsi.
  change (enabled default_strategies "rsi") with true.
  cbn [fl_lt].
  replace (Qltb r 35) with true by (symmetry; apply Qltb_lt; lra).
  reflexivity.
Qed.

Lemma hold_on_the_way_up (tr : Trend) (p : Pattern) (r : Q) :
  tr = STRONG_UPTREND \/ tr = WEAK_UPTREND -> r == 100 ->
  exists score reasons,
    generate_signal (trend_name tr) "NEUTRAL" (pattern_name p) (Fin r) None
    = ("HOLD"%string, score, reasons).
Proof.
  intros Htr Hr. rewrite generate_signal_scored. cbv zeta. unfold scored.
  rewrite (score_rsi_overbought r _ Hr). cbn [fst snd].
  destruct Htr as [-> | ->]; destruct p;
    (do 2 eexists; vm_compute; reflexivity).
Qed.

Lemma hold_on_the_way_down (tr : Trend) (p : Pattern) (r : Q) :
  tr = STRONG_DOWNTREND \/ tr = WEAK_DOWNTREND -> r == 0 ->
  exists score reasons,
    generate_signal (trend_name tr) "NEUTRAL" (pattern_name p) (Fin r) None
    = ("HOLD"%string, score, reasons).
Proof.
  intros Htr Hr. rewrite generate_signal_scored. cbv zeta. unfold scored.
  rewrite (score_rsi_oversold r _ Hr). cbn [fst snd].
  destruct Htr as [-> | ->]; destruct p;
    (do 2 eexists; vm_compute; reflexivity).
Qed.

Lemma contains_uptrend (tr : Trend) :
  tr = STRONG_UPTREND \/ tr = WEAK_UPTREND ->
  contains "UPTREND" (trend_name tr) = true.
Proof. intros [-> | ->]; reflexivity. Qed.

Lemma contains_downtrend (tr : Trend) :
  tr = STRONG_DOWNTREND \/ tr = WEAK_DOWNTREND ->
  contains "DOWNTREND" (trend_name tr) = true.
Proof. intros [-> | ->]; reflexivity. Qed.

Lemma analyze_rising (pair_ : string) (data : DataFrame) :
  (15 <= length data)%nat -> rising (column close data) ->
  exists r,
    analyze_pair pair_ (Some data) = Ok (Some r) /\
    sd_signal r = "HOLD"%string /\ sd_position r = "NEUTRAL"%string /\
    sd_support r = [] /\ sd_resistance r = [] /\
    contains "UPTREND" (sd_trend r) = true /\ sd_rsi r = Fin 100.
Proof.
  intros Hlen Hr.
  destruct (get_trend_rising data) as (price & tr & Hp & Ht & Htr);
    [lia | exact Hr |].
  destruct (calculate_rsi_rising (column close data) 14) as (v & Hv & Hv100);
    [lia | rewrite column_length; lia | exact Hr |].
  destruct (hold_on_the_way_up tr
              (first_match (pattern_holds data) priority) v Htr Hv100)
    as (score & reasons & Hsig).
  unfold analyze_pair.
  rewrite Hp, Ht, (one_way_no_levels _ (or_introl Hr)),
    (candle_returns data) by lia.
  cbn [bind]. rewrite Hv.
  change (get_price_position price (mkSRLevels [] [] None None))
    with "NEUTRAL"%string.
  rewrite Hsig. eexists. split; [reflexivity |].
  cbn [sd_signal sd_position sd_support sd_resistance sd_trend sd_rsi
         fl_round firstn support resistance].
  repeat split; try reflexivity.
  - apply contains_uptrend, Htr.
  - rewrite (round_compat v 100 1 Hv100). reflexivity.
Qed.

Lemma analyze_falling (pair_ : string) (data : DataFrame) :
  (15 <= length data)%nat -> falling (column close data) ->
  exists r,
    analyze_pair pair_ (Some data) = Ok (Some r) /\
    sd_signal r = "HOLD"%string /\ sd_position r = "NEUTRAL"%string /\
    sd_support r = [] /\ sd_resistance r = [] /\
    contains "DOWNTREND" (sd_trend r) = true /\ sd_rsi r = Fin 0.
Proof.
  intros Hlen Hr.
  destruct (get_trend_falling data) as (price & tr & Hp & Ht & Htr);
    [lia | exact Hr |].
  destruct (calculate_rsi_falling (column close data) 14) as (v & Hv & Hv0);
    [lia | rewrite column_length; lia | exact Hr |].
  destruct (hold_on_the_way_down tr
              (first_match (pattern_holds data) priority) v Htr Hv0)
    as (score & reasons & Hsig).
  unfold analyze_pair.
  rewrite Hp, Ht, (one_way_no_levels _ (or_intror Hr)),
    (candle_returns data) by lia.
  cbn [bind]. rewrite Hv.
  change (get_price_position price (mkSRLevels [] [] None None))
    with "NEUTRAL"%string.
  rewrite Hsig. eexists. split; [reflexivity |].
  cbn [sd_signal sd_position sd_support sd_resistance sd_trend sd_rsi
         fl_round firstn support resistance].
  repeat split; try reflexivity.
  - apply contains_downtrend, Htr.
  - rewrite (round_compat v 0 1 Hv0). reflexivity.
Qed.

(** X23. A one-way market is never traded.  On a frame of 15 bars or
    more whose closes rise from bar to bar, [analyze_pair] returns HOLD:
    the trend is an uptrend, no level is found, the position is NEUTRAL
    and the RSI is 100, so the score stays below 2 whatever the candles
    show.  On closes that fall from bar to bar it returns HOLD as well,
    with a downtrend and an RSI of 0. *)
Theorem one_way_market_is_held (pair_ : string) (data : DataFrame) :
  (15 <= length data)%nat ->
  (rising (column close data) ->
   exists r,
     analyze_pair pair_ (Some data) = Ok (Some r) /\
     sd_signal r = "HOLD"%string /\ sd_position r = "NEUTRAL"%string /\
     sd_support r = [] /\ sd_resistance r = [] /\
     contains "UPTREND" (sd_trend r) = true /\ sd_rsi r = Fin 100) /\
  (falling (column close data) ->
   exists r,
     analyze_pair pair_ (Some data) = Ok (Some r) /\
     sd_signal r = "HOLD"%string /\ sd_position r = "NEUTRAL"%string /\
     sd_support r = [] /\ sd_resistance r = [] /\
     contains "DOWNTREND" (sd_trend r) = true /\ sd_rsi r = Fin 0).
Proof.
  intro Hlen. split; intro H.
  - apply analyze_rising; assumption.
  - apply analyze_falling; assumption.
Qed.

Lemma one_way_market_is_held_witness :
  exists r,
    analyze_pair "EUR/USD" (Some (staircase 1 (1 # 100) 15)) = Ok (Some r) /\
    sd_signal r = "HOLD"%string /\ sd_position r = "NEUTRAL"%string /\
    sd_support r = [] /\ sd_resistance r = [] /\
    contains "UPTREND" (sd_trend r) = true /\ sd_rsi r = Fin 100.
Proof.
  apply (one_way_market_is_held "EUR/USD" (staircase 1 (1 # 100) 15)).
  - vm_compute. lia.
  - unfold rising. vm_compute. repeat constructor.
Defined.

(** *** Frames that are skipped *)

Lemma analyze_short_frame (pair_ : string) (data : DataFrame) :
  (length data <= 1)%nat ->
  analyze_pair pair_ (Some data) = Raise IndexError.
Proof.
  intro Hlen. destruct data as [| b [| b' r]]; [reflexivity | |
    cbn in Hlen; lia].
  unfold analyze_pair.
  destruct (get_trend_eval [b] 20 50 200)
    as (price & e_slow & e_trend & Hp & _ & _ & Ht); try lia; [discriminate |].
  rewrite Hp, Ht. cbn [bind].
  change (find_support_resistance (column close [b]) 5)
    with (Ok (mkSRLevels [] [] None None)).
  cbn [bind].
  pose proof (candle_one_bar [b] (Nat.le_refl 1)) as Hc.
  cbn [List.rev app] in Hc. rewrite Hc. reflexivity.
Qed.

(** X24. A frame too short to read is skipped.  On a frame of one bar
    or none [analyze_pair] raises [IndexError]; the cycle logs it and
    goes on with the next pair, and a pair without data is passed over
    as well: in both cases the results, the remembered signals and the
    journal are what they would be without that pair. *)
Theorem short_frame_is_skipped (virtual_trading : bool) (now pair_ : string)
    (st : BotState) (data : DataFrame)
    (rest : list (string * option DataFrame)) :
  (length data <= 1)%nat ->
  analyze_pair pair_ (Some data) = Raise IndexError /\
  run_analysis_cycle virtual_trading now st ((pair_, Some data) :: rest)
  = run_analysis_cycle virtual_trading now st rest /\
  run_analysis_cycle virtual_trading now st ((pair_, None) :: rest)
  = run_analysis_cycle virtual_trading now st rest.
Proof.
  intro Hlen. pose proof (analyze_short_frame pair_ data Hlen) as H.
  split; [exact H |]. unfold run_analysis_cycle. cbn [fold_left fst snd].
  unfold process_pair. rewrite H. split; reflexivity.
Qed.

Lemma short_frame_is_skipped_witness :
  let st := mkBot [] (init None None 10000) in
  let data := [mkBar 1 2 0 1 0] in
  analyze_pair "EUR/USD" (Some data) = Raise IndexError /\
  run_analysis_cycle true "t" st [("EUR/USD"%string, Some data)]
  = run_analysis_cycle true "t" st [] /\
  run_analysis_cycle true "t" st [("EUR/USD"%string, None)]
  = run_analysis_cycle true "t" st [].
Proof.
  apply (short_frame_is_skipped true "t" "EUR/USD"
           (mkBot [] (init None None 10000)) [mkBar 1 2 0 1 0] []).
  cbn. lia.
Defined.

(** *** Notifications *)

(** X25. A HOLD is announced once.  When the analysis of a pair says
    HOLD, [process_pair] opens and closes nothing; it sends a message
    exactly when the signal remembered for that pair is BUY or SELL;
    and once it has run, a further HOLD for the pair is not announced.
    The signals remembered for the other pairs stay as they are. *)
Theorem hold_is_announced_once (virtual_trading : bool) (now pair_ : string)
    (st : BotState) (result : SignalData) :
  sd_signal result = "HOLD"%string ->
  let (p, st') := process_result virtual_trading now st pair_ (Some result) in
  journal st' = journal st /\ opened p = None /\
  (notified p = true <->
   lookup pair_ (last_signals st) = Some "BUY"%string \/
   lookup pair_ (last_signals st) = Some "SELL"%string) /\
  should_notify (last_signals st') pair_ "HOLD" = false /\
  forall other, other <> pair_ ->
    lookup other (last_signals st') = lookup other (last_signals st).
Proof.
  intro Hs. unfold process_result. rewrite Hs.
  assert (Hj : (if virtual_trading
                then on_signal (journal st) now pair_ "HOLD" (sd_price result)
                       (signal_info_of result)
                else (None, journal st)) = (None, journal st)).
  { destruct virtual_trading; [| reflexivity].
    unfold on_signal. reflexivity. }
  rewrite Hj. cbn [journal opened notified last_signals].
  split; [reflexivity |]. split; [reflexivity |]. split; [| split].
  - unfold should_notify.
    change (in_list "HOLD" ["BUY"; "SELL"]%string) with false.
    change ("HOLD" =? "HOLD")%string with true. cbn [andb].
    destruct (lookup pair_ (last_signals st)) as [s |].
    + unfold in_list. cbn [existsb]. rewrite orb_false_r.
      destruct (String.eqb_spec s "BUY") as [-> | Hb].
      * cbn. split; auto.
      * destruct (String.eqb_spec s "SELL") as [-> | Hse].
        -- cbn. split; auto.
        -- cbn. split; [discriminate |]. intros [H | H]; congruence.
    + split; [discriminate |]. intros [H | H]; discriminate.
  - unfold should_notify. rewrite lookup_set_item_same. reflexivity.
  - intros other Hne. apply lookup_set_item_other, Hne.
Qed.

Lemma hold_is_announced_once_witness :
  let st := mkBot [("EUR/USD", "BUY")]%string (init None None 10000) in
  let result :=
    mkSignalData "EUR/USD" 1 "RANGE_BOUND" "NEUTRAL" [] [] "NONE" (Fin 50)
      "HOLD" 0 [] in
  let (p, st') := process_result true "t" st "EUR/USD" (Some result) in
  journal st' = journal st /\ opened p = None /\
  (notified p = true <->
   lookup "EUR/USD" (last_signals st) = Some "BUY"%string \/
   lookup "EUR/USD" (last_signals st) = Some "SELL"%string) /\
  should_notify (last_signals st') "EUR/USD" "HOLD" = false /\
  forall other, other <> "EUR/USD"%string ->
    lookup other (last_signals st') = lookup other (last_signals st).
Proof.
  apply (hold_is_announced_once true "t" "EUR/USD"
           (mkBot [("EUR/USD", "BUY")]%string (init None None 10000))
           (mkSignalData "EUR/USD" 1 "RANGE_BOUND" "NEUTRAL" [] [] "NONE"
              (Fin 50) "HOLD" 0 [])).
  reflexivity.
Defined.

End BotFacts.

(** * Properties of the RSI curve of the chart *)

Module ChartFacts.

Import Py Analyzer Chart PyFacts AnalyzerFacts.

Lemma nth_rsi_values (close : list Q) (i : nat) (d : pyfloat) :
  (i < length close)%nat ->
  nth i (rsi_values close) d = calculate_rsi (firstn (i + 1) close) 14.
Proof.
  intro Hi. unfold rsi_values.
  rewrite (nth_indep _ d (calculate_rsi (firstn (0 + 1) close) 14))
    by (rewrite length_map, length_seq; exact Hi).
  rewrite (map_nth (fun i => calculate_rsi (firstn (i + 1) close) 14)).
  rewrite seq_nth by exact Hi. reflexivity.
Qed.

Lemma calculate_rsi_range (close : list Q) (period : nat) :
  (1 <= period)%nat -> close <> [] ->
  calculate_rsi close period = NaN \/
  exists r, calculate_rsi close period = Fin r /\ 0 <= r /\ r <= 100.
Proof.
  intros Hp Hne.
  assert (H0 : (0 < length close)%nat)
    by (destruct close; [congruence | cbn; lia]).
  destruct (Nat.lt_ge_cases (length close) period) as [Hshort | Hlong].
  - left. destruct (rsi_nan_cases close period Hp) as [H _]. apply H. lia.
  - destruct (rsi_means_nonneg close period Hp Hlong)
      as (g & l & Hg & Hl & Hg0 & Hl0).
    destruct (calculate_rsi_cases close period g l) as (H1 & H2 & H3);
      auto.
    destruct (Qlt_le_dec 0 l) as [Hlpos | Hlz].
    + right. destruct (H1 Hlpos) as (r & Hr & _ & Hr0 & Hr1).
      exists r. repeat split; [exact Hr | lra | lra].
    + assert (Hl00 : l == 0) by lra.
      destruct (Qlt_le_dec 0 g) as [Hgpos | Hgz].
      * right. destruct (H2 Hl00 Hgpos) as (r & Hr & Hr100).
        exists r. repeat split; [exact Hr | lra | lra].
      * left. apply H3; lra.
Qed.

(** X26. The RSI curve of the chart.  [rsi_values] has one point per
    bar; its first 13 points are NaN, every other point is NaN or lies
    between 0 and 100, the range the chart shows, and its last point is
    the RSI that [create_analysis_chart] prints beside the curve. *)
Theorem rsi_curve (close : list Q) :
  length (rsi_values close) = length close /\
  (forall i, (i < length close)%nat -> (i < 13)%nat ->
     nth i (rsi_values close) (Fin 50) = NaN) /\
  (forall i, (i < length close)%nat ->
     nth i (rsi_values close) NaN = NaN \/
     exists r, nth i (rsi_values close) NaN = Fin r /\ 0 <= r /\ r <= 100) /\
  (close <> [] -> last (rsi_values close) NaN = calculate_rsi close 14).
Proof.
  split; [| split; [| split]].
  - unfold rsi_values. rewrite length_map, length_seq. reflexivity.
  - intros i Hi H13. rewrite nth_rsi_values by exact Hi.
    destruct (rsi_nan_cases (firstn (i + 1) close) 14) as [H _]; [lia |].
    apply H. rewrite length_firstn. lia.
  - intros i Hi. rewrite nth_rsi_values by exact Hi.
    apply calculate_rsi_range; [lia |].
    intro E. apply (f_equal (@length Q)) in E.
    rewrite length_firstn in E. cbn in E. lia.
  - intro Hne. destruct (length close) as [| m] eqn:Em.
    + destruct close; [congruence | discriminate].
    + unfold rsi_values. rewrite Em.
      rewrite (last_map_seq
                 (fun i => calculate_rsi (firstn (i + 1) close) 14) m NaN).
      rewrite firstn_all2 by lia. reflexivity.
Qed.

End ChartFacts.

(** * Properties of the web app's ledger *)

Module AppFacts.

Import Py PyMore App.

(** Closing a trade keeps the ids in place. *)
Lemma app_close_first_ids (ts : list Trade) (trade_id now : string)
    (exit_price : Q) (t' : Trade) (ts' : list Trade) :
  close_first ts trade_id now exit_price = Some (t', ts') ->
  map id ts' = map id ts.
Proof.
  revert t' ts'. induction ts as [| t rest IH]; intros t' ts' H;
    cbn [close_first] in H; [discriminate |].
  destruct ((id t =? trade_id)%string && is_open t).
  - injection H as <- <-. reflexivity.
  - destruct (close_first rest trade_id now exit_price) as [[u rest'] |];
      [| discriminate].
    injection H as <- <-. cbn [map]. rewrite (IH u rest' eq_refl).
    reflexivity.
Qed.

(** What every request keeps true of the journal file. *)
Lemma app_step_invariant (d : Disk) (op : Op) (n : nat) :
  next_id (load_journal d) = Some (S n) ->
  map id (trades (load_journal d)) = map Journal.trade_id_of (seq 1 n) ->
  exists n',
    next_id (load_journal (step d op)) = Some (S n') /\
    map id (trades (load_journal (step d op)))
    = map Journal.trade_id_of (seq 1 n').
Proof.
  intros Hn Hids. destruct op as [now p dir price | tid now price |].
  - exists (S n). unfold step, open_trade. rewrite Hn.
    cbn [load_journal save_journal journal_file trades next_id].
    split; [f_equal; lia |].
    rewrite map_app, Hids, seq_S, map_app. reflexivity.
  - exists n. unfold step, close_trade.
    destruct (close_first (trades (load_journal d)) tid now price)
      as [[t' ts'] |] eqn:E; cbn [snd]; [| auto].
    cbn [load_journal save_journal save_balance journal_file trades next_id].
    split; [exact Hn |].
    rewrite (app_close_first_ids _ _ _ _ _ _ E). exact Hids.
  - exists 0%nat. split; reflexivity.
Qed.

Lemma app_run_invariant (ops : list Op) :
  forall (d : Disk) (n : nat),
    next_id (load_journal d) = Some (S n) ->
    map id (trades (load_journal d)) = map Journal.trade_id_of (seq 1 n) ->
    exists n',
      next_id (load_journal (run d ops)) = Some (S n') /\
      map id (trades (load_journal (run d ops)))
      = map Journal.trade_id_of (seq 1 n').
Proof.
  induction ops as [| op ops IH]; intros d n Hn Hids.
  - exists n. auto.
  - destruct (app_step_invariant d op n Hn Hids) as (n' & Hn' & Hids').
    exact (IH (step d op) n' Hn' Hids').
Qed.

Lemma NoDup_map_injective {A B} (f : A -> B) (l : list A) :
  (forall a b, f a = f b -> a = b) -> NoDup l -> NoDup (map f l).
Proof.
  intros Hf. induction 1 as [| x l Hx Hl IH]; cbn [map]; constructor.
  - intro Hin. apply in_map_iff in Hin as (y & Hy & Hin).
    apply Hf in Hy. subst y. contradiction.
  - exact IH.
Qed.

(** X27. The web app numbers its trades without gaps or repeats.
    Whatever requests were served since the files were first created,
    resets included, the trades on file carry the ids TR0001, TR0002,
    ... in the order they were opened, [next_id] is one more than their
    number, and no two trades share an id. *)
Theorem app_ids_in_sequence (ops : list Op) :
  let journal := load_journal (run no_files ops) in
  exists n,
    next_id journal = Some (S n) /\
    map id (trades journal) = map Journal.trade_id_of (seq 1 n) /\
    NoDup (map id (trades journal)).
Proof.
  destruct (app_run_invariant ops no_files 0 eq_refl eq_refl)
    as (n & Hn & Hids).
  exists n. split; [exact Hn |]. split; [exact Hids |].
  cbv zeta. rewrite Hids.
  apply NoDup_map_injective; [| apply seq_NoDup].
  intros a b. apply JournalFacts.trade_id_of_inj.
Qed.

End AppFacts.

(** * Properties of the configuration *)

Module ConfigFacts.

Import Py PyMore Config DictFacts.

Lemma split_dot_nonempty (key : string) : split_dot key <> [].
Proof.
  destruct key as [| c rest]; cbn [split_dot]; [discriminate |].
  destruct (Ascii.eqb c "."); [discriminate |].
  destruct (split_dot rest); discriminate.
Qed.

Lemma set_path_get_path (keys : list string) :
  forall (config value config' default : Value),
    set_path config keys value = Returns config' ->
    get_path config' keys default = value.
Proof.
  induction keys as [| k rest IH]; intros config value config' default H.
  - destruct config; discriminate H.
  - destruct config as [| | | | | items]; try discriminate H.
    cbn [set_path] in H. destruct rest as [| k2 rest'].
    + injection H as <-. cbn [get_path].
      rewrite lookup_set_item_same. reflexivity.
    + destruct (set_path _ (k2 :: rest') value) as [child' |] eqn:E;
        [| discriminate H].
      injection H as <-.
      change (get_path (VDict (set_item k child' items)) (k :: k2 :: rest')
                default)
        with (match lookup k (set_item k child' items) with
              | Some v => get_path v (k2 :: rest') default
              | None => default
              end).
      rewrite lookup_set_item_same. exact (IH _ _ _ _ E).
Qed.

Lemma set_path_frame (keys : list string) (items : list (string * Value))
    (value config' default : Value) (k2 : string) (rest2 : list string) :
  set_path (VDict items) keys value = Returns config' ->
  k2 <> hd EmptyString keys ->
  get_path config' (k2 :: rest2) default
  = get_path (VDict items) (k2 :: rest2) default.
Proof.
  intros H Hne. destruct keys as [| k rest]; [discriminate H |].
  cbn [hd] in Hne. cbn [set_path] in H. destruct rest as [| k' rest'].
  - injection H as <-. cbn [get_path].
    rewrite lookup_set_item_other by exact Hne. reflexivity.
  - destruct (set_path _ (k' :: rest') value) as [child' |]; [| discriminate H].
    injection H as <-. cbn [get_path].
    rewrite lookup_set_item_other by exact Hne. reflexivity.
Qed.

Lemma set_path_dict (keys : list string) (config value config' : Value) :
  set_path config keys value = Returns config' ->
  exists items', config' = VDict items'.
Proof.
  intro H.
  destruct keys as [| k rest];
    destruct config as [| | | | | items]; try discriminate H.
  cbn [set_path] in H. destruct rest as [| k2 rest].
  - injection H as <-. eauto.
  - destruct (set_path _ (k2 :: rest) value); [| discriminate H].
    injection H as <-. eauto.
Qed.

(** A dict made on the way takes any path. *)
Lemma set_path_fresh (keys : list string) (value : Value) :
  keys <> [] -> exists config', set_path (VDict []) keys value = Returns config'.
Proof.
  induction keys as [| k rest IH]; intro Hne; [congruence |].
  cbn [set_path lookup]. destruct rest as [| k2 rest']; [eauto |].
  destruct IH as (c & Hc); [discriminate |]. rewrite Hc. eauto.
Qed.

(** X29. What [set] stored, [get] returns.  When [set] returns, [get]
    with the same key gives the value just stored, whatever default is
    passed, and a key whose first piece differs reads what it read
    before.  [set] raises [TypeError], and changes nothing, when the
    first piece of a dotted key names a value that is no dict; it
    returns when that piece is not in the configuration at all. *)
Theorem set_then_get (_config : list (string * Value)) (key : string)
    (value default : Value) :
  (forall _config',
     set _config key value = Returns _config' ->
     get _config' key default = value /\
     forall key2,
       hd EmptyString (split_dot key2) <> hd EmptyString (split_dot key) ->
       get _config' key2 default = get _config key2 default) /\
  (forall k rest v,
     split_dot key = k :: rest -> rest <> [] ->
     lookup k _config = Some v -> (forall items, v <> VDict items) ->
     set _config key value = Raises "TypeError") /\
  (lookup (hd EmptyString (split_dot key)) _config = None ->
   exists _config', set _config key value = Returns _config').
Proof.
  split; [| split].
  - intros c' H. unfold set in H.
    destruct (set_path (VDict _config) (split_dot key) value) as [r |] eqn:E;
      [| discriminate H].
    destruct (set_path_dict _ _ _ _ E) as (items' & ->).
    injection H as <-. split.
    + unfold get. apply (set_path_get_path _ _ _ _ _ E).
    + intros key2 Hne. unfold get.
      destruct (split_dot key2) as [| k2 rest2] eqn:E2;
        [exfalso; exact (split_dot_nonempty key2 E2) |].
      apply (set_path_frame _ _ _ _ _ _ _ E). exact Hne.
  - intros k rest v Hk Hrest Hl Hv. unfold set. rewrite Hk.
    cbn [set_path]. destruct rest as [| k2 rest']; [congruence |].
    rewrite Hl.
    destruct v; try reflexivity. exfalso. exact (Hv items eq_refl).
  - intro Hl. unfold set.
    destruct (split_dot key) as [| k rest] eqn:Ek;
      [exfalso; exact (split_dot_nonempty key Ek) |].
    cbn [hd] in Hl. cbn [set_path]. destruct rest as [| k2 rest'].
    + eauto.
    + rewrite Hl.
      destruct (set_path_fresh (k2 :: rest') value) as (c & Hc);
        [discriminate |].
      rewrite Hc. eauto.
Qed.

End ConfigFacts.
